(** * ACedIt: the test-case cache and the execution harness of [acedit/util.py]

    A shallow embedding of the parts of [util.py] that decide how sample
    cases are cached, fetched, run and reported, with the properties of the
    specification proved about it.

    Python 2 byte strings are [string]; the file system is a finite map from
    path strings to nodes; everything that touches the outside world runs in
    a state-and-exception monad over a [World]; what the operating system,
    the network and the HTML parsers answer is read from an [Env] of
    oracles. *)

From Stdlib Require Import ZArith Ascii String DecimalString DecimalNat.
From stdpp Require Import gmap strings list fin_maps.

Local Open Scope string_scope.
Local Open Scope list_scope.
Local Open Scope nat_scope.

(** ** Python 2 [str] methods used by the program *)
Module Py.

Definition nl : ascii := "010"%char.
Definition esc : ascii := "027"%char.
Definition slash : ascii := "/"%char.

(** [c.isspace()] on a byte: tab, newline, vertical tab, form feed,
    carriage return and space. *)
Definition isspace (c : ascii) : bool :=
  match c with
  | "009" | "010" | "011" | "012" | "013" | " " => true
  | _ => false
  end%char.

(** [s.lstrip()] *)
Fixpoint lstrip (s : string) : string :=
  match s with
  | String c s' => if isspace c then lstrip s' else s
  | EmptyString => EmptyString
  end.

(** [s.rstrip()] *)
Fixpoint rstrip (s : string) : string :=
  match s with
  | String c s' =>
      match rstrip s' with
      | EmptyString => if isspace c then EmptyString else String c EmptyString
      | r => String c r
      end
  | EmptyString => EmptyString
  end.

(** [s.strip()] *)
Definition strip (s : string) : string := rstrip (lstrip s).

(** [s.split(sep)] for a one-character separator: never the empty list. *)
Fixpoint split (sep : ascii) (s : string) : list string :=
  match s with
  | EmptyString => [EmptyString]
  | String c s' =>
      if Ascii.eqb c sep then EmptyString :: split sep s'
      else match split sep s' with
           | l :: ls => String c l :: ls
           | [] => [String c EmptyString]
           end
  end.

(** [sep.join(ls)] *)
Fixpoint join (sep : string) (ls : list string) : string :=
  match ls with
  | [] => EmptyString
  | [x] => x
  | x :: xs => x +:+ sep +:+ join sep xs
  end.

(** [s.startswith(p)] *)
Fixpoint startswith (p s : string) : bool :=
  match p, s with
  | EmptyString, _ => true
  | String a p', String b s' => Ascii.eqb a b && startswith p' s'
  | String _ _, EmptyString => false
  end.

(** [s.endswith(p)] *)
Fixpoint endswith (p s : string) : bool :=
  match s with
  | EmptyString => String.eqb p EmptyString
  | String _ s' => String.eqb p s || endswith p s'
  end.

(** [sub in s] *)
Fixpoint contains (sub s : string) : bool :=
  match s with
  | EmptyString => String.eqb sub EmptyString
  | String _ s' => startswith sub s || contains sub s'
  end.

(** [c in s] for one character *)
Fixpoint has_char (c : ascii) (s : string) : bool :=
  match s with
  | EmptyString => false
  | String a s' => Ascii.eqb a c || has_char c s'
  end.

(** [s.upper()] and [s.lower()] on ASCII letters *)
Definition upper_char (c : ascii) : ascii :=
  let n := nat_of_ascii c in
  if (97 <=? n)%nat && (n <=? 122)%nat then ascii_of_nat (n - 32) else c.

Definition lower_char (c : ascii) : ascii :=
  let n := nat_of_ascii c in
  if (65 <=? n)%nat && (n <=? 90)%nat then ascii_of_nat (n + 32) else c.

Fixpoint smap (f : ascii → ascii) (s : string) : string :=
  match s with
  | EmptyString => EmptyString
  | String c s' => String (f c) (smap f s')
  end.

Definition upper : string → string := smap upper_char.
Definition lower : string → string := smap lower_char.

(** [s.split()] with no argument: the runs of non-blank characters. *)
Fixpoint split_ws_go (cur : string) (s : string) : list string :=
  match s with
  | EmptyString => if String.eqb cur EmptyString then [] else [cur]
  | String c s' =>
      if isspace c
      then (if String.eqb cur EmptyString then [] else [cur]) ++ split_ws_go EmptyString s'
      else split_ws_go (cur +:+ String c EmptyString) s'
  end.

Definition split_ws (s : string) : list string := split_ws_go EmptyString s.

(** [str(n)] for a non-negative integer: its decimal digits. *)
Definition str (n : nat) : string := NilZero.string_of_uint (Nat.to_uint n).

(** [l[-1]] and [l[0]] on the result of a [split], which is never empty. *)
Definition last_item (l : list string) : string := List.last l EmptyString.
Definition first_item (l : list string) : string := List.hd EmptyString l.

(** Truth value of a string that may be [None]. *)
Definition truthy (o : option string) : bool :=
  match o with
  | Some s => negb (String.eqb s EmptyString)
  | None => false
  end.

End Py.

(** ** Output normalisation (lines 318-319 and 327-328 of [util.py]) *)

(** [text.strip().split('\n')] followed by
    ['\n'.join([line.strip() for line in ...])]. *)
Definition normalize (text : string) : string :=
  Py.join (String Py.nl EmptyString)
          (map Py.strip (Py.split Py.nl (Py.strip text))).

(** ** The world the program runs in *)

(** A path names a directory or a regular file with its content.  Paths are
    the strings the program hands to the operating system; two paths are
    the same file when they are the same string. *)
Inductive node : Type :=
| Dir
| File (content : string).

Global Instance node_eq_dec : EqDecision node.
Proof. solve_decision. Defined.

(** What [requests] hands back for a fetched page. *)
Record Response : Type := mkResponse {
  url : string;
  status_code : Z;
  text : string
}.

(** One line of the report table after its header. *)
Record row : Type := mkRow {
  serial : nat;
  row_input : string;
  row_expected : string;
  row_your : string;
  row_result : string
}.

(** What the program does to the outside, in order. *)
Inductive event : Type :=
| EPrint (line : string)
| ETable (header : list string) (rows : list row)
| ESystem (cmd : string)
| EGet (link : string)
| EBatch (links : list string).

Record World : Type := mkWorld {
  fs : gmap string node;
  log : list event
}.

Inductive exn : Type :=
| AttributeError | TypeError | NameError | ValueError | IndexError | KeyError
| IOError | OSError | RuntimeError | RequestException.

(** A call returns, leaves through [sys.exit], or raises. *)
Inductive result (A : Type) : Type :=
| Ok (a : A)
| Exit (code : Z)
| Raise (e : exn).
Global Arguments Ok {A} a.
Global Arguments Exit {A} code.
Global Arguments Raise {A} e.

Definition M (A : Type) : Type := World → result A * World.

Definition ret {A} (a : A) : M A := λ w, (Ok a, w).

Definition bind {A B} (m : M A) (k : A → M B) : M B := λ w,
  match m w with
  | (Ok a, w') => k a w'
  | (Exit c, w') => (Exit c, w')
  | (Raise e, w') => (Raise e, w')
  end.

Definition raise {A} (e : exn) : M A := λ w, (Raise e, w).
Definition sys_exit {A} (code : Z) : M A := λ w, (Exit code, w).

(** [try: m except Exception: h]; [SystemExit] is no [Exception]. *)
Definition try_except {A} (m : M A) (h : M A) : M A := λ w,
  match m w with
  | (Raise _, w') => h w'
  | r => r
  end.

Declare Scope py_scope.
Delimit Scope py_scope with py.
Notation "x <- c1 ;; c2" := (bind c1 (λ x, c2))
  (at level 100, c1 at next level, right associativity) : py_scope.
Notation "c1 ;; c2" := (bind c1 (λ _, c2))
  (at level 100, right associativity) : py_scope.
Local Open Scope py_scope.

Definition emit (e : event) : M unit := λ w,
  (Ok tt, {| fs := fs w; log := log w ++ [e] |}).

Definition print (line : string) : M unit := emit (EPrint line).

(** A value that may be [None], used where a string is required. *)
Definition need {A} (e : exn) (o : option A) : M A :=
  match o with
  | Some a => ret a
  | None => raise e
  end.

(** ['a' + x + 'b' ...]: concatenation raises [TypeError] on [None]. *)
Fixpoint concat_opt (parts : list (option string)) : option string :=
  match parts with
  | [] => Some EmptyString
  | Some s :: rest => (λ r, s +:+ r) <$> concat_opt rest
  | None :: _ => None
  end.

Definition cat (parts : list (option string)) : M string :=
  need TypeError (concat_opt parts).

(** *** [os.path] *)

(** One step of [posixpath.join]. *)
Definition path_join2 (path b : string) : string :=
  if Py.startswith "/" b then b
  else if String.eqb path EmptyString || Py.endswith "/" path then path +:+ b
  else path +:+ "/" +:+ b.

(** [os.path.join(a, *p)]: a component that is [None] has no
    [startswith]; [None] stands for that [AttributeError]. *)
Fixpoint path_join (a : string) (p : list (option string)) : option string :=
  match p with
  | [] => Some a
  | Some b :: rest => path_join (path_join2 a b) rest
  | None :: _ => None
  end.

Definition os_path_join (a : string) (p : list (option string)) : M string :=
  need AttributeError (path_join a p).

(** The prefix every entry of directory [p] carries: [join(p, '')]. *)
Definition dir_prefix (p : string) : string :=
  if String.eqb p EmptyString || Py.endswith "/" p then p else p +:+ "/".

Fixpoint strip_prefix (pre s : string) : option string :=
  match pre, s with
  | EmptyString, _ => Some s
  | String a pre', String b s' =>
      if Ascii.eqb a b then strip_prefix pre' s' else None
  | String _ _, EmptyString => None
  end.

(** The name under which path [k] is listed in directory [p], if it is a
    direct entry of it. *)
Definition entry_name (p k : string) : option string :=
  match strip_prefix (dir_prefix p) k with
  | Some n =>
      if negb (String.eqb n EmptyString) && negb (Py.has_char Py.slash n)
      then Some n else None
  | None => None
  end.

(** The directories above [p], outermost first. *)
Fixpoint parents_go (pre rest : string) : list string :=
  match rest with
  | EmptyString => []
  | String c rest' =>
      (if Ascii.eqb c Py.slash && negb (String.eqb pre EmptyString)
          && negb (Py.endswith "/" pre)
       then [pre] else [])
      ++ parents_go (pre +:+ String c EmptyString) rest'
  end.

Definition parents (p : string) : list string := parents_go EmptyString p.

Definition is_file (m : gmap string node) (p : string) : bool :=
  match m !! p with
  | Some (File _) => true
  | _ => false
  end.

Definition is_dir (m : gmap string node) (p : string) : bool :=
  bool_decide (m !! p = Some Dir).

(** [os.path.isdir(p)] and [os.path.isfile(p)] *)
Definition isdir (p : string) : M bool := λ w, (Ok (is_dir (fs w) p), w).
Definition isfile (p : string) : M bool := λ w, (Ok (is_file (fs w) p), w).

(** [os.makedirs(p)]: creates [p] and the directories above it; fails when
    [p] exists or a regular file stands in the way. *)
Definition makedirs (p : string) : M unit := λ w,
  if existsb (is_file (fs w)) (parents p) then (Raise OSError, w)
  else match fs w !! p with
       | Some _ => (Raise OSError, w)
       | None =>
           (Ok tt,
            {| fs := <[p := Dir]> (foldr (λ a m, <[a := Dir]> m) (fs w) (parents p));
               log := log w |})
       end.

(** [os.listdir(p)], in no particular order. *)
Definition listdir (p : string) : M (list string) := λ w,
  match fs w !! p with
  | Some Dir => (Ok (omap (entry_name p) (map_to_list (fs w)).*1), w)
  | _ => (Raise OSError, w)
  end.

(** [open(p, 'r').read()] *)
Definition read_file (p : string) : M string := λ w,
  match fs w !! p with
  | Some (File c) => (Ok c, w)
  | _ => (Raise IOError, w)
  end.

(** [open(p, 'w').write(content)] *)
Definition write_file (p content : string) : M unit := λ w,
  match fs w !! p with
  | Some Dir => (Raise IOError, w)
  | _ => (Ok tt, {| fs := <[p := File content]> (fs w); log := log w |})
  end.

(** [os.remove(p)] *)
Definition remove (p : string) : M unit := λ w,
  match fs w !! p with
  | Some (File _) => (Ok tt, {| fs := delete p (fs w); log := log w |})
  | _ => (Raise OSError, w)
  end.

(** *** What the outside answers *)

(** The operating system, the network and the HTML and JSON extraction of
    the scrapers lie outside the program; their answers are read from
    these oracles.  An oracle sees the world at the time of the call, so a
    repeated call may be answered differently. *)
Record Env : Type := mkEnv {
  home : string;
  cwd : string;
  (** [os.system(cmd)]: the returned status and the file system it leaves *)
  os_system : string → World → Z * gmap string node;
  (** [requests.get(url)]; [None] when it raises *)
  rq_get : string → World → option Response;
  (** [grequests.map(...)]: one answer per link, [None] for a failed fetch *)
  grq_map : list string → World → list (option Response);
  (** Codeforces: the formatted [div.input], [div.output] and
      [div.problem-statement] blocks of a page *)
  codeforces_blocks : Response → list string * list string * list string;
  (** Codechef: the input and output of every [pre] block of the JSON
      body; [None] on [KeyError] or [ValueError] *)
  codechef_blocks : Response → option (list (string * string));
  (** Spoj: the input and output of every [pre] block *)
  spoj_blocks : Response → list (string * string);
  (** Hackerrank: the sample inputs and outputs; [None] on [KeyError] or
      [ValueError] *)
  hackerrank_blocks : Response → option (list string * list string);
  (** the [href]s of the problems table; [None] when there is no table *)
  codeforces_hrefs : Response → option (list string);
  codechef_hrefs : Response → option (list string);
  (** the slugs of the challenges; [None] on [KeyError] or [ValueError] *)
  hackerrank_slugs : Response → option (list string)
}.

(** ** class [Utilities] *)
Section Program.
Context (E : Env).

(** [cache_dir = os.path.join(os.path.expanduser('~'), '.cache', 'ACedIt')] *)
Definition cache_dir : string :=
  path_join2 (path_join2 (home E) ".cache") "ACedIt".

Definition colors_GREEN : string := String Py.esc "[92m".
Definition colors_YELLOW : string := String Py.esc "[93m".
Definition colors_RED : string := String Py.esc "[91m".
Definition colors_ENDC : string := String Py.esc "[0m".
Definition colors_BOLD : string := String Py.esc "[1m".

Inductive verdict : Type := AC | WA | RTE | TLE.

(** The dictionary [verdicts]: the coloured text of each verdict. *)
Definition verdicts (v : verdict) : string :=
  match v with
  | AC => colors_BOLD +:+ colors_GREEN +:+ "AC" +:+ colors_ENDC
  | WA => colors_BOLD +:+ colors_RED +:+ "WA" +:+ colors_ENDC
  | RTE => colors_BOLD +:+ colors_RED +:+ "RTE" +:+ colors_ENDC
  | TLE => colors_BOLD +:+ colors_YELLOW +:+ "TLE" +:+ colors_ENDC
  end.

(** [site == 'spoj'] *)
Definition is_spoj (site : option string) : bool :=
  bool_decide (site = Some "spoj").

(** [os.system(cmd)] *)
Definition system (cmd : string) : M Z := λ w,
  let '(status, files) := os_system E cmd w in
  (Ok status, {| fs := files; log := log w ++ [ESystem cmd] |}).

(** [rq.get(url)] *)
Definition requests_get (link : string) : M Response := λ w,
  let w' := {| fs := fs w; log := log w ++ [EGet link] |} in
  match rq_get E link w with
  | Some r => (Ok r, w')
  | None => (Raise RequestException, w')
  end.

(** [grq.map(grq.get(link) for link in links)] *)
Definition grequests_map (links : list string) : M (list (option Response)) := λ w,
  (Ok (grq_map E links w), {| fs := fs w; log := log w ++ [EBatch links] |}).

(** [for x in l: s = body(s, x)] *)
Fixpoint for_each {A S} (body : S → A → M S) (s : S) (l : list A) : M S :=
  match l with
  | [] => ret s
  | x :: rest => s' <- body s x ;; for_each body s' rest
  end.

(** The path [check_cache] builds when [problem] is set (lines 149-152);
    [None] stands for the [AttributeError] of a component that is [None]. *)
Definition check_cache_path (site contest problem : option string) : option string :=
  let contest := if is_spoj site then Some EmptyString else contest in
  path_join cache_dir [site; contest; problem].

(** [check_cache] (lines 136-157) *)
Definition check_cache (site contest problem : option string) : M bool :=
  match problem with
  | None =>
      p <- os_path_join cache_dir [site; contest] ;;
      d <- isdir p ;;
      (if negb d then makedirs p else ret tt) ;;
      ret false
  | Some _ =>
      p <- need AttributeError (check_cache_path site contest problem) ;;
      d <- isdir p ;;
      if d then ret true
      else (makedirs p ;; ret false)
  end.

(** [getTestCasesCount] (lines 201-203) *)
Definition getTestCasesCount (p : string) : M nat :=
  names <- listdir p ;;
  ret (length (filter (λ f, Py.endswith ".a" f = true) names)).

(** [for i, x in enumerate(items): writeFile(join(path, name(i + num_cases)), x)] *)
Fixpoint write_cases (path : string) (name : nat → string) (num_cases i : nat)
    (items : list string) : M unit :=
  match items with
  | [] => ret tt
  | x :: rest =>
      write_file (path_join2 path (name (i + num_cases))) x ;;
      write_cases path name num_cases (S i) rest
  end.

Definition input_name (k : nat) : string := Py.str k.
Definition output_name (k : nat) : string := Py.str k +:+ ".a".

(** The path [store_files] builds (lines 211-213). *)
Definition store_files_path (site contest problem : option string) : option string :=
  let contest := if is_spoj site then Some EmptyString else contest in
  path_join cache_dir [site; contest; problem].

(** [store_files] (lines 205-226) *)
Definition store_files (site contest problem : option string)
    (inputs outputs : list string) (statement : option string) : M unit :=
  testcases_path <- need AttributeError (store_files_path site contest problem) ;;
  num_cases <- getTestCasesCount testcases_path ;;
  write_cases testcases_path input_name num_cases 0 inputs ;;
  write_cases testcases_path output_name num_cases 0 outputs ;;
  if Py.truthy statement
  then write_file (path_join2 testcases_path "statement.txt") (default EmptyString statement)
  else ret tt.

(** The value of the local [contest] of [handle_kbd_interrupt] after
    line 299. *)
Definition handle_kbd_interrupt_contest (site contest : option string) : option string :=
  if is_spoj site then Some EmptyString else contest.

(** [handle_kbd_interrupt] (lines 290-310); the removal of the directory
    is commented out in the source. *)
Definition handle_kbd_interrupt (site contest problem : option string) : M unit :=
  print "Cleaning up..." ;;
  let contest := handle_kbd_interrupt_contest site contest in
  print "Done. Exiting gracefully.".

(** [get_html] (lines 447-464) *)
Definition MAX_TRIES : nat := 3.

Fixpoint get_html_for (range : list nat) (link : string) (cur : option (nat * Response))
    : M (option (nat * Response)) :=
  match range with
  | [] => ret cur
  | try_count :: rest =>
      r <- requests_get link ;;
      if (status_code r =? 200)%Z then ret (Some (try_count, r))
      else get_html_for rest link (Some (try_count, r))
  end.

Definition get_html (link : string) : M Response :=
  try_except
    (x <- get_html_for (seq 0 MAX_TRIES) link None ;;
     tr <- need NameError x ;;
     if (MAX_TRIES <=? tr.1)%nat
     then (print "Could not fetch content. Please try again." ;; sys_exit 0)
     else ret tr.2)
    (print "Please check your internet connection and try again." ;; sys_exit 0).

(** ** The platform classes *)

Record Args : Type := mkArgs {
  a_site : option string;
  a_contest : option string;
  a_problem : option string;
  a_force : bool;
  a_source : option string
}.

Inductive judge : Type := Codeforces | Codechef | Spoj | Hackerrank.

(** An instance of one of the four classes with its attributes. *)
Record Platform : Type := mkPlatform {
  cls : judge;
  p_site : option string;
  p_contest : option string;
  p_problem : option string;
  force_download : bool
}.

Definition set_problem (self : Platform) (problem : option string) : Platform :=
  {| cls := cls self; p_site := p_site self; p_contest := p_contest self;
     p_problem := problem; force_download := force_download self |}.

Definition Codeforces_init (args : Args) : M Platform :=
  ret {| cls := Codeforces; p_site := a_site args; p_contest := a_contest args;
         p_problem := a_problem args; force_download := a_force args |}.

Definition Codechef_init (args : Args) : M Platform :=
  ret {| cls := Codechef; p_site := a_site args; p_contest := a_contest args;
         p_problem := a_problem args; force_download := a_force args |}.

(** [self.problem = args['problem'].upper()] *)
Definition Spoj_init (args : Args) : M Platform :=
  problem <- need AttributeError (a_problem args) ;;
  ret {| cls := Spoj; p_site := a_site args; p_contest := a_contest args;
         p_problem := Some (Py.upper problem); force_download := a_force args |}.

(** [self.problem = '-'.join(args['problem'].split()).lower()] unless it
    is [None] *)
Definition Hackerrank_init (args : Args) : M Platform :=
  ret {| cls := Hackerrank; p_site := a_site args; p_contest := a_contest args;
         p_problem := (λ p, Py.lower (Py.join "-" (Py.split_ws p))) <$> a_problem args;
         force_download := a_force args |}.

(** [get_platform] (lines 228-237) *)
Definition get_platform (args : Args) : M Platform :=
  if bool_decide (a_site args = Some "codeforces") then Codeforces_init args
  else if bool_decide (a_site args = Some "codechef") then Codechef_init args
  else if bool_decide (a_site args = Some "spoj") then Spoj_init args
  else Hackerrank_init args.

Definition codeforces_url : string := "https://codeforces.com".
Definition codeforces_locale : string := "locale=ru".

(** The scrapers' common exit when the page lacks what they look for. *)
Definition not_found {A} (message : string) (self : Platform) : M A :=
  print message ;;
  handle_kbd_interrupt (p_site self) (p_contest self) (p_problem self) ;;
  sys_exit 0.

(** [Codeforces.parse_html] (lines 480-528) *)
Definition codeforces_parse_html (self : Platform) (req : Response)
    : M (list string * list string * string) :=
  let '(inputs, outputs, statements) := codeforces_blocks E req in
  if (length inputs =? 0)%nat || (length outputs =? 0)%nat
  then not_found "Problem not found..." self
  else (statement <- need IndexError (head statements) ;;
        ret (inputs, outputs, statement)).

(** [Codechef.parse_html] (lines 616-659) *)
Definition codechef_parse_html (self : Platform) (req : Response)
    : M (list string * list string) :=
  match codechef_blocks E req with
  | None => not_found "Problem not found.." self
  | Some cases => ret (cases.*1, cases.*2)
  end.

(** [Spoj.parse_html] (lines 755-798) *)
Definition spoj_parse_html (self : Platform) (req : Response)
    : M (list string * list string) :=
  let cases := spoj_blocks E req in
  if (length cases =? 0)%nat then not_found "Problem not found.." self
  else ret (cases.*1, cases.*2).

(** [Hackerrank.parse_html] (lines 825-878) *)
Definition hackerrank_parse_html (self : Platform) (req : Response)
    : M (list string * list string) :=
  match hackerrank_blocks E req with
  | None => not_found "Problem not found.." self
  | Some cases => ret cases
  end.

(** [M]-valued [map] *)
Fixpoint map_m {A B} (f : A → M B) (l : list A) : M (list B) :=
  match l with
  | [] => ret []
  | x :: rest => y <- f x ;; ys <- map_m f rest ;; ret (y :: ys)
  end.

(** [Codeforces.get_problem_links] (lines 530-547) *)
Definition codeforces_get_problem_links (self : Platform) (req : Response)
    : M (list string) :=
  match codeforces_hrefs E req with
  | None => not_found "Contest not found..." self
  | Some hrefs =>
      ret (map (λ href, codeforces_url +:+ href +:+ "?" +:+ codeforces_locale) hrefs)
  end.

(** [Codechef.get_problem_links] (lines 661-681) *)
Definition codechef_get_problem_links (self : Platform) (req : Response)
    : M (list string) :=
  match codechef_hrefs E req with
  | None => not_found "Contest not found..." self
  | Some links =>
      map_m (λ link, cat [Some "https://codechef.com/api/contests/"; p_contest self;
                          Some "/problems/";
                          Some (Py.last_item (Py.split Py.slash link))]) links
  end.

(** [Hackerrank.get_problem_links] (lines 880-898) *)
Definition hackerrank_get_problem_links (self : Platform) (req : Response)
    : M (list string) :=
  match hackerrank_slugs E req with
  | None => not_found "Contest not found.." self
  | Some slugs =>
      map_m (λ slug, cat [Some "https://www.hackerrank.com/rest/contests/";
                          p_contest self; Some "/challenges/"; Some slug]) slugs
  end.

(** [response is not None and response.status_code == 200] *)
Definition is_200 (response : option Response) : bool :=
  match response with
  | Some r => (status_code r =? 200)%Z
  | None => false
  end.

(** [response.url]: [None] has no attribute [url]. *)
Definition response_url (response : option Response) : M string :=
  need AttributeError (url <$> response).

(** The body of the loop of [Codeforces.handle_batch_requests]
    (lines 559-566); the state is [self] and [failed_requests]. *)
Definition codeforces_handle_response (st : Platform * list string)
    (response : option Response) : M (Platform * list string) :=
  let '(self, failed_requests) := st in
  if is_200 response then
    r <- need AttributeError response ;;
    parsed <- codeforces_parse_html self r ;;
    let '(inputs, outputs, text) := parsed in
    let self := set_problem self
      (Some (Py.first_item (Py.split "?" (Py.last_item (Py.split Py.slash (url r)))))) in
    check_cache (p_site self) (p_contest self) (p_problem self) ;;
    store_files (p_site self) (p_contest self) (p_problem self) inputs outputs (Some text) ;;
    ret (self, failed_requests)
  else
    u <- response_url response ;;
    ret (self, (failed_requests ++ [u])%list).

(** The body of the loop of [Codechef.handle_batch_requests]
    (lines 697-705) and of [Hackerrank.handle_batch_requests]
    (lines 910-918), which differ in the parser only. *)
Definition json_handle_response
    (parse_html : Platform → Response → M (list string * list string))
    (st : Platform * list string) (response : option Response)
    : M (Platform * list string) :=
  let '(self, failed_requests) := st in
  if is_200 response then
    r <- need AttributeError response ;;
    parsed <- parse_html self r ;;
    let '(inputs, outputs) := parsed in
    let self := set_problem self (Some (Py.last_item (Py.split Py.slash (url r)))) in
    check_cache (p_site self) (p_contest self) (p_problem self) ;;
    store_files (p_site self) (p_contest self) (p_problem self) inputs outputs None ;;
    ret (self, failed_requests)
  else
    u <- response_url response ;;
    ret (self, (failed_requests ++ [u])%list).

Definition handle_response (c : judge)
    : Platform * list string → option Response → M (Platform * list string) :=
  match c with
  | Codeforces => codeforces_handle_response
  | Codechef => json_handle_response codechef_parse_html
  | Hackerrank => json_handle_response hackerrank_parse_html
  | Spoj => λ _ _, raise AttributeError
  end.

(** [handle_batch_requests] of the class of [self] (lines 549-568,
    683-707 and 900-920; class [Spoj] has no such method): the new [self]
    and [failed_requests]. *)
Definition handle_batch_requests (self : Platform) (links : list string)
    : M (Platform * list string) :=
  match cls self with
  | Spoj => raise AttributeError
  | c =>
      responses <- grequests_map links ;;
      for_each (handle_response c) (self, []) responses
  end.

(** [int(s)] for a decimal literal with an optional sign, blanks around it
    allowed; [None] stands for [ValueError]. *)
Fixpoint digits_value (acc : Z) (s : string) : option Z :=
  match s with
  | EmptyString => Some acc
  | String c s' =>
      d ← Ascii.is_nat c; digits_value (acc * 10 + Z.of_nat d)%Z s'
  end.

Definition py_int (s : string) : option Z :=
  match Py.strip s with
  | EmptyString => None
  | String "-" EmptyString | String "+" EmptyString => None
  | String "-" d => Z.opp <$> digits_value 0 d
  | String "+" d => digits_value 0 d
  | d => digits_value 0 d
  end.

(** ['contest' if int(self.contest) <= 100000 else 'gym'] *)
Definition codeforces_type (contest : string) : M string :=
  n <- need ValueError (py_int contest) ;;
  ret (if (n <=? 100000)%Z then "contest" else "gym").

(** [Codeforces.scrape_problem] (lines 570-580) *)
Definition codeforces_scrape_problem (self : Platform) : M unit :=
  line <- cat [Some "Fetching problem "; p_contest self; Some "-"; p_problem self;
               Some " from Codeforces..."] ;;
  print line ;;
  contest <- need TypeError (p_contest self) ;;
  problem <- need TypeError (p_problem self) ;;
  type <- codeforces_type contest ;;
  let link := codeforces_url +:+ "/" +:+ type +:+ "/" +:+ contest +:+ "/problem/"
              +:+ problem +:+ "?" +:+ codeforces_locale in
  req <- get_html link ;;
  parsed <- codeforces_parse_html self req ;;
  let '(inputs, outputs, text) := parsed in
  store_files (p_site self) (p_contest self) (p_problem self) inputs outputs (Some text) ;;
  print "Done.".

(** [Codechef.scrape_problem] (lines 709-720) *)
Definition codechef_scrape_problem (self : Platform) : M unit :=
  line <- cat [Some "Fetching problem "; p_contest self; Some "-"; p_problem self;
               Some " from Codechef..."] ;;
  print line ;;
  link <- cat [Some "https://codechef.com/api/contests/"; p_contest self;
               Some "/problems/"; p_problem self] ;;
  req <- get_html link ;;
  parsed <- codechef_parse_html self req ;;
  store_files (p_site self) (p_contest self) (p_problem self) parsed.1 parsed.2 None ;;
  print "Done.".

(** [Spoj.scrape_problem] (lines 800-810) *)
Definition spoj_scrape_problem (self : Platform) : M unit :=
  line <- cat [Some "Fetching problem "; p_problem self; Some " from SPOJ..."] ;;
  print line ;;
  link <- cat [Some "http://spoj.com/problems/"; p_problem self] ;;
  req <- get_html link ;;
  parsed <- spoj_parse_html self req ;;
  store_files (p_site self) (p_contest self) (p_problem self) parsed.1 parsed.2 None ;;
  print "Done.".

(** [Hackerrank.scrape_problem] (lines 922-933) *)
Definition hackerrank_scrape_problem (self : Platform) : M unit :=
  line <- cat [Some "Fetching problem "; p_contest self; Some "-"; p_problem self;
               Some " from Hackerrank..."] ;;
  print line ;;
  link <- cat [Some "https://www.hackerrank.com/rest/contests/"; p_contest self;
               Some "/challenges/"; p_problem self] ;;
  req <- get_html link ;;
  parsed <- hackerrank_parse_html self req ;;
  store_files (p_site self) (p_contest self) (p_problem self) parsed.1 parsed.2 None ;;
  print "Done.".

(** [platform.scrape_problem()] *)
Definition scrape_problem (self : Platform) : M unit :=
  match cls self with
  | Codeforces => codeforces_scrape_problem self
  | Codechef => codechef_scrape_problem self
  | Spoj => spoj_scrape_problem self
  | Hackerrank => hackerrank_scrape_problem self
  end.

(** The address of the contest page and the problem links found on it. *)
Definition contest_links (self : Platform) : M (list string) :=
  match cls self with
  | Codeforces =>
      contest <- need TypeError (p_contest self) ;;
      type <- codeforces_type contest ;;
      let link := codeforces_url +:+ "/" +:+ type +:+ "/" +:+ contest +:+ "?"
                  +:+ codeforces_locale in
      req <- get_html link ;;
      codeforces_get_problem_links self req
  | Codechef =>
      link <- cat [Some "https://codechef.com/"; p_contest self] ;;
      req <- get_html link ;;
      codechef_get_problem_links self req
  | Hackerrank =>
      link <- cat [Some "https://www.hackerrank.com/rest/contests/"; p_contest self;
                   Some "/challenges"] ;;
      req <- get_html link ;;
      hackerrank_get_problem_links self req
  | Spoj => raise AttributeError
  end.

(** [links = [link for link in links if link.split('/')[-1] not in cached_problems]]
    unless [self.force_download] *)
Definition uncached_links (self : Platform) (links : list string) : M (list string) :=
  if negb (force_download self) then
    p <- os_path_join cache_dir [p_site self; p_contest self] ;;
    cached_problems <- listdir p ;;
    ret (filter (λ link, Py.last_item (Py.split Py.slash link) ∉ cached_problems) links)
  else ret links.

(** The first part of [scrape_contest] (lines 586-598, 726-737 and
    939-950): the links to fetch. *)
Definition scrape_contest_links (self : Platform) : M (list string) :=
  line <- cat [Some "Checking problems available for contest "; p_contest self;
               Some "..."] ;;
  print line ;;
  links <- contest_links self ;;
  print ("Found " +:+ Py.str (length links) +:+ " problems..") ;;
  uncached_links self links.

(** The last part of [scrape_contest] (lines 600-602, 739-741 and
    952-954): the first wave and, when some requests failed, the second.
    The value of the second [handle_batch_requests] is dropped. *)
Definition scrape_contest_waves (self : Platform) (links : list string) : M unit :=
  first <- handle_batch_requests self links ;;
  let '(self, failed_requests) := first in
  if (0 <? length failed_requests)%nat
  then (handle_batch_requests self failed_requests ;; ret tt)
  else ret tt.

(** [scrape_contest] of the class of [self] (lines 582-602, 722-741 and
    935-954; class [Spoj] has no such method); it returns [None]. *)
Definition scrape_contest (self : Platform) : M unit :=
  match cls self with
  | Spoj => raise AttributeError
  | _ =>
      links <- scrape_contest_links self ;;
      scrape_contest_waves self links
  end.

(** [download_problem_testcases] (lines 239-252) *)
Definition download_problem_testcases (args : Args) : M unit :=
  platform <- get_platform args ;;
  is_in_cache <- check_cache (p_site platform) (p_contest platform) (p_problem platform) ;;
  if negb (a_force args) && is_in_cache
  then (print "Test cases found in cache..." ;; sys_exit 0)
  else scrape_problem platform.

(** [download_contest_testcases] (lines 254-263) *)
Definition download_contest_testcases (args : Args) : M unit :=
  platform <- get_platform args ;;
  check_cache (p_site platform) (p_contest platform) (p_problem platform) ;;
  scrape_contest platform.

(** ** Running a solution *)

(** [input_file_to_string] (lines 265-276) *)
Definition input_file_to_string (path : string) (num_cases : nat) : M (list string) :=
  for_each (λ inputs i,
              content <- read_file (path_join2 path (Py.str i)) ;;
              ret (inputs ++ [content])%list)
           [] (seq 0 num_cases).

(** [cleanup] (lines 278-288) *)
Definition cleanup (num_cases : nat) (basename extension : string) : M unit :=
  for_each (λ _ i,
              f <- isfile ("temp_output" +:+ Py.str i) ;;
              if f then remove ("temp_output" +:+ Py.str i) else ret tt)
           tt (seq 0 num_cases) ;;
  if String.eqb extension "java"
  then (system ("rm " +:+ basename +:+ "*.class") ;; ret tt)
  else ret tt.

(** [run_command_on_one_test] (lines 312-340): the normalised expected
    output, the normalised user output and the verdict text. *)
Definition run_command_on_one_test (testcases_path : string) (testcase_number : nat)
    (execute_command : string) : M (string * string * string) :=
  status <- system ("timeout 2s " +:+ execute_command +:+ " < "
                    +:+ path_join2 testcases_path (Py.str testcase_number)
                    +:+ " > temp_output" +:+ Py.str testcase_number) ;;
  let user_output := EmptyString in
  expected <- read_file (path_join2 testcases_path (Py.str testcase_number +:+ ".a")) ;;
  let expected_output := normalize expected in
  if (status =? 124)%Z then
    ret (expected_output, user_output, verdicts TLE)
  else if (status =? 0)%Z then
    produced <- read_file ("temp_output" +:+ Py.str testcase_number) ;;
    let user_output := normalize produced in
    if String.eqb expected_output user_output
    then ret (expected_output, user_output, verdicts AC)
    else ret (expected_output, user_output, verdicts WA)
  else
    ret (expected_output, user_output, verdicts RTE).

Definition supported_extensions : list string :=
  ["c"; "cpp"; "java"; "py"; "hs"; "rb"; "kt"].

(** The dictionary [compiler] for a [basename]. *)
Definition compiler_table (basename : string) : list (string * option string) :=
  [("hs", Some ("ghc --make -O -dynamic -o " +:+ basename));
   ("py", None);
   ("rb", None);
   ("c", Some ("gcc -static -DONLINE_JUDGE -fno-asm -lm -s -O2 -o " +:+ basename));
   ("cpp", Some ("clang++ -DONLINE_JUDGE -include /home/igorjan/206round/bits.h -O2 -std=c++17 -o "
                 +:+ basename));
   ("java", Some "javac -d .");
   ("kt", Some "kotlinc -d .")].

(** The dictionary [execute_command] for a [basename] and [extension]. *)
Definition execute_table (basename extension : string) : list (string * string) :=
  [("py", "python " +:+ basename +:+ "." +:+ extension);
   ("rb", "ruby " +:+ basename +:+ "." +:+ extension);
   ("hs", "./" +:+ basename);
   ("c", "./" +:+ basename);
   ("cpp", "./" +:+ basename);
   ("java", "java -DONLINE_JUDGE=true -Duser.language=en -Duser.region=US -Duser.variant=US "
            +:+ basename);
   ("kt", "kotlin -DONLINE_JUDGE=true -Duser.language=en -Duser.region=US -Duser.variant=US "
          +:+ basename +:+ "Kt")].

(** [d[key]] *)
Fixpoint dict_get {V} (d : list (string * V)) (key : string) : option V :=
  match d with
  | [] => None
  | (k, v) :: rest => if String.eqb k key then Some v else dict_get rest key
  end.

(** The three result lists of [run_solution], all of length [num_cases]. *)
Definition outcomes : Type := list string * list string * list string.

(** The loop of lines 396-397: case [i] is run and its three results are
    stored at index [i]. *)
Definition run_cases (testcases_path execute_command : string) (num_cases : nat)
    (init : outcomes) : M outcomes :=
  for_each (λ (acc : outcomes) i,
              let '(expected_outputs, user_outputs, results) := acc in
              r <- run_command_on_one_test testcases_path i execute_command ;;
              let '(e, u, v) := r in
              ret (<[i := e]> expected_outputs, <[i := u]> user_outputs, <[i := v]> results))
           init (seq 0 num_cases).

(** [prin((message))] on line 402: the name [prin] is bound nowhere in the
    module and is no builtin of Python, so the call raises [NameError]. *)
Definition prin (message : string) : M unit := raise NameError.

(** One row of the table (lines 417-424). *)
Definition report_row (inputs expected_outputs user_outputs results : list string)
    (i : nat) : row :=
  {| serial := i + 1;
     row_input := inputs !!! i;
     row_expected := expected_outputs !!! i;
     row_your := if existsb (λ sub, Py.contains sub (results !!! i)) ["AC"; "WA"]
                 then user_outputs !!! i else "N/A";
     row_result := results !!! i |}.

Definition table_header : list string :=
  ["Serial No"; "Input"; "Expected Output"; "Your Output"; "Result"].

(** The rows appended to [table_data] by the loop of lines 415-426. *)
Definition report_rows (inputs expected_outputs user_outputs results : list string)
    (num_cases : nat) : list row :=
  map (report_row inputs expected_outputs user_outputs results) (seq 0 num_cases).

(** The branch of [run_solution] taken when the case directory exists
    (lines 365-433). *)
Definition run_solution_cached (testcases_path problem_path basename extension : string)
    : M unit :=
  num_cases <- getTestCasesCount testcases_path ;;
  let init : outcomes :=
    (replicate num_cases EmptyString, replicate num_cases EmptyString,
     replicate num_cases EmptyString) in
  ran <- (if bool_decide (extension ∈ supported_extensions) then
            compiler <- need KeyError (dict_get (compiler_table basename) extension) ;;
            execute_command <-
              need KeyError (dict_get (execute_table basename extension) extension) ;;
            compile_status <-
              match compiler with
              | None => ret 0%Z
              | Some c => system (c +:+ " '" +:+ problem_path +:+ "." +:+ extension +:+ "'")
              end ;;
            if (compile_status =? 0)%Z then
              run_cases testcases_path execute_command num_cases init
            else
              let message := colors_BOLD +:+ colors_RED
                             +:+ "Compilation error. Not run against test cases"
                             +:+ colors_ENDC +:+ "." in
              (prin message ;; sys_exit 0)
          else
            (print "Supports only C, C++, Python, Java and Kotlin as of now." ;;
             sys_exit 0)) ;;
  let '(expected_outputs, user_outputs, results) := ran in
  inputs <- input_file_to_string testcases_path num_cases ;;
  emit (ETable table_header
          (report_rows inputs expected_outputs user_outputs results num_cases)) ;;
  cleanup num_cases basename extension.

(** The path [run_solution] looks the cases up at (lines 358-362). *)
Definition run_solution_path (site contest problem_code : option string) : option string :=
  let contest_code := if is_spoj site then Some EmptyString else contest in
  path_join cache_dir [site; contest_code; problem_code].

(** [run_solution] (lines 342-445).  The call re-enters itself after a
    download; [fuel] bounds the depth of that recursion, and running out
    of it is Python's recursion limit. *)
Fixpoint run_solution (fuel : nat) (args : Args) : M unit :=
  match fuel with
  | O => raise RuntimeError
  | S fuel' =>
      source <- need AttributeError (a_source args) ;;
      let extension := Py.last_item (Py.split "." source) in
      let problem := Py.first_item (Py.split "." source) in
      let basename := Py.last_item (Py.split Py.slash problem) in
      let problem_path := path_join2 (cwd E) problem in
      f <- isfile (problem_path +:+ "." +:+ extension) ;;
      if negb f then (print "ERROR : No such file" ;; sys_exit 0)
      else
        let problem_code := if Py.truthy (a_problem args) then a_problem args
                            else Some problem in
        testcases_path <- need AttributeError
          (run_solution_path (a_site args) (a_contest args) problem_code) ;;
        d <- isdir testcases_path ;;
        if d then run_solution_cached testcases_path problem_path basename extension
        else
          print "Test cases not found locally..." ;;
          let args := {| a_site := a_site args; a_contest := a_contest args;
                         a_problem := problem_code; a_force := true;
                         a_source := Some (problem +:+ "." +:+ extension) |} in
          download_problem_testcases args ;;
          print "Running your solution against sample cases..." ;;
          run_solution fuel' args
  end.

End Program.

(** ** Notions used to state the properties *)

(** A string is left-clean when it does not start with a blank. *)
Definition lclean (s : string) : Prop :=
  match s with
  | String c _ => Py.isspace c = false
  | EmptyString => True
  end.

(** The content of the regular file at [p], empty when there is none. *)
Definition file_content (m : gmap string node) (p : string) : string :=
  match m !! p with
  | Some (File c) => c
  | _ => EmptyString
  end.

(** The verdict as the specification words it: from the exit status and
    the two normalised outputs. *)
Definition spec_verdict (status : Z) (expected user : string) : verdict :=
  if (status =? 124)%Z then TLE
  else if (status =? 0)%Z then (if String.eqb expected user then AC else WA)
  else RTE.

(** The command line [run_command_on_one_test] hands to the shell. *)
Definition case_command (testcases_path : string) (testcase_number : nat)
    (execute_command : string) : string :=
  "timeout 2s " +:+ execute_command +:+ " < "
  +:+ path_join2 testcases_path (Py.str testcase_number)
  +:+ " > temp_output" +:+ Py.str testcase_number.

(** The entries of directory [p] whose name ends in [.a], as
    [getTestCasesCount] finds them. *)
Definition dir_outputs (m : gmap string node) (p : string) : list string :=
  filter (λ f, Py.endswith ".a" f = true) (omap (entry_name p) (map_to_list m).*1).

(** Directory [p] holds the cases [0 .. n-1]: it exists, its entries
    ending in [.a] are the [n] output files, no input file has an index
    from [n] on, and [statement.txt] is no directory. *)
Definition holds_cases (m : gmap string node) (p : string) (n : nat) : Prop :=
  m !! p = Some Dir
  ∧ dir_outputs m p ≡ₚ map output_name (seq 0 n)
  ∧ (∀ i, (n ≤ i)%nat → m !! path_join2 p (input_name i) = None)
  ∧ m !! path_join2 p "statement.txt" ≠ Some Dir.

(** The files [name n], [name (n+1)], ... of directory [p] hold [items]. *)
Definition stored (m : gmap string node) (p : string) (name : nat → string)
    (n : nat) (items : list string) : Prop :=
  ∀ j x, items !! j = Some x → m !! path_join2 p (name (n + j)) = Some (File x).

(** The map left by [write_cases]. *)
Fixpoint put_cases (path : string) (name : nat → string) (num_cases i : nat)
    (items : list string) (m : gmap string node) : gmap string node :=
  match items with
  | [] => m
  | x :: rest =>
      put_cases path name num_cases (S i) rest
        (<[path_join2 path (name (i + num_cases)) := File x]> m)
  end.

(** The map left by the last step of [store_files]. *)
Definition put_statement (path : string) (statement : option string)
    (m : gmap string node) : gmap string node :=
  if Py.truthy statement
  then <[path_join2 path "statement.txt" := File (default EmptyString statement)]> m
  else m.

(** The map left by a call of [store_files] on directory [path] that
    counted [num_cases] cases. *)
Definition stored_files (path : string) (num_cases : nat)
    (inputs outputs : list string) (statement : option string)
    (m : gmap string node) : gmap string node :=
  put_statement path statement
    (put_cases path output_name num_cases 0 outputs
       (put_cases path input_name num_cases 0 inputs m)).

(** A name made of decimal digits. *)
Fixpoint all_digits (s : string) : bool :=
  match s with
  | EmptyString => true
  | String c s' => bool_decide (is_Some (Ascii.is_nat c)) && all_digits s'
  end.

(** A name that can be joined to a directory as one entry. *)
Definition entry_like (name : string) : Prop :=
  name ≠ EmptyString ∧ Py.has_char Py.slash name = false.

(** The link lists of the batch requests sent, in order. *)
Definition batches (evs : list event) : list (list string) :=
  omap (λ e, match e with EBatch links => Some links | _ => None end) evs.

(** A computation is batch-free when it sends no batch request. *)
Definition batch_free {A} (m : M A) : Prop :=
  ∀ w r w', m w = (r, w') → batches (log w') = batches (log w).

(** The addresses of the responses of a wave that count as failed. *)
Definition failed_urls (responses : list (option Response)) : list string :=
  omap (λ o, match o with
             | Some r => if (status_code r =? 200)%Z then None else Some (url r)
             | None => None
             end) responses.

(** What the specification asks of the retry: every link that still fails
    in the second wave is reported to the caller.  [scrape_contest]
    returns [None], so what it prints is all the caller is told. *)
Definition surfaces_unresolved (E : Env) (self : Platform) (links : list string)
    (w : World) : Prop :=
  ∀ self1 failed w1 self2 still w2,
    handle_batch_requests E self links w = (Ok (self1, failed), w1) →
    handle_batch_requests E self1 failed w1 = (Ok (self2, still), w2) →
    ∀ link, link ∈ still →
      ∃ line, EPrint line ∈ log (scrape_contest_waves E self links w).2
              ∧ Py.contains link line = true.

(** ** A concrete machine, for the examples

    One Codeforces problem, [1/A], is cached with the case [3\n1 2 3] and
    the answer [6]; the solution [sol.cpp] lies in the working directory.
    The compiler exits with [compile_status]; a run of the solution exits
    with [run_status] and leaves [produced] in its output file.  No
    network answers. *)

Definition demo_dir : string := "/home/u/.cache/ACedIt/codeforces/1/A".

Definition demo_files : gmap string node :=
  <["/work/sol.cpp" := File "int main(){}"]>
  (<[demo_dir +:+ "/0.a" := File "6"]>
  (<[demo_dir +:+ "/0" := File ("3" +:+ String Py.nl "1 2 3")]>
  (<[demo_dir := Dir]> ∅))).

Definition demo_world : World := {| fs := demo_files; log := [] |}.

Definition demo_system (compile_status run_status : Z) (produced : string)
    (cmd : string) (w : World) : Z * gmap string node :=
  if Py.startswith "timeout 2s " cmd
  then (run_status, <["temp_output0" := File produced]> (fs w))
  else (compile_status, fs w).

Definition demo_env (compile_status run_status : Z) (produced : string) : Env :=
  {| home := "/home/u";
     cwd := "/work";
     os_system := demo_system compile_status run_status produced;
     rq_get := λ _ _, None;
     grq_map := λ links _, map (λ _, None) links;
     codeforces_blocks := λ _, ([], [], []);
     codechef_blocks := λ _, None;
     spoj_blocks := λ _, [];
     hackerrank_blocks := λ _, None;
     codeforces_hrefs := λ _, None;
     codechef_hrefs := λ _, None;
     hackerrank_slugs := λ _, None |}.

Definition demo_args : Args :=
  {| a_site := Some "codeforces"; a_contest := Some "1"; a_problem := Some "A";
     a_force := false; a_source := Some "sol.cpp" |}.

(** A second machine, with a network: the contest page of Codeforces
    contest [1] lists the problems [A] and [B]; the page of [A] is
    fetched with status 200 and holds one case, the page of [B] answers
    with status 500 every time. *)

Definition retry_response (link : string) : Response :=
  {| url := link;
     status_code := if Py.endswith "A?locale=ru" link then 200%Z else 500%Z;
     text := EmptyString |}.

Definition retry_env : Env :=
  {| home := "/home/u";
     cwd := "/work";
     os_system := λ _ w, (0%Z, fs w);
     rq_get := λ link _, Some {| url := link; status_code := 200; text := EmptyString |};
     grq_map := λ links _, map (λ link, Some (retry_response link)) links;
     codeforces_blocks := λ _, (["1 2"], ["3"], ["Add two numbers."]);
     codechef_blocks := λ _, None;
     spoj_blocks := λ _, [];
     hackerrank_blocks := λ _, None;
     codeforces_hrefs := λ _, Some ["/contest/1/problem/A"; "/contest/1/problem/B"];
     codechef_hrefs := λ _, None;
     hackerrank_slugs := λ _, None |}.

Definition retry_self : Platform :=
  {| cls := Codeforces; p_site := Some "codeforces"; p_contest := Some "1";
     p_problem := None; force_download := false |}.

Definition retry_world : World :=
  {| fs := <["/home/u/.cache/ACedIt/codeforces/1" := Dir]> ∅; log := [] |}.

Definition link_A : string := "https://codeforces.com/contest/1/problem/A?locale=ru".
Definition link_B : string := "https://codeforces.com/contest/1/problem/B?locale=ru".

(** A freshly created case directory, as [check_cache] leaves it on a
    miss. *)
Definition fresh_world : World := {| fs := {[demo_dir := Dir]}; log := [] |}.

(** * More of [util.py] *)

(** ** Adding a test by hand *)

(** The standard input is the list of the lines still to be read;
    [raw_input()] takes the first one and raises [EOFError] when none is
    left.  A function that reads returns the lines it left. *)

(** The loop of [get_long_input] (lines 180-189): the lines collected and
    the input left. *)
Fixpoint get_long_input_loop (lines stdin : list string) : list string * list string :=
  match stdin with
  | [] => (lines ++ [EmptyString], [])
  | line :: rest =>
      if String.eqb line EmptyString && (0 <? length lines)
         && String.eqb (Py.last_item lines) EmptyString
      then (lines, rest)
      else get_long_input_loop (lines ++ [line]) rest
  end.

(** [get_long_input] (lines 177-190) *)
Definition get_long_input (message : string) (stdin : list string)
    : M (string * list string) :=
  print message ;;
  let '(lines, rest) := get_long_input_loop [] stdin in
  ret (Py.join (String Py.nl EmptyString) lines, rest).

(** ['%s' % x]: [None] is shown as [None]. *)
Definition percent_s (x : option string) : string := default "None" x.

(** [add_test] (lines 192-199) *)
Definition add_test (E : Env) (args : Args) (stdin : list string) : M (list string) :=
  print ("Adding new test to " +:+ percent_s (a_site args)
         +:+ " (contest: " +:+ percent_s (a_contest args)
         +:+ ", problem: " +:+ percent_s (a_problem args) +:+ ")") ;;
  i <- get_long_input "Specify input (^D or two consecutive empty lines to stop):" stdin ;;
  o <- get_long_input "Specify output (^D or two consecutive empty lines to stop):" i.2 ;;
  let inputs := [i.1] in
  let outputs := [o.1] in
  is_in_cache <- check_cache E (a_site args) (a_contest args) (a_problem args) ;;
  store_files E (a_site args) (a_contest args) (a_problem args) inputs outputs None ;;
  print "Test is successfully added" ;;
  ret o.2.

(** ** Clearing the cache *)

(** Path [k] lies below directory [p]. *)
Definition below (p k : string) : bool :=
  match strip_prefix (dir_prefix p) k with
  | Some _ => true
  | None => false
  end.

(** [shutil.rmtree(p)]: removes the directory [p] and all that lies below
    it; fails when [p] is no directory. *)
Definition rmtree (p : string) : M unit := λ w,
  match fs w !! p with
  | Some Dir =>
      (Ok tt,
       {| fs := filter (λ kv, (String.eqb kv.1 p || below p kv.1) = false) (fs w);
          log := log w |})
  | _ => (Raise OSError, w)
  end.

(** [clear_cache] (lines 159-175) once [raw_input] has returned the line
    [confirm]; the question [raw_input] writes is no [print] statement and
    is not logged.  The bare [except] has nothing but exceptions to catch
    here, and its [return] skips the rest. *)
Definition clear_cache (E : Env) (site : option string) (confirm : string) : M unit :=
  if String.eqb confirm "y" then
    removed <- try_except
                 (p <- os_path_join (cache_dir E) [site] ;;
                  rmtree p ;;
                  ret true)
                 (print "Some error occured. Try again." ;; ret false) ;;
    if (removed : bool) then
      p <- os_path_join (cache_dir E) [site] ;;
      makedirs p ;;
      print "Done."
    else ret tt
  else ret tt.

(** ** Names used by [run_solution] and the platform classes *)

(** The names [run_solution] derives from [args['source']] and
    [args['problem']] (lines 347-358), and the arguments of its second
    pass (lines 438-440). *)
Definition source_extension (source : string) : string :=
  Py.last_item (Py.split "." source).

Definition source_problem (source : string) : string :=
  Py.first_item (Py.split "." source).

Definition problem_code (args : Args) (source : string) : option string :=
  if Py.truthy (a_problem args) then a_problem args else Some (source_problem source).

Definition second_pass (args : Args) (source : string) : Args :=
  {| a_site := a_site args; a_contest := a_contest args;
     a_problem := problem_code args source; a_force := true;
     a_source := Some (source_problem source +:+ "." +:+ source_extension source) |}.

(** What the constructor of the class of [site] makes of a problem code
    (lines 475, 612, 752 and 821-822). *)
Definition platform_problem (site : option string) (code : string) : string :=
  if bool_decide (site = Some "codeforces") then code
  else if bool_decide (site = Some "codechef") then code
  else if bool_decide (site = Some "spoj") then Py.upper code
  else Py.lower (Py.join "-" (Py.split_ws code)).

(** The file the run of case [i] writes its output to. *)
Definition temp_output (i : nat) : string := "temp_output" +:+ Py.str i.

(** [args] with another value of [force]. *)
Definition with_force (args : Args) (force : bool) : Args :=
  {| a_site := a_site args; a_contest := a_contest args; a_problem := a_problem args;
     a_force := force; a_source := a_source args |}.

(** ** Notions used to state further properties *)

(** A computation keeps what exists when every directory is still a
    directory afterwards, every path that existed still exists, and it
    leaves through [sys.exit] with status 0 only. *)
Definition keeps_paths {A} (m : M A) : Prop :=
  ∀ w r w', m w = (r, w') →
    (∀ q, fs w !! q = Some Dir → fs w' !! q = Some Dir)
    ∧ (∀ q, is_Some (fs w !! q) → is_Some (fs w' !! q))
    ∧ (∀ c, r = Exit c → c = 0%Z).

(** A computation does not overflow when it never ends in Python's
    recursion-limit error. *)
Definition no_overflow {A} (m : M A) : Prop :=
  ∀ w w', m w ≠ (Raise RuntimeError, w').

(** A computation stays within [R] and [X]: the world it leaves is related
    by [R] to the one it started in, and it raises only exceptions of
    [X]. *)
Definition within (R : World → World → Prop) (X : exn → Prop) {A} (m : M A) : Prop :=
  ∀ w r w', m w = (r, w') → R w w' ∧ ∀ e, r = Raise e → X e.

(** From [w] to [w'] no directory appears at [p] and no shell command is
    run. *)
Definition leaves_missing (p : string) (w w' : World) : Prop :=
  (is_dir (fs w) p = false → is_dir (fs w') p = false)
  ∧ ∀ cmd, ESystem cmd ∈ log w' → ESystem cmd ∈ log w.

(** From [w] to [w'] no file or directory changes. *)
Definition same_files (w w' : World) : Prop := fs w' = fs w.

(** The names [os.listdir(p)] returns. *)
Definition dir_entries (m : gmap string node) (p : string) : list string :=
  omap (entry_name p) (map_to_list m).*1.

(** Two empty lines in a row. *)
Fixpoint blank_pair (lines : list string) : bool :=
  match lines with
  | a :: (b :: _) as rest =>
      (String.eqb a EmptyString && String.eqb b EmptyString) || blank_pair rest
  | _ => false
  end.

(** The lines without the empty ones at the beginning; the last line
    stays, empty or not. *)
Fixpoint drop_blank_head (ls : list string) : list string :=
  match ls with
  | x :: (_ :: _) as rest => if String.eqb x EmptyString then drop_blank_head rest else ls
  | _ => ls
  end.

(** The lines without the empty ones at the end; the first line stays,
    empty or not. *)
Fixpoint drop_blank_tail (ls : list string) : list string :=
  match ls with
  | [] => []
  | x :: rest =>
      if forallb (λ l, String.eqb l EmptyString) rest then [x]
      else x :: drop_blank_tail rest
  end.

(** The lines of [s.rstrip()] from the lines of [s]: the lines of blanks
    at the end go, and the line before them loses the blanks at its end. *)
Fixpoint rstrip_lines (ls : list string) : list string :=
  match ls with
  | [] => []
  | x :: rest =>
      if forallb (λ l, String.eqb (Py.rstrip l) EmptyString) rest then [Py.rstrip x]
      else x :: rstrip_lines rest
  end.

(** ** The value of [os.system] and the cases of a run *)

(** On POSIX [os.system] returns the wait status of the shell: for a
    command that ends with exit code [exit_code], that code shifted left
    by eight bits. *)
Definition wait_status (exit_code : Z) : Z := Z.shiftl exit_code 8.







(** ** Requests and parsed pages *)

(** The world after [j] requests for [link]. *)
Definition requested (link : string) (j : nat) (w : World) : World :=
  {| fs := fs w; log := log w ++ replicate j (EGet link) |}.

(** What [parse_html] of the class of [self] returns for a problem page:
    the inputs, the outputs and, for Codeforces, the statement. *)
Definition parse_problem (E : Env) (self : Platform) (req : Response)
    : M (list string * list string * option string) :=
  match cls self with
  | Codeforces =>
      parsed <- codeforces_parse_html E self req ;;
      let '(inputs, outputs, text) := parsed in
      ret (inputs, outputs, Some text)
  | Codechef =>
      parsed <- codechef_parse_html E self req ;;
      ret (parsed.1, parsed.2, None)
  | Spoj =>
      parsed <- spoj_parse_html E self req ;;
      ret (parsed.1, parsed.2, None)
  | Hackerrank =>
      parsed <- hackerrank_parse_html E self req ;;
      ret (parsed.1, parsed.2, None)
  end.

(** ** Further machines *)

(** A machine with a network and a solution but an empty cache. *)
Definition miss_world : World :=
  {| fs := <["/work/sol.cpp" := File "int main(){}"]> ∅; log := [] |}.

(** A machine on which every page is fetched and every Spoj page holds
    one case. *)
Definition spoj_env : Env :=
  {| home := "/home/u";
     cwd := "/work";
     os_system := λ _ w, (0%Z, fs w);
     rq_get := λ link _, Some {| url := link; status_code := 200; text := EmptyString |};
     grq_map := λ links _, map (λ _, None) links;
     codeforces_blocks := λ _, ([], [], []);
     codechef_blocks := λ _, None;
     spoj_blocks := λ _, [("1 2", "3")];
     hackerrank_blocks := λ _, None;
     codeforces_hrefs := λ _, None;
     codechef_hrefs := λ _, None;
     hackerrank_slugs := λ _, None |}.

Definition spoj_args : Args :=
  {| a_site := Some "spoj"; a_contest := None; a_problem := Some "test";
     a_force := false; a_source := Some "sol.cpp" |}.

Definition spoj_upper_args : Args :=
  {| a_site := Some "spoj"; a_contest := None; a_problem := Some "TEST";
     a_force := false; a_source := Some "sol.cpp" |}.

(** A cache that holds problem [A] of Codeforces contest [1]. *)
Definition cached_world : World :=
  {| fs := <[demo_dir := Dir]> (<["/home/u/.cache/ACedIt/codeforces/1" := Dir]> ∅);
     log := [] |}.

(** The cache after problem [A] of Codeforces contest [1] has been
    downloaded on the machine with a network. *)
Definition stocked_world : World :=
  (download_problem_testcases retry_env demo_args miss_world).2.

(** ** Facts about the string primitives *)
Section StringFacts.

Lemma app_cons (c : ascii) (a b : string) : String c a +:+ b = String c (a +:+ b).
Proof. reflexivity. Qed.

Lemma app_empty_l (b : string) : EmptyString +:+ b = b.
Proof. reflexivity. Qed.

Lemma app_empty_r (a : string) : a +:+ EmptyString = a.
Proof. induction a as [|c a IH]; [done|]. by rewrite app_cons, IH. Qed.

Lemma app_assoc_s (a b c : string) : (a +:+ b) +:+ c = a +:+ (b +:+ c).
Proof. induction a as [|x a IH]; [done|]. by rewrite !app_cons, IH. Qed.

Lemma lstrip_lclean s : lclean (Py.lstrip s).
Proof.
  induction s as [|c s IH]; simpl; [done|].
  destruct (Py.isspace c) eqn:Hc; [done|]. exact Hc.
Qed.

Lemma lstrip_fixed s : lclean s → Py.lstrip s = s.
Proof. destruct s as [|c s]; simpl; [done|]. by intros ->. Qed.

Lemma rstrip_cons c s :
  Py.rstrip (String c s) =
    if Py.isspace c && bool_decide (Py.rstrip s = EmptyString)
    then EmptyString else String c (Py.rstrip s).
Proof.
  simpl. destruct (Py.rstrip s) eqn:Hr.
  - rewrite bool_decide_eq_true_2 by done. by destruct (Py.isspace c).
  - rewrite bool_decide_eq_false_2 by done. by rewrite andb_false_r.
Qed.

Lemma rstrip_idem s : Py.rstrip (Py.rstrip s) = Py.rstrip s.
Proof.
  induction s as [|c s IH]; [done|].
  rewrite rstrip_cons.
  destruct (Py.isspace c && bool_decide (Py.rstrip s = EmptyString)) eqn:Hb; [done|].
  by rewrite rstrip_cons, IH, Hb.
Qed.

Lemma rstrip_lclean s : lclean s → lclean (Py.rstrip s).
Proof.
  destruct s as [|c s]; [done|]. intros Hc. simpl in Hc.
  rewrite rstrip_cons, Hc. simpl. exact Hc.
Qed.

Lemma strip_lclean s : lclean (Py.strip s).
Proof. apply rstrip_lclean, lstrip_lclean. Qed.

Lemma strip_rfixed s : Py.rstrip (Py.strip s) = Py.strip s.
Proof. apply rstrip_idem. Qed.

Lemma strip_fixed s : lclean s → Py.rstrip s = s → Py.strip s = s.
Proof. intros Hl Hr. unfold Py.strip. by rewrite (lstrip_fixed s Hl). Qed.

Lemma strip_idem s : Py.strip (Py.strip s) = Py.strip s.
Proof. apply strip_fixed; [apply strip_lclean | apply strip_rfixed]. Qed.

Lemma rstrip_fixed_tail c s : Py.rstrip (String c s) = String c s → Py.rstrip s = s.
Proof.
  rewrite rstrip_cons.
  destruct (Py.isspace c && bool_decide (Py.rstrip s = EmptyString)); [done|].
  by intros [= ->].
Qed.

Lemma lstrip_rfixed s : Py.rstrip s = s → Py.rstrip (Py.lstrip s) = Py.lstrip s.
Proof.
  induction s as [|c s IH]; [done|]. intros Hr. simpl.
  destruct (Py.isspace c); [|exact Hr].
  apply IH. by eapply rstrip_fixed_tail.
Qed.

Lemma lstrip_empty_rstrip s : Py.lstrip s = EmptyString → Py.rstrip s = EmptyString.
Proof.
  induction s as [|c s IH]; [done|]. simpl.
  destruct (Py.isspace c) eqn:Hc; [|done].
  intros H. by rewrite (IH H).
Qed.

Lemma rstrip_app a b :
  Py.rstrip b = b → b ≠ EmptyString → Py.rstrip (a +:+ b) = a +:+ b.
Proof.
  intros Hb Hne. induction a as [|c a IH]; [exact Hb|].
  rewrite app_cons, rstrip_cons, IH.
  rewrite bool_decide_eq_false_2; [by rewrite andb_false_r|].
  destruct a; [exact Hne | done].
Qed.

(** Characters never appear by stripping. *)
Lemma has_char_lstrip c s : Py.has_char c s = false → Py.has_char c (Py.lstrip s) = false.
Proof.
  induction s as [|a s IH]; [done|]. simpl.
  destruct (Py.isspace a); [|done].
  intros [_ H]%orb_false_iff. by apply IH.
Qed.

Lemma has_char_rstrip c s : Py.has_char c s = false → Py.has_char c (Py.rstrip s) = false.
Proof.
  induction s as [|a s IH]; [done|].
  intros [Ha H]%orb_false_iff. rewrite rstrip_cons.
  destruct (Py.isspace a && _); [done|]. simpl. by rewrite Ha, IH.
Qed.

Lemma has_char_strip c s : Py.has_char c s = false → Py.has_char c (Py.strip s) = false.
Proof. intros H. by apply has_char_rstrip, has_char_lstrip. Qed.

(** [split] and [join] *)
Lemma split_nonempty sep s : Py.split sep s ≠ [].
Proof.
  destruct s as [|c s]; simpl; [done|].
  destruct (Ascii.eqb c sep); [done|]. by destruct (Py.split sep s).
Qed.

Lemma split_lines_nosep sep s : Forall (λ l, Py.has_char sep l = false) (Py.split sep s).
Proof.
  induction s as [|c s IH]; simpl; [by repeat constructor|].
  destruct (Ascii.eqb c sep) eqn:Hc; [by constructor|].
  destruct (Py.split sep s) as [|l ls]; [|inversion_clear IH as [|?? Hl Hls]];
    constructor; simpl; rewrite ?Hc; auto.
Qed.

Lemma split_nosep sep l : Py.has_char sep l = false → Py.split sep l = [l].
Proof.
  induction l as [|c l IH]; [done|]. simpl.
  intros [Hc Hl]%orb_false_iff. by rewrite Hc, (IH Hl).
Qed.

Lemma split_app_sep sep l r :
  Py.has_char sep l = false →
  Py.split sep (l +:+ String sep r) = l :: Py.split sep r.
Proof.
  induction l as [|c l IH]; intros Hl.
  - rewrite app_empty_l. simpl. by rewrite Ascii.eqb_refl.
  - simpl in Hl. apply orb_false_iff in Hl as [Hc Hl].
    rewrite app_cons. simpl. by rewrite Hc, (IH Hl).
Qed.

Lemma split_join sep ls :
  ls ≠ [] → Forall (λ l, Py.has_char sep l = false) ls →
  Py.split sep (Py.join (String sep EmptyString) ls) = ls.
Proof.
  induction ls as [|x [|y ls] IH]; [done| |]; intros _ Hall.
  - simpl. apply split_nosep. by inversion Hall.
  - inversion_clear Hall as [|?? Hx Hrest].
    change (Py.join (String sep EmptyString) (x :: y :: ls))
      with (x +:+ String sep EmptyString +:+ Py.join (String sep EmptyString) (y :: ls)).
    rewrite app_cons, app_empty_l, (split_app_sep _ _ _ Hx).
    by rewrite IH.
Qed.

Lemma join_cons2 sep x y ls :
  Py.join sep (x :: y :: ls) = x +:+ sep +:+ Py.join sep (y :: ls).
Proof. reflexivity. Qed.

(** The last line of a right-clean, non-empty text is right-clean and
    non-empty. *)
Lemma split_last_rfixed s :
  Py.rstrip s = s → s ≠ EmptyString →
  ∃ l, last (Py.split Py.nl s) = Some l ∧ Py.rstrip l = l ∧ l ≠ EmptyString.
Proof.
  induction s as [|c s IH]; [done|]. intros Hr _.
  pose proof (rstrip_fixed_tail _ _ Hr) as Hs.
  simpl. destruct (Ascii.eqb c Py.nl) eqn:Hc.
  - apply Ascii.eqb_eq in Hc as ->.
    assert (s ≠ EmptyString) as Hne.
    { intros ->. discriminate Hr. }
    destruct (IH Hs Hne) as (l & Hl & ? & ?).
    exists l. split; [|done].
    destruct (Py.split Py.nl s) as [|l0 ls] eqn:Hsp; [done|].
    by rewrite last_cons, Hl.
  - destruct s as [|c' s'].
    + exists (String c EmptyString). split; [done|]. split; [exact Hr|done].
    + destruct (IH Hs) as (l & Hl & Hlr & Hlne); [done|].
      destruct (Py.split Py.nl (String c' s')) as [|l0 [|l1 ls]] eqn:Hsp; [done| |].
      * simpl in Hl. injection Hl as ->.
        exists (String c l). repeat split; [|done].
        rewrite rstrip_cons, Hlr. rewrite bool_decide_eq_false_2 by done.
        by rewrite andb_false_r.
      * exists l. split; [|done]. rewrite last_cons_cons in Hl |- *.
        exact Hl.
Qed.

Lemma join_nonempty_last sep ls l :
  last ls = Some l → l ≠ EmptyString → Py.join sep ls ≠ EmptyString.
Proof.
  destruct ls as [|x [|y ls]]; [done| |].
  - simpl. by intros [= ->].
  - intros Hl Hne. rewrite join_cons2.
    destruct x as [|c x]; [|done]. rewrite app_empty_l.
    destruct sep as [|c sep]; [|done]. rewrite app_empty_l.
    revert y Hl. induction ls as [|z ls IH]; intros y Hl.
    + simpl in *. by injection Hl as ->.
    + rewrite join_cons2. destruct y; [|done]. rewrite !app_empty_l.
      apply IH. by rewrite last_cons_cons in Hl.
Qed.

Lemma rstrip_join ls :
  Forall (λ l, Py.rstrip l = l) ls →
  (∃ x, ls = [x]) ∨ (∃ l, last ls = Some l ∧ l ≠ EmptyString) →
  Py.rstrip (Py.join (String Py.nl EmptyString) ls) = Py.join (String Py.nl EmptyString) ls.
Proof.
  induction ls as [|x [|y ls] IH]; intros Hall Hlast.
  - done.
  - simpl. by inversion Hall.
  - destruct Hlast as [[z [=]]|(l & Hl & Hne)].
    rewrite last_cons_cons in Hl.
    inversion_clear Hall as [|?? Hx Hrest].
    rewrite join_cons2, app_cons, app_empty_l.
    apply rstrip_app; [|done].
    rewrite rstrip_cons, IH; [|done|right; eauto].
    rewrite bool_decide_eq_false_2; [by rewrite andb_false_r|].
    by eapply join_nonempty_last.
Qed.

Lemma endswith_refl (p : string) : Py.endswith p p = true.
Proof.
  destruct p as [|a p]; [done|]. cbn [Py.endswith]. by rewrite String.eqb_refl.
Qed.

Lemma endswith_app (p y : string) : Py.endswith p (y +:+ p) = true.
Proof.
  induction y as [|c y IH]; [apply endswith_refl|].
  rewrite app_cons. cbn [Py.endswith]. rewrite IH. apply orb_true_r.
Qed.

Lemma length_app_s (a b : string) :
  String.length (a +:+ b) = String.length a + String.length b.
Proof. induction a as [|c a IH]; [done|]. rewrite app_cons. simpl. by rewrite IH. Qed.

Lemma app_inj_r (a b c : string) : a +:+ c = b +:+ c → a = b.
Proof.
  revert b. induction a as [|x a IH]; intros [|y b] H.
  - done.
  - apply (f_equal String.length) in H. rewrite app_empty_l, length_app_s in H.
    simpl in H. lia.
  - apply (f_equal String.length) in H. rewrite app_empty_l, length_app_s in H.
    simpl in H. lia.
  - rewrite !app_cons in H. injection H as -> H. f_equal. by apply IH.
Qed.

Lemma has_char_app c a b :
  Py.has_char c (a +:+ b) = Py.has_char c a || Py.has_char c b.
Proof.
  induction a as [|x a IH]; [done|]. rewrite app_cons. simpl.
  by rewrite IH, orb_assoc.
Qed.

End StringFacts.

(** ** Normalisation *)

Lemma normalize_strip_fixed s : Py.strip (normalize s) = normalize s.
Proof.
  unfold normalize.
  set (u := Py.strip s).
  assert (lclean u) as Hul by apply strip_lclean.
  assert (Py.rstrip u = u) as Hur by apply strip_rfixed.
  clearbody u.
  apply strip_fixed.
  - (* the first line starts with the first character of [u] *)
    destruct u as [|c u]; [done|]. simpl in Hul.
    simpl. assert (Ascii.eqb c Py.nl = false) as ->.
    { apply Ascii.eqb_neq. intros ->. discriminate Hul. }
    assert (∀ l, ∃ r, Py.strip (String c l) = String c r) as Hhead.
    { intros l. unfold Py.strip. simpl. rewrite Hul, rstrip_cons, Hul. eauto. }
    destruct (Py.split Py.nl u) as [|l [|l' ls]]; simpl.
    + destruct (Hhead EmptyString) as [r ->]. exact Hul.
    + destruct (Hhead l) as [r ->]. exact Hul.
    + destruct (Hhead l) as [r ->]. exact Hul.
  - apply rstrip_join.
    + apply Forall_fmap, Forall_true. intros l. apply strip_rfixed.
    + destruct (decide (u = EmptyString)) as [->|Hne]; [left; by eexists|].
      right. destruct (split_last_rfixed u Hur Hne) as (l & Hl & Hlr & Hlne).
      exists (Py.strip l). rewrite fmap_last, Hl. split; [done|].
      unfold Py.strip. rewrite (lstrip_rfixed l Hlr).
      intros Hempty. apply lstrip_empty_rstrip in Hempty. congruence.
Qed.

(** C6: normalising an already-normalised output yields the same string. *)
Theorem normalize_idempotent (s : string) : normalize (normalize s) = normalize s.
Proof.
  rewrite <- (normalize_strip_fixed s) at 2.
  unfold normalize at 1. rewrite normalize_strip_fixed.
  unfold normalize at 1.
  rewrite split_join.
  - rewrite <- list_fmap_compose.
    unfold normalize. f_equal. apply list_fmap_ext. intros _ l _. simpl.
    by rewrite strip_idem.
  - intros H. apply fmap_nil_inv in H. by apply split_nonempty in H.
  - apply Forall_fmap. eapply Forall_impl; [apply split_lines_nosep|].
    intros l Hl. by apply has_char_strip.
Qed.

(** ** The monad *)

Lemma bind_ok {A B} (m : M A) (k : A → M B) w a w' :
  m w = (Ok a, w') → bind m k w = k a w'.
Proof. unfold bind. by intros ->. Qed.

Lemma bind_exit {A B} (m : M A) (k : A → M B) w c w' :
  m w = (Exit c, w') → bind m k w = (Exit c, w').
Proof. unfold bind. by intros ->. Qed.

Lemma bind_raise {A B} (m : M A) (k : A → M B) w e w' :
  m w = (Raise e, w') → bind m k w = (Raise e, w').
Proof. unfold bind. by intros ->. Qed.

(** A computation that returns comes from a first part that returned. *)
Lemma bind_inv_ok {A B} (m : M A) (k : A → M B) w b w' :
  bind m k w = (Ok b, w') → ∃ a w1, m w = (Ok a, w1) ∧ k a w1 = (Ok b, w').
Proof.
  unfold bind. destruct (m w) as [[a|c|e] w1]; [eauto|done..].
Qed.

Lemma for_each_app {A S} (body : S → A → M S) (s : S) (l1 l2 : list A) w :
  for_each body s (l1 ++ l2) w =
    bind (for_each body s l1) (λ s', for_each body s' l2) w.
Proof.
  revert s w. induction l1 as [|x l1 IH]; intros s w; simpl; [done|].
  unfold bind. destruct (body s x w) as [[s'|c|e] w1]; [|done..].
  by rewrite IH.
Qed.

(** ** The verdict of one case *)

Lemma verdicts_inj (v1 v2 : verdict) : verdicts v1 = verdicts v2 → v1 = v2.
Proof. by destruct v1, v2. Qed.

Section Verdict.
Context (E : Env).

(** The verdict of a case is [spec_verdict] of the value [os.system]
    returned and the two normalised outputs: the value 124 gives TLE
    whatever the outputs, 0 gives AC on equal and WA on unequal normalised
    outputs, and any other value gives RTE. *)
Lemma run_command_on_one_test_verdict
    (testcases_path : string) (testcase_number : nat) (execute_command : string)
    (w : World) :
  let cmd := case_command testcases_path testcase_number execute_command in
  let status := (os_system E cmd w).1 in
  let files := (os_system E cmd w).2 in
  let expected :=
    normalize (file_content files
                 (path_join2 testcases_path (Py.str testcase_number +:+ ".a"))) in
  let user :=
    if (status =? 0)%Z
    then normalize (file_content files ("temp_output" +:+ Py.str testcase_number))
    else EmptyString in
  is_file files (path_join2 testcases_path (Py.str testcase_number +:+ ".a")) = true →
  (status = 0%Z → is_file files ("temp_output" +:+ Py.str testcase_number) = true) →
  run_command_on_one_test E testcases_path testcase_number execute_command w
    = (Ok (expected, user, verdicts (spec_verdict status expected user)),
       {| fs := files; log := log w ++ [ESystem cmd] |})
  ∧ (status = 124%Z → spec_verdict status expected user = TLE)
  ∧ (status = 0%Z → expected = user → spec_verdict status expected user = AC)
  ∧ (status = 0%Z → expected ≠ user → spec_verdict status expected user = WA)
  ∧ (status ≠ 124%Z → status ≠ 0%Z → spec_verdict status expected user = RTE).
Proof.
  intros cmd status files expected user Hexp Htmp.
  split; [|repeat split].
  - unfold run_command_on_one_test.
    fold (case_command testcases_path testcase_number execute_command). fold cmd.
    assert (system E cmd w = (Ok status, {| fs := files; log := log w ++ [ESystem cmd] |}))
      as Hsys.
    { unfold system, status, files. by destruct (os_system E cmd w). }
    rewrite (bind_ok _ _ _ _ _ Hsys).
    assert (∀ p l, is_file files p = true →
              read_file p {| fs := files; log := l |}
              = (Ok (file_content files p), {| fs := files; log := l |})) as Hread.
    { intros p l. unfold is_file, read_file, file_content. simpl.
      by destruct (files !! p) as [[|c]|]. }
    rewrite (bind_ok _ _ _ _ _ (Hread _ _ Hexp)). fold expected.
    unfold spec_verdict, user.
    destruct (status =? 124)%Z eqn:H124.
    { apply Z.eqb_eq in H124. rewrite H124. done. }
    destruct (status =? 0)%Z eqn:H0; [|done].
    apply Z.eqb_eq in H0.
    rewrite (bind_ok _ _ _ _ _ (Hread _ _ (Htmp H0))).
    by destruct (String.eqb _ _).
  - intros ->. done.
  - intros H0 Heq. unfold spec_verdict. rewrite H0, Heq. simpl.
    by rewrite String.eqb_refl.
  - intros H0 Hne. unfold spec_verdict. rewrite H0. simpl.
    by apply String.eqb_neq in Hne as ->.
  - intros H124 H0. unfold spec_verdict.
    apply Z.eqb_neq in H124 as ->. by apply Z.eqb_neq in H0 as ->.
Qed.

(** Whatever a case run returns, its third component is a verdict text. *)
Lemma run_command_on_one_test_inv path n cmd w e u v w' :
  run_command_on_one_test E path n cmd w = (Ok (e, u, v), w') →
  ∃ vd, v = verdicts vd ∧ (vd = TLE ∨ vd = RTE → u = EmptyString).
Proof.
  unfold run_command_on_one_test. intros H.
  apply bind_inv_ok in H as (status & w1 & _ & H).
  apply bind_inv_ok in H as (expected & w2 & _ & H).
  destruct (status =? 124)%Z.
  { injection H as <- <- <- <-. exists TLE. auto. }
  destruct (status =? 0)%Z.
  - apply bind_inv_ok in H as (produced & w3 & _ & H).
    destruct (String.eqb _ _); injection H as <- <- <- <-;
      [exists AC | exists WA]; split; try done; intros [|]; done.
  - injection H as <- <- <- <-. exists RTE. auto.
Qed.

(** No exit code is seen as 124. *)
Lemma wait_status_not_124 (code : Z) : wait_status code ≠ 124%Z.
Proof. unfold wait_status. rewrite Z.shiftl_mul_pow2 by lia. lia. Qed.

(** C1: the program compares the value of [os.system] with 124, the exit
    code of [timeout] for a command it had to stop; but [os.system]
    returns the wait status, the exit code shifted left by eight bits.  A
    case that times out comes back as 31744 and is reported RTE, not TLE;
    and whatever the exit code of the command, the verdict is never
    TLE. *)
Theorem run_command_on_one_test_timeout
    (testcases_path : string) (testcase_number : nat) (execute_command : string)
    (w : World) :
  let cmd := case_command testcases_path testcase_number execute_command in
  let files := (os_system E cmd w).2 in
  let expected :=
    normalize (file_content files
                 (path_join2 testcases_path (Py.str testcase_number +:+ ".a"))) in
  (os_system E cmd w).1 = wait_status 124 →
  is_file files (path_join2 testcases_path (Py.str testcase_number +:+ ".a")) = true →
  run_command_on_one_test E testcases_path testcase_number execute_command w
    = (Ok (expected, EmptyString, verdicts RTE),
       {| fs := files; log := log w ++ [ESystem cmd] |})
  ∧ verdicts RTE ≠ verdicts TLE
  ∧ ∀ code w0 e u v w0',
      (os_system E cmd w0).1 = wait_status code →
      run_command_on_one_test E testcases_path testcase_number execute_command w0
        = (Ok (e, u, v), w0') →
      v ≠ verdicts TLE.
Proof.
  intros cmd files expected Hstatus Hexp. split; [|split].
  - destruct (run_command_on_one_test_verdict testcases_path testcase_number
                execute_command w Hexp) as [Hrun _].
    { fold cmd. rewrite Hstatus. done. }
    rewrite Hrun. fold cmd. rewrite Hstatus. done.
  - done.
  - intros code w0 e u v w0' Hcode. unfold run_command_on_one_test.
    fold (case_command testcases_path testcase_number execute_command). fold cmd.
    unfold bind at 1. unfold system at 1.
    destruct (os_system E cmd w0) as [status files0]. cbn [fst] in Hcode. subst status.
    unfold bind at 1. destruct (read_file _ _) as [[exp|c|x] w1]; [|done..].
    pose proof (wait_status_not_124 code) as Hne. apply Z.eqb_neq in Hne. rewrite Hne.
    destruct (wait_status code =? 0)%Z.
    + unfold bind. destruct (read_file _ _) as [[produced|c|x] w2]; [|done..].
      destruct (String.eqb _ _); intros [= _ _ <- _]; done.
    + intros [= _ _ <- _]. done.
Qed.

End Verdict.

(** ** Paths *)

Lemma endswith_slash_spoj (y : string) : Py.endswith "/" (y +:+ "spoj") = false.
Proof.
  induction y as [|c y IH]; [done|].
  rewrite app_cons. cbn [Py.endswith]. rewrite IH, orb_false_r.
  apply String.eqb_neq. by destruct y.
Qed.

(** An empty component leaves no segment behind a component that ends in
    [spoj]. *)
Lemma path_join2_empty_segment (y b : string) :
  path_join2 (path_join2 (y +:+ "spoj") EmptyString) b = path_join2 (y +:+ "spoj") b.
Proof.
  unfold path_join2 at 2. simpl Py.startswith.
  rewrite endswith_slash_spoj.
  assert ((y +:+ "spoj" =? "")%string = false) as ->.
  { apply String.eqb_neq. by destruct y. }
  simpl. rewrite app_empty_r.
  unfold path_join2. destruct (Py.startswith "/" b); [done|].
  rewrite endswith_app, orb_true_r, endswith_slash_spoj.
  assert ((y +:+ "spoj" =? "")%string = false) as ->.
  { apply String.eqb_neq. by destruct y. }
  simpl. by rewrite app_assoc_s.
Qed.

Lemma path_join2_spoj (c : string) : ∃ y, path_join2 c "spoj" = y +:+ "spoj".
Proof.
  unfold path_join2. simpl Py.startswith. cbv iota.
  destruct (_ || _); [by exists c|].
  exists (c +:+ "/"). by rewrite app_assoc_s.
Qed.

Section Paths.
Context (E : Env).

Lemma spoj_path (contest : option string) (problem : string) :
  path_join (cache_dir E) [Some "spoj"; Some EmptyString; Some problem]
  = path_join (cache_dir E) [Some "spoj"; Some problem].
Proof.
  simpl. destruct (path_join2_spoj (cache_dir E)) as [y ->].
  by rewrite path_join2_empty_segment.
Qed.

(** C8: for Spoj the contest component is replaced by the empty string
    at each place that builds a case path ([check_cache], [store_files],
    [run_solution]) and in [handle_kbd_interrupt], so the path is that of
    [cache_dir/spoj/problem] whatever the contest; for any other site the
    contest is kept as it is. *)
Theorem spoj_contest_normalized (contest : option string) (problem : string) :
  (check_cache_path E (Some "spoj") contest (Some problem)
   = path_join (cache_dir E) [Some "spoj"; Some problem]
   ∧ store_files_path E (Some "spoj") contest (Some problem)
     = path_join (cache_dir E) [Some "spoj"; Some problem]
   ∧ run_solution_path E (Some "spoj") contest (Some problem)
     = path_join (cache_dir E) [Some "spoj"; Some problem]
   ∧ handle_kbd_interrupt_contest (Some "spoj") contest = Some EmptyString)
  ∧ (∀ site : option string, site ≠ Some "spoj" →
       check_cache_path E site contest (Some problem)
       = path_join (cache_dir E) [site; contest; Some problem]
       ∧ store_files_path E site contest (Some problem)
         = path_join (cache_dir E) [site; contest; Some problem]
       ∧ run_solution_path E site contest (Some problem)
         = path_join (cache_dir E) [site; contest; Some problem]
       ∧ handle_kbd_interrupt_contest site contest = contest).
Proof.
  split.
  - unfold check_cache_path, store_files_path, run_solution_path,
      handle_kbd_interrupt_contest.
    replace (is_spoj (Some "spoj")) with true by done.
    rewrite (spoj_path contest problem). done.
  - intros site Hsite.
    unfold check_cache_path, store_files_path, run_solution_path,
      handle_kbd_interrupt_contest, is_spoj.
    by rewrite bool_decide_eq_false_2.
Qed.

(** ** The cache check *)

Lemma makedirs_lookup p w w' :
  makedirs p w = (Ok tt, w') →
  fs w' !! p = Some Dir
  ∧ log w' = log w
  ∧ ∀ q, q ≠ p → q ∉ parents p → fs w' !! q = fs w !! q.
Proof.
  unfold makedirs. destruct (existsb _ _); [done|].
  destruct (fs w !! p); [done|]. intros [= <-]. simpl.
  split; [apply lookup_insert_eq|]. split; [done|].
  intros q Hq Hpar. rewrite lookup_insert_ne by done.
  induction (parents p) as [|a l IH]; simpl; [done|].
  apply not_elem_of_cons in Hpar as [Hqa Hql].
  rewrite lookup_insert_ne by done. by apply IH.
Qed.

Lemma makedirs_ok p w :
  fs w !! p = None → existsb (is_file (fs w)) (parents p) = false →
  ∃ w', makedirs p w = (Ok tt, w').
Proof. unfold makedirs. intros -> ->. eauto. Qed.

Lemma is_dir_true m p : is_dir m p = true ↔ m !! p = Some Dir.
Proof. unfold is_dir. by rewrite bool_decide_eq_true. Qed.

(** C3: with [problem] set, [check_cache] answers whether the case
    directory existed, and the directory exists when it returns: it is
    left alone on a hit and created on a miss (nothing standing in the
    way).  With [problem] unset it answers [False] after ensuring the
    contest directory, and creates nothing but that directory and the
    ones above it. *)
Theorem check_cache_spec (site contest : option string) (w : World) :
  (∀ (problem p : string),
     check_cache_path E site contest (Some problem) = Some p →
     (∀ b w', check_cache E site contest (Some problem) w = (Ok b, w') →
              b = is_dir (fs w) p ∧ is_dir (fs w') p = true)
     ∧ (is_dir (fs w) p = true →
        check_cache E site contest (Some problem) w = (Ok true, w))
     ∧ (fs w !! p = None → existsb (is_file (fs w)) (parents p) = false →
        ∃ w', check_cache E site contest (Some problem) w = (Ok false, w')
              ∧ is_dir (fs w') p = true))
  ∧ (∀ (cp : string),
       path_join (cache_dir E) [site; contest] = Some cp →
       (∀ b w', check_cache E site contest None w = (Ok b, w') →
                b = false ∧ is_dir (fs w') cp = true
                ∧ ∀ q, q ≠ cp → q ∉ parents cp → fs w' !! q = fs w !! q)
       ∧ (is_dir (fs w) cp = true →
          check_cache E site contest None w = (Ok false, w))
       ∧ (fs w !! cp = None → existsb (is_file (fs w)) (parents cp) = false →
          ∃ w', check_cache E site contest None w = (Ok false, w')
                ∧ is_dir (fs w') cp = true)).
Proof.
  split.
  - intros problem p Hp.
    assert (check_cache E site contest (Some problem) w
            = (if is_dir (fs w) p then ret true else (makedirs p ;; ret false)) w) as ->.
    { unfold check_cache. by rewrite Hp. }
    split; [|split].
    + intros b w' H. destruct (is_dir (fs w) p) eqn:Hd.
      * by injection H as <- <-.
      * unfold bind in H. destruct (makedirs p w) as [[[]|c|e] w1] eqn:Hmk; [|done..].
        injection H as <- <-. split; [done|].
        apply is_dir_true. by apply makedirs_lookup in Hmk as [? _].
    + by intros ->.
    + intros Hnone Hfree.
      assert (is_dir (fs w) p = false) as ->.
      { apply bool_decide_eq_false. by rewrite Hnone. }
      destruct (makedirs_ok p w Hnone Hfree) as [w' Hmk].
      exists w'. unfold bind. rewrite Hmk. split; [done|].
      apply is_dir_true. by apply makedirs_lookup in Hmk as [? _].
  - intros cp Hcp.
    assert (check_cache E site contest None w
            = ((if negb (is_dir (fs w) cp) then makedirs cp else ret tt) ;; ret false) w)
      as ->.
    { unfold check_cache, os_path_join. by rewrite Hcp. }
    split; [|split].
    + intros b w' H. destruct (is_dir (fs w) cp) eqn:Hd; simpl in H.
      * injection H as <- <-. done.
      * unfold bind in H. destruct (makedirs cp w) as [[[]|c|e] w1] eqn:Hmk; [|done..].
        injection H as <- <-. split; [done|].
        apply makedirs_lookup in Hmk as (Hcpd & _ & Hframe).
        split; [by apply is_dir_true|]. intros q Hq Hpar. by apply Hframe.
    + by intros ->.
    + intros Hnone Hfree.
      assert (is_dir (fs w) cp = false) as ->.
      { apply bool_decide_eq_false. by rewrite Hnone. }
      destruct (makedirs_ok cp w Hnone Hfree) as [w' Hmk].
      exists w'. simpl. unfold bind. rewrite Hmk. split; [done|].
      apply is_dir_true. by apply makedirs_lookup in Hmk as [? _].
Qed.

(** A hit leaves the world as it is. *)
Lemma check_cache_hit site contest problem w w' :
  check_cache E site contest problem w = (Ok true, w') → w' = w.
Proof.
  unfold check_cache. destruct problem as [problem|].
  - unfold bind at 1. destruct (need _ _ w) as [[p|c|e] w1] eqn:Hneed; [|done..].
    assert (w1 = w) as ->.
    { unfold need in Hneed. destruct (check_cache_path _ _ _ _); by injection Hneed. }
    unfold bind at 1. unfold isdir at 1. destruct (is_dir (fs w) p).
    + by intros [= <-].
    + unfold bind. by destruct (makedirs p w) as [[[]|c|e] w1].
  - intros H. apply bind_inv_ok in H as (p & w1 & _ & H).
    apply bind_inv_ok in H as (d & w2 & _ & H).
    apply bind_inv_ok in H as (u & w3 & _ & H). done.
Qed.

Lemma get_platform_world args platform w w' :
  get_platform args w = (Ok platform, w') → w' = w.
Proof.
  unfold get_platform, Codeforces_init, Codechef_init, Spoj_init, Hackerrank_init.
  repeat case_bool_decide; try by intros [= _ <-].
  unfold bind, need. destruct (a_problem args); [|done]. by intros [= _ <-].
Qed.

(** C7: when the cache check reports a hit and [force] is not set,
    [download_problem_testcases] prints that the cases were found, leaves
    with status 0 and does nothing else (no page is fetched, no file is
    touched); in every other case it goes on as [scrape_problem] of the
    platform. *)
Theorem download_problem_testcases_cache (args : Args) (platform : Platform)
    (hit : bool) (w w0 w1 : World) :
  get_platform args w = (Ok platform, w0) →
  check_cache E (p_site platform) (p_contest platform) (p_problem platform) w0
    = (Ok hit, w1) →
  (a_force args = false → hit = true →
   download_problem_testcases E args w
   = (Exit 0, {| fs := fs w; log := log w ++ [EPrint "Test cases found in cache..."] |}))
  ∧ (a_force args = true ∨ hit = false →
     download_problem_testcases E args w = scrape_problem E platform w1).
Proof.
  intros Hplat Hcheck. unfold download_problem_testcases.
  rewrite (bind_ok _ _ _ _ _ Hplat), (bind_ok _ _ _ _ _ Hcheck).
  split.
  - intros -> ->. apply check_cache_hit in Hcheck as ->.
    apply get_platform_world in Hplat as ->. done.
  - intros [->| ->]; [done|]. by rewrite andb_false_r.
Qed.

End Paths.

(** ** A compile step that fails *)
Section CompileFailure.
Context (E : Env).

(** When the compiler exits with a non-zero status, [run_solution_cached]
    raises [NameError] at the call of [prin]: the compile command is the
    only command run, and nothing is printed. *)
Lemma run_solution_cached_compile_failure path ppath base ext n c w :
  getTestCasesCount path w = (Ok n, w) →
  ext ∈ supported_extensions →
  dict_get (compiler_table base) ext = Some (Some c) →
  (os_system E (c +:+ " '" +:+ ppath +:+ "." +:+ ext +:+ "'") w).1 ≠ 0%Z →
  run_solution_cached E path ppath base ext w
  = (Raise NameError,
     {| fs := (os_system E (c +:+ " '" +:+ ppath +:+ "." +:+ ext +:+ "'") w).2;
        log := log w ++ [ESystem (c +:+ " '" +:+ ppath +:+ "." +:+ ext +:+ "'")] |}).
Proof.
  intros Hcount Hext Hcomp Hst. unfold run_solution_cached.
  rewrite (bind_ok _ _ _ _ _ Hcount).
  rewrite bool_decide_eq_true_2 by done. rewrite Hcomp.
  assert (∃ x, dict_get (execute_table base ext) ext = Some x) as [x ->].
  { unfold supported_extensions in Hext.
    repeat (apply elem_of_cons in Hext as [->|Hext]; [by eexists|]).
    by apply elem_of_nil in Hext. }
  unfold bind, need, ret, system, prin, raise.
  destruct (os_system E _ w) as [st files]. simpl in *.
  by apply Z.eqb_neq in Hst as ->.
Qed.

End CompileFailure.

(** C5, on the concrete machine: the compiler exits with status 1 and the
    run ends in [NameError]; the compile command is all that was run, and
    no compilation-error report was printed. *)
Example run_solution_compile_failure :
  run_solution (demo_env 1 0 "6") 2 demo_args demo_world
  = (Raise NameError,
     {| fs := demo_files;
        log := [ESystem ("clang++ -DONLINE_JUDGE -include /home/igorjan/206round/bits.h"
                         +:+ " -O2 -std=c++17 -o sol '/work/sol.cpp'")] |}).
Proof. vm_compute. reflexivity. Qed.

(** ** The report *)
Section Report.
Context (E : Env).


(** After the loop over the cases [a .. a+k-1], every one of them holds
    what its run returned, and the cases below [a] are as before. *)
Lemma run_cases_from path cmd k : ∀ a eo0 uo0 rs0 w eo uo rs w',
  for_each (λ (acc : outcomes) i,
              let '(expected_outputs, user_outputs, results) := acc in
              r <- run_command_on_one_test E path i cmd ;;
              let '(e, u, v) := r in
              ret (<[i := e]> expected_outputs, <[i := u]> user_outputs,
                   <[i := v]> results))
           (eo0, uo0, rs0) (seq a k) w = (Ok (eo, uo, rs), w') →
  (length eo = length eo0 ∧ length uo = length uo0 ∧ length rs = length rs0)
  ∧ (∀ i, i < a → eo !! i = eo0 !! i ∧ uo !! i = uo0 !! i ∧ rs !! i = rs0 !! i)
  ∧ (∀ i, a ≤ i < a + k → i < length eo0 → i < length uo0 → i < length rs0 →
       ∃ wi wi' e u v,
         run_command_on_one_test E path i cmd wi = (Ok (e, u, v), wi')
         ∧ eo !! i = Some e ∧ uo !! i = Some u ∧ rs !! i = Some v).
Proof.
  induction k as [|k IH]; intros a eo0 uo0 rs0 w eo uo rs w' H.
  - injection H as <- <- <- <-. repeat split; intros; lia.
  - simpl in H. apply bind_inv_ok in H as ([[eo1 uo1] rs1] & w1 & Hbody & Hrest).
    apply bind_inv_ok in Hbody as ([[e u] v] & w0 & Hrun & Hret).
    injection Hret as <- <- <- <-.
    apply IH in Hrest as (Hlen & Hlow & Hhigh).
    rewrite !length_insert in Hlen, Hhigh.
    split; [done|]. split.
    + intros i Hi. destruct (Hlow i) as (He & Hu & Hv); [lia|].
      rewrite He, Hu, Hv. by rewrite !list_lookup_insert_ne by lia.
    + intros i Hi Hle Hlu Hlr.
      destruct (decide (i = a)) as [->|Hne].
      * exists w, w0, e, u, v. split; [done|].
        destruct (Hlow a) as (He & Hu & Hv); [lia|].
        rewrite He, Hu, Hv. by rewrite !list_lookup_insert_eq by lia.
      * apply Hhigh; lia.
Qed.




(** The table [run_solution] prints is made of these rows: when the
    compile step succeeds and the cases and inputs can be read, the one
    table event carries [report_rows] of the loop's results. *)
Lemma run_solution_cached_table path ppath base ext w r w' :
  run_solution_cached E path ppath base ext w = (Ok r, w') →
  ∃ n w0 w1 eo uo rs inputs cmd,
    run_cases E path cmd n
      (replicate n EmptyString, replicate n EmptyString, replicate n EmptyString) w0
      = (Ok (eo, uo, rs), w1)
    ∧ ETable table_header (report_rows inputs eo uo rs n) ∈ log w'.
Proof.
  unfold run_solution_cached. intros H.
  apply bind_inv_ok in H as (n & wa & _ & H).
  apply bind_inv_ok in H as ([[eo uo] rs] & wb & Hran & H).
  apply bind_inv_ok in H as (inputs & wc & _ & H).
  apply bind_inv_ok in H as ([] & wd & Hemit & Hclean).
  assert (∃ w0 cmd, run_cases E path cmd n
            (replicate n EmptyString, replicate n EmptyString, replicate n EmptyString) w0
            = (Ok (eo, uo, rs), wb)) as (w0 & cmd & Hcases).
  { destruct (bool_decide _); [|done].
    apply bind_inv_ok in Hran as (compiler & w2 & _ & Hran).
    apply bind_inv_ok in Hran as (cmd & w3 & _ & Hran).
    apply bind_inv_ok in Hran as (st & w4 & _ & Hran).
    destruct (st =? 0)%Z; [eauto|done]. }
  exists n, w0, wb, eo, uo, rs, inputs, cmd. split; [done|].
  injection Hemit as <-.
  assert (∀ m : M unit, (∀ w r w', m w = (r, w') → ∃ evs, log w' = (log w ++ evs)%list) →
          ∀ w r w', m w = (r, w') → ∀ e, e ∈ log w → e ∈ log w') as Hmono.
  { intros m Hm w2 r2 w2' Hw e He. destruct (Hm _ _ _ Hw) as [evs ->].
    apply elem_of_app. by left. }
  eapply (Hmono (cleanup E n base ext)); [|exact Hclean|].
  - clear. intros w r w'. unfold cleanup.
    assert (∀ l u w r w',
              for_each (λ (_ : unit) (i : nat),
                          f <- isfile ("temp_output" +:+ Py.str i) ;;
                          if f then remove ("temp_output" +:+ Py.str i) else ret tt)
                       u l w = (r, w') → log w' = log w) as Hloop.
    { clear. induction l as [|i l IH]; intros u w r w' H; simpl in H.
      - by injection H as <- <-.
      - unfold bind at 1 in H. unfold bind at 1 in H. unfold isfile at 1 in H.
        destruct (is_file (fs w) _).
        + unfold remove at 1 in H. destruct (fs w !! _) as [[|c]|];
            try (by injection H as <- <-).
          by apply IH in H.
        + unfold ret at 1 in H. by apply IH in H. }
    unfold bind at 1. destruct (for_each _ _ _ w) as [[[]|c|e] w1] eqn:Hfor;
      apply Hloop in Hfor.
    + destruct (String.eqb ext "java").
      * unfold bind, system. destruct (os_system E _ w1) as [st files]. simpl.
        intros [= <- <-]. simpl. rewrite Hfor. eauto.
      * intros [= <- <-]. exists []. by rewrite app_nil_r.
    + intros [= <- <-]. exists []. by rewrite app_nil_r.
    + intros [= <- <-]. exists []. by rewrite app_nil_r.
  - simpl. apply elem_of_app. right. by apply list_elem_of_singleton.
Qed.

End Report.

(** ** Which steps send a batch of requests *)

Create HintDb batch discriminated.

Lemma batch_free_ret {A} (a : A) : batch_free (ret a).
Proof. by intros w r w' [= <- <-]. Qed.

Lemma batch_free_raise {A} (e : exn) : batch_free (@raise A e).
Proof. by intros w r w' [= <- <-]. Qed.

Lemma batch_free_sys_exit {A} (c : Z) : batch_free (@sys_exit A c).
Proof. by intros w r w' [= <- <-]. Qed.

Lemma batch_free_bind {A B} (m : M A) (k : A → M B) :
  batch_free m → (∀ a, batch_free (k a)) → batch_free (bind m k).
Proof.
  intros Hm Hk w r w'. unfold bind.
  destruct (m w) as [[a|c|e] w1] eqn:Hmw; apply Hm in Hmw.
  - intros Hka. apply Hk in Hka. congruence.
  - intros [= <- <-]. done.
  - intros [= <- <-]. done.
Qed.

Lemma batch_free_need {A} (e : exn) (o : option A) : batch_free (need e o).
Proof. destruct o; [apply batch_free_ret | apply batch_free_raise]. Qed.

Lemma batch_free_print (line : string) : batch_free (print line).
Proof.
  intros w r w' [= <- <-]. simpl. unfold batches.
  rewrite omap_app. simpl. by rewrite app_nil_r.
Qed.

Lemma batch_free_isdir p : batch_free (isdir p).
Proof. by intros w r w' [= <- <-]. Qed.

Lemma batch_free_makedirs p : batch_free (makedirs p).
Proof.
  intros w r w'. unfold makedirs.
  destruct (existsb _ _); [by intros [= <- <-]|].
  destruct (fs w !! p); by intros [= <- <-].
Qed.

Lemma batch_free_listdir p : batch_free (listdir p).
Proof.
  intros w r w'. unfold listdir.
  destruct (fs w !! p) as [[|c]|]; by intros [= <- <-].
Qed.

Lemma batch_free_write_file p c : batch_free (write_file p c).
Proof.
  intros w r w'. unfold write_file.
  destruct (fs w !! p) as [[|c']|]; by intros [= <- <-].
Qed.

Lemma batch_free_for_each {A S} (body : S → A → M S) (l : list A) :
  (∀ s x, batch_free (body s x)) → ∀ s, batch_free (for_each body s l).
Proof.
  intros Hbody. induction l as [|x l IH]; intros s; simpl.
  - apply batch_free_ret.
  - apply batch_free_bind; [apply Hbody | apply IH].
Qed.

Lemma batch_free_if {A} (b : bool) (m1 m2 : M A) :
  batch_free m1 → batch_free m2 → batch_free (if b then m1 else m2).
Proof. by destruct b. Qed.

Global Hint Resolve batch_free_ret batch_free_raise batch_free_sys_exit
  batch_free_need batch_free_print batch_free_isdir batch_free_makedirs
  batch_free_listdir batch_free_write_file batch_free_if batch_free_bind : batch.

Ltac batch_free_step :=
  first [ apply batch_free_bind; [|intros ?]
        | apply batch_free_if
        | progress eauto 20 with batch ].

Section Batches.
Context (E : Env).

Lemma batch_free_check_cache site contest problem :
  batch_free (check_cache E site contest problem).
Proof.
  unfold check_cache, os_path_join. destruct problem; repeat batch_free_step.
Qed.

Lemma batch_free_write_cases path name n items : ∀ i,
  batch_free (write_cases path name n i items).
Proof.
  induction items as [|x items IH]; intros i; simpl; repeat batch_free_step.
Qed.

Lemma batch_free_store_files site contest problem inputs outputs statement :
  batch_free (store_files E site contest problem inputs outputs statement).
Proof.
  unfold store_files, getTestCasesCount.
  repeat batch_free_step; apply batch_free_write_cases.
Qed.

Lemma batch_free_not_found {A} message self : batch_free (@not_found A message self).
Proof. unfold not_found, handle_kbd_interrupt. repeat batch_free_step. Qed.

Lemma batch_free_codeforces_parse_html self req :
  batch_free (codeforces_parse_html E self req).
Proof.
  unfold codeforces_parse_html.
  destruct (codeforces_blocks E req) as [[ins outs] sts].
  apply batch_free_if; [apply batch_free_not_found|]. repeat batch_free_step.
Qed.

Lemma batch_free_codechef_parse_html self req :
  batch_free (codechef_parse_html E self req).
Proof.
  unfold codechef_parse_html.
  destruct (codechef_blocks E req); [apply batch_free_ret | apply batch_free_not_found].
Qed.

Lemma batch_free_hackerrank_parse_html self req :
  batch_free (hackerrank_parse_html E self req).
Proof.
  unfold hackerrank_parse_html.
  destruct (hackerrank_blocks E req); [apply batch_free_ret | apply batch_free_not_found].
Qed.

Lemma batch_free_json_handle_response parse st response :
  (∀ self req, batch_free (parse self req)) →
  batch_free (json_handle_response E parse st response).
Proof.
  intros Hparse. destruct st as [self failed]. unfold json_handle_response, response_url.
  apply batch_free_if.
  - apply batch_free_bind; [apply batch_free_need|]. intros r.
    apply batch_free_bind; [apply Hparse|]. intros [ins outs].
    apply batch_free_bind; [apply batch_free_check_cache|]. intros _.
    apply batch_free_bind; [apply batch_free_store_files|]. intros _.
    apply batch_free_ret.
  - repeat batch_free_step.
Qed.

Lemma batch_free_handle_response c st response :
  batch_free (handle_response E c st response).
Proof.
  destruct c; unfold handle_response.
  - destruct st as [self failed]. unfold codeforces_handle_response, response_url.
    apply batch_free_if.
    + apply batch_free_bind; [apply batch_free_need|]. intros r.
      apply batch_free_bind; [apply batch_free_codeforces_parse_html|].
      intros [[ins outs] text].
      apply batch_free_bind; [apply batch_free_check_cache|]. intros _.
      apply batch_free_bind; [apply batch_free_store_files|]. intros _.
      apply batch_free_ret.
    + repeat batch_free_step.
  - apply batch_free_json_handle_response, batch_free_codechef_parse_html.
  - apply batch_free_raise.
  - apply batch_free_json_handle_response, batch_free_hackerrank_parse_html.
Qed.

(** One call of [handle_batch_requests] sends exactly one batch: its
    links. *)
Lemma handle_batch_requests_batches self links w r w' :
  cls self ≠ Spoj →
  handle_batch_requests E self links w = (r, w') →
  batches (log w') = (batches (log w) ++ [links])%list.
Proof.
  intros Hcls. unfold handle_batch_requests.
  assert (∀ c, (responses <- grequests_map E links ;;
                for_each (handle_response E c) (self, []) responses) w = (r, w') →
               batches (log w') = (batches (log w) ++ [links])%list) as Hgen.
  { intros c. unfold bind, grequests_map. intros H.
    apply batch_free_for_each in H; [|intros; apply batch_free_handle_response].
    rewrite H. simpl. unfold batches. rewrite omap_app. done. }
  destruct (cls self); [apply Hgen..|done|apply Hgen].
Qed.

(** ** What a wave records as failed *)

Lemma handle_response_failed c self failed response self' failed' w w' :
  handle_response E c (self, failed) response w = (Ok (self', failed'), w') →
  is_Some response ∧ failed' = (failed ++ failed_urls [response])%list.
Proof.
  assert (∀ (T : Type) (m : M T) (k : T → M (Platform * list string)),
            (∀ t w1 s f w2, k t w1 = (Ok (s, f), w2) → f = failed) →
            ∀ w1 s f w2, bind m k w1 = (Ok (s, f), w2) → f = failed) as Hbind.
  { intros T m k Hk w1 s f w2 H.
    apply bind_inv_ok in H as (t & w3 & _ & H). eauto. }
  assert (∀ parse : Response → M (Platform * list string),
            (∀ r w1 s f w2, parse r w1 = (Ok (s, f), w2) → f = failed) →
            (if is_200 response then r <- need AttributeError response ;; parse r
             else u <- response_url response ;; ret (self, (failed ++ [u])%list)) w
            = (Ok (self', failed'), w') →
            is_Some response ∧ failed' = (failed ++ failed_urls [response])%list) as Hgen.
  { intros parse Hparse. destruct response as [r|]; simpl; [|done].
    unfold failed_urls. simpl. destruct (status_code r =? 200)%Z.
    - intros H. split; [eauto|]. rewrite app_nil_r.
      unfold bind, need, ret in H. eauto.
    - intros [= _ <- _]. eauto. }
  destruct c; simpl; [| |done|].
  - apply (Hgen (λ r, parsed <- codeforces_parse_html E self r ;; _)).
    intros r. apply Hbind. intros [[ins outs] text].
    apply Hbind. intros _. apply Hbind. intros _ w1 s f w2 [= _ <- _]. done.
  - apply (Hgen (λ r, parsed <- codechef_parse_html E self r ;; _)).
    intros r. apply Hbind. intros [ins outs].
    apply Hbind. intros _. apply Hbind. intros _ w1 s f w2 [= _ <- _]. done.
  - apply (Hgen (λ r, parsed <- hackerrank_parse_html E self r ;; _)).
    intros r. apply Hbind. intros [ins outs].
    apply Hbind. intros _. apply Hbind. intros _ w1 s f w2 [= _ <- _]. done.
Qed.

Lemma for_each_handle_response_failed c responses : ∀ self failed self' failed' w w',
  for_each (handle_response E c) (self, failed) responses w = (Ok (self', failed'), w') →
  Forall is_Some responses ∧ failed' = (failed ++ failed_urls responses)%list.
Proof.
  induction responses as [|response responses IH];
    intros self failed self' failed' w w' H; simpl in H.
  - injection H as <- <- <-. by rewrite app_nil_r.
  - apply bind_inv_ok in H as ([self1 failed1] & w1 & Hone & Hrest).
    apply handle_response_failed in Hone as [Hsome ->].
    apply IH in Hrest as [Hall ->].
    split; [by constructor|].
    rewrite <- app_assoc. f_equal. unfold failed_urls.
    by rewrite <- omap_app.
Qed.

Lemma handle_batch_requests_failed self links self' failed w w' :
  handle_batch_requests E self links w = (Ok (self', failed), w') →
  Forall is_Some (grq_map E links w) ∧ failed = failed_urls (grq_map E links w).
Proof.
  unfold handle_batch_requests.
  assert (∀ c, (responses <- grequests_map E links ;;
                for_each (handle_response E c) (self, []) responses) w
               = (Ok (self', failed), w') →
               Forall is_Some (grq_map E links w)
               ∧ failed = failed_urls (grq_map E links w)) as Hgen.
  { intros c H. unfold bind, grequests_map in H.
    by apply for_each_handle_response_failed in H. }
  destruct (cls self); [apply Hgen..|done|apply Hgen].
Qed.

(** ** A response that is [None] *)

Lemma handle_response_none c st w :
  handle_response E c st None w = (Raise AttributeError, w).
Proof. destruct st as [self failed]. by destruct c. Qed.

(** C10: when one of the responses of a batch is [None], each of the
    three handlers raises [AttributeError] on reaching it, at
    [response.url]: the call never returns a list of failed links.  It
    raises as soon as the responses before the [None] have been handled. *)
Theorem handle_batch_requests_null_response
    (self : Platform) (links : list string) (w : World)
    (pre post : list (option Response)) :
  cls self ≠ Spoj →
  grq_map E links w = (pre ++ None :: post)%list →
  (∀ st w2,
     for_each (handle_response E (cls self)) (self, []) pre
       {| fs := fs w; log := log w ++ [EBatch links] |} = (Ok st, w2) →
     handle_batch_requests E self links w = (Raise AttributeError, w2))
  ∧ (∀ r w', handle_batch_requests E self links w ≠ (Ok r, w')).
Proof.
  intros Hcls Hmap.
  assert (handle_batch_requests E self links w
          = for_each (handle_response E (cls self)) (self, []) (pre ++ None :: post)%list
              {| fs := fs w; log := log w ++ [EBatch links] |}) as ->.
  { unfold handle_batch_requests.
    destruct (cls self); try done; unfold bind, grequests_map; cbv beta;
      by rewrite Hmap. }
  rewrite for_each_app. unfold bind at 1 2.
  destruct (for_each _ _ pre _) as [[st|c|e] w2].
  - cbn [for_each]. unfold bind at 1 2. rewrite handle_response_none. split; [|done].
    intros st' w2' [= <- <-]. done.
  - split; [|done]. intros st' w2' [=].
  - split; [|done]. intros st' w2' [=].
Qed.

(** ** The retry *)

(** C4, as the code has it: the addresses of the responses of the first
    wave that came back with a status other than 200 are requested once
    more, as one second wave, and no wave follows it; what still fails
    then is dropped: [scrape_contest] returns nothing and reports
    nothing about it. *)
Theorem scrape_contest_waves_retry
    (self self1 : Platform) (links failed : list string) (w w1 : World) :
  cls self ≠ Spoj →
  handle_batch_requests E self links w = (Ok (self1, failed), w1) →
  failed = failed_urls (grq_map E links w)
  ∧ (failed = [] →
     scrape_contest_waves E self links w = (Ok tt, w1)
     ∧ batches (log w1) = (batches (log w) ++ [links])%list)
  ∧ (failed ≠ [] →
     ∀ r w2, scrape_contest_waves E self links w = (r, w2) →
       batches (log w2) = (batches (log w) ++ [links; failed])%list
       ∧ ∀ self2 still w3,
           handle_batch_requests E self1 failed w1 = (Ok (self2, still), w3) →
           r = Ok tt ∧ w2 = w3).
Proof.
  intros Hcls Hfirst.
  pose proof (handle_batch_requests_failed _ _ _ _ _ _ Hfirst) as [_ Hfailed].
  pose proof (handle_batch_requests_batches _ _ _ _ _ Hcls Hfirst) as Hb1.
  assert (cls self1 ≠ Spoj) as Hcls1.
  { revert Hfirst. unfold handle_batch_requests.
    assert (∀ c responses self0 failed0 w0,
              cls self0 = cls self →
              for_each (handle_response E c) (self0, failed0) responses w0
              = (Ok (self1, failed), w1) → cls self1 = cls self) as Hkeep.
    { intros c responses. induction responses as [|resp responses IH];
        intros self0 failed0 w0 Hc H; simpl in H.
      - by injection H as <- <- <-.
      - apply bind_inv_ok in H as ([self' failed'] & w' & Hone & Hrest).
        eapply IH; [|exact Hrest]. rewrite <- Hc. clear -Hone.
        destruct resp as [r|]; [|by destruct c].
        destruct c; simpl in Hone; [| |done|].
        + destruct (status_code r =? 200)%Z; [|by injection Hone as <- _ _].
          unfold bind at 1 in Hone. simpl in Hone.
          apply bind_inv_ok in Hone as ([[ins outs] text] & ? & _ & Hone).
          apply bind_inv_ok in Hone as (? & ? & _ & Hone).
          apply bind_inv_ok in Hone as (? & ? & _ & Hone).
          by injection Hone as <- _ _.
        + destruct (status_code r =? 200)%Z; [|by injection Hone as <- _ _].
          unfold bind at 1 in Hone. simpl in Hone.
          apply bind_inv_ok in Hone as ([ins outs] & ? & _ & Hone).
          apply bind_inv_ok in Hone as (? & ? & _ & Hone).
          apply bind_inv_ok in Hone as (? & ? & _ & Hone).
          by injection Hone as <- _ _.
        + destruct (status_code r =? 200)%Z; [|by injection Hone as <- _ _].
          unfold bind at 1 in Hone. simpl in Hone.
          apply bind_inv_ok in Hone as ([ins outs] & ? & _ & Hone).
          apply bind_inv_ok in Hone as (? & ? & _ & Hone).
          apply bind_inv_ok in Hone as (? & ? & _ & Hone).
          by injection Hone as <- _ _. }
    intros H Heq. apply Hcls. rewrite <- Heq. symmetry.
    destruct (cls self) eqn:Hc; [| |done|];
      unfold bind, grequests_map in H; eapply Hkeep in H; eauto. }
  split; [done|]. unfold scrape_contest_waves.
  rewrite (bind_ok _ _ _ _ _ Hfirst). split.
  - intros ->. done.
  - intros Hne r w2.
    assert ((0 <? length failed)%nat = true) as ->.
    { apply Nat.ltb_lt. destruct failed; [done|simpl; lia]. }
    unfold bind.
    destruct (handle_batch_requests E self1 failed w1) as [r2 w3] eqn:Hsecond.
    pose proof (handle_batch_requests_batches _ _ _ _ _ Hcls1 Hsecond) as Hb2.
    intros Hres.
    assert (w2 = w3) as ->.
    { by destruct r2 as [[]| |]; injection Hres. }
    split.
    + rewrite Hb2, Hb1, <- app_assoc. done.
    + intros self2 still w4 [= -> ->]. by injection Hres as <-.
Qed.

(** [scrape_contest] is its two parts in a row. *)
Lemma scrape_contest_parts self w :
  cls self ≠ Spoj →
  scrape_contest E self w
  = bind (scrape_contest_links E self) (scrape_contest_waves E self) w.
Proof. intros Hcls. unfold scrape_contest. by destruct (cls self). Qed.

(** With a [None] among the responses of the first wave there is no
    second wave: the waves end without returning, after the one batch. *)
Lemma scrape_contest_waves_null_response self links w r w' :
  cls self ≠ Spoj →
  None ∈ grq_map E links w →
  scrape_contest_waves E self links w = (r, w') →
  (∀ u, r ≠ Ok u) ∧ batches (log w') = batches (log w) ++ [links].
Proof.
  intros Hcls Hnone. unfold scrape_contest_waves, bind.
  destruct (handle_batch_requests E self links w) as [[[self1 failed]|c|e] w1] eqn:Hfirst.
  - apply handle_batch_requests_failed in Hfirst as [Hall _].
    rewrite Forall_forall in Hall. by destruct (Hall None Hnone).
  - apply handle_batch_requests_batches in Hfirst; [|done].
    intros [= <- <-]. done.
  - apply handle_batch_requests_batches in Hfirst; [|done].
    intros [= <- <-]. done.
Qed.

End Batches.

(** C4 as the specification states it fails on the second machine: link
    [B] still fails in the second wave, and nothing the caller gets from
    [scrape_contest] mentions it. *)
Lemma unresolved_not_surfaced :
  ¬ surfaces_unresolved retry_env retry_self [link_A; link_B] retry_world.
Proof.
  intros H.
  destruct (H (set_problem retry_self (Some "A")) [link_B]
              (handle_batch_requests retry_env retry_self [link_A; link_B] retry_world).2
              (set_problem retry_self (Some "A")) [link_B]
              (scrape_contest_waves retry_env retry_self [link_A; link_B] retry_world).2
              eq_refl eq_refl link_B) as (line & Hin & _).
  { by apply list_elem_of_singleton. }
  vm_compute in Hin.
  repeat (apply elem_of_cons in Hin as [Hin|Hin]; [discriminate Hin|]).
  by apply elem_of_nil in Hin.
Qed.

(** ** Names of case files *)

Lemma to_uint_nonnil (n : nat) : Nat.to_uint n ≠ Decimal.Nil.
Proof.
  intros H. pose proof (Unsigned.of_to n) as Hn. rewrite H in Hn.
  simpl in Hn. subst n. discriminate H.
Qed.

Lemma str_inj (i j : nat) : Py.str i = Py.str j → i = j.
Proof.
  unfold Py.str. intros H. apply Unsigned.to_uint_inj.
  pose proof (NilZero.usu _ (to_uint_nonnil i)) as Hi.
  pose proof (NilZero.usu _ (to_uint_nonnil j)) as Hj.
  rewrite H in Hi. congruence.
Qed.

Lemma all_digits_uint (d : Decimal.uint) : all_digits (NilEmpty.string_of_uint d) = true.
Proof. induction d; simpl; auto. Qed.

Lemma str_digits (n : nat) : all_digits (Py.str n) = true.
Proof.
  unfold Py.str, NilZero.string_of_uint.
  destruct (Nat.to_uint n); auto using all_digits_uint.
  all: apply (all_digits_uint (_ _)).
Qed.

Lemma str_nonempty (n : nat) : Py.str n ≠ EmptyString.
Proof.
  unfold Py.str, NilZero.string_of_uint. by destruct (Nat.to_uint n).
Qed.

Lemma digits_no_slash s : all_digits s = true → Py.has_char Py.slash s = false.
Proof.
  induction s as [|c s IH]; [done|]. cbn [all_digits Py.has_char].
  intros [Hc Hs]%andb_true_iff. rewrite (IH Hs), orb_false_r.
  apply bool_decide_eq_true in Hc. apply Ascii.eqb_neq. intros ->.
  by destruct Hc.
Qed.

Lemma digits_not_endswith_a s : all_digits s = true → Py.endswith ".a" s = false.
Proof.
  induction s as [|c s IH]; [done|]. cbn [all_digits Py.endswith].
  intros [Hc Hs]%andb_true_iff. rewrite (IH Hs), orb_false_r.
  apply bool_decide_eq_true in Hc. apply String.eqb_neq.
  intros [= <- _]. by destruct Hc.
Qed.

Lemma input_name_like n : entry_like (input_name n).
Proof. split; [apply str_nonempty | apply digits_no_slash, str_digits]. Qed.

Lemma output_name_like n : entry_like (output_name n).
Proof.
  split.
  - unfold output_name. pose proof (str_nonempty n). by destruct (Py.str n).
  - unfold output_name. rewrite has_char_app, (digits_no_slash _ (str_digits n)). done.
Qed.

Lemma statement_like : entry_like "statement.txt".
Proof. done. Qed.

Lemma input_name_not_a n : Py.endswith ".a" (input_name n) = false.
Proof. apply digits_not_endswith_a, str_digits. Qed.

Lemma output_name_a n : Py.endswith ".a" (output_name n) = true.
Proof. apply endswith_app. Qed.

Lemma input_name_inj i j : input_name i = input_name j → i = j.
Proof. apply str_inj. Qed.

Lemma output_name_inj i j : output_name i = output_name j → i = j.
Proof. unfold output_name. intros H%app_inj_r. by apply str_inj. Qed.

Lemma input_output_name i j : input_name i ≠ output_name j.
Proof.
  intros H. pose proof (input_name_not_a i) as Hi. rewrite H, output_name_a in Hi. done.
Qed.

Lemma input_name_statement i : input_name i ≠ "statement.txt".
Proof.
  intros H. pose proof (str_digits i) as Hi. unfold input_name in H. rewrite H in Hi. done.
Qed.

Lemma output_name_statement i : output_name i ≠ "statement.txt".
Proof.
  intros H. pose proof (output_name_a i) as Hi. rewrite H in Hi. done.
Qed.

(** ** Entries of a directory *)

Lemma startswith_slash_like name : entry_like name → Py.startswith "/" name = false.
Proof.
  intros [Hne Hs]. destruct name as [|c name]; [done|].
  cbn [Py.has_char] in Hs. apply orb_false_iff in Hs as [Hc _].
  cbn [Py.startswith]. rewrite Ascii.eqb_sym. unfold Py.slash in Hc. by rewrite Hc.
Qed.

Lemma path_join2_like p name :
  entry_like name → path_join2 p name = dir_prefix p +:+ name.
Proof.
  intros Hname. unfold path_join2, dir_prefix.
  rewrite (startswith_slash_like _ Hname).
  destruct (_ || _); [done|]. by rewrite app_assoc_s.
Qed.

Lemma path_join2_inj p a b :
  entry_like a → entry_like b → path_join2 p a = path_join2 p b → a = b.
Proof.
  intros Ha Hb. rewrite !path_join2_like by done. apply String.app_inj.
Qed.

Lemma strip_prefix_app pre n : strip_prefix pre (pre +:+ n) = Some n.
Proof.
  induction pre as [|c pre IH]; [by destruct n|].
  rewrite app_cons. simpl. by rewrite Ascii.eqb_refl.
Qed.

Lemma entry_name_join p name :
  entry_like name → entry_name p (path_join2 p name) = Some name.
Proof.
  intros Hname. rewrite path_join2_like by done.
  unfold entry_name. rewrite strip_prefix_app.
  destruct Hname as [Hne ->]. by apply String.eqb_neq in Hne as ->.
Qed.

Lemma path_join2_not_dir p name : entry_like name → path_join2 p name ≠ p.
Proof.
  intros Hname H. rewrite path_join2_like in H by done.
  apply (f_equal String.length) in H. rewrite length_app_s in H.
  destruct Hname as [Hne _]. unfold dir_prefix in H.
  destruct (_ || _); [|rewrite length_app_s in H; simpl in H; lia].
  destruct name; [done|]. simpl in H. lia.
Qed.

(** ** Counting the cases of a directory *)

Lemma keys_insert (m : gmap string node) (k : string) (v : node) :
  (map_to_list (<[k:=v]> m)).*1
  ≡ₚ match m !! k with
     | Some _ => (map_to_list m).*1
     | None => k :: (map_to_list m).*1
     end.
Proof.
  destruct (m !! k) as [old|] eqn:Hk.
  - rewrite <- (insert_delete_eq m k v).
    rewrite map_to_list_insert by apply lookup_delete_eq.
    rewrite <- (map_to_list_delete m k old Hk). done.
  - by rewrite map_to_list_insert.
Qed.

Lemma dir_outputs_insert_other (m : gmap string node) p k v :
  (∀ name, entry_name p k = Some name → Py.endswith ".a" name = false) →
  dir_outputs (<[k:=v]> m) p ≡ₚ dir_outputs m p.
Proof.
  intros Hk. unfold dir_outputs. rewrite keys_insert.
  destruct (m !! k); [done|]. simpl.
  destruct (entry_name p k) as [name|] eqn:Hname; [|done].
  rewrite filter_cons_False; [done|]. by rewrite (Hk name).
Qed.

Lemma dir_outputs_insert_output (m : gmap string node) p k v name :
  m !! k = None → entry_name p k = Some name → Py.endswith ".a" name = true →
  dir_outputs (<[k:=v]> m) p ≡ₚ name :: dir_outputs m p.
Proof.
  intros Hk Hname Ha. unfold dir_outputs. rewrite keys_insert, Hk. simpl.
  rewrite Hname. by rewrite filter_cons_True.
Qed.

Lemma getTestCasesCount_dir p w :
  fs w !! p = Some Dir →
  getTestCasesCount p w = (Ok (length (dir_outputs (fs w) p)), w).
Proof. intros Hp. unfold getTestCasesCount, bind, listdir. by rewrite Hp. Qed.

(** An output file that exists is one of the counted ones. *)
Lemma holds_cases_output_free m p n i :
  holds_cases m p n → n ≤ i → m !! path_join2 p (output_name i) = None.
Proof.
  intros (_ & Hperm & _) Hi.
  destruct (m !! path_join2 p (output_name i)) as [v|] eqn:Hk; [|done].
  exfalso.
  assert (output_name i ∈ dir_outputs m p) as Hin.
  { unfold dir_outputs. apply list_elem_of_filter. split; [apply output_name_a|].
    apply list_elem_of_omap. exists (path_join2 p (output_name i)).
    split; [|apply entry_name_join, output_name_like].
    apply list_elem_of_fmap. exists (path_join2 p (output_name i), v).
    split; [done|]. by apply elem_of_map_to_list. }
  rewrite Hperm in Hin. apply list_elem_of_fmap in Hin as (j & Hj & Hseq).
  apply output_name_inj in Hj as <-. apply elem_of_seq in Hseq. lia.
Qed.

(** ** Writing the cases *)

Section WriteCases.
Context (p : string) (name : nat → string).
Hypothesis name_like : ∀ k, entry_like (name k).
Hypothesis name_inj : ∀ i j, name i = name j → i = j.

Lemma write_cases_put n items : ∀ i w,
  (∀ k, n ≤ k → fs w !! path_join2 p (name k) ≠ Some Dir) →
  write_cases p name n i items w
  = (Ok tt, {| fs := put_cases p name n i items (fs w); log := log w |}).
Proof.
  induction items as [|x items IH]; intros i w Hfree; simpl.
  - by destruct w.
  - unfold bind, write_file. specialize (Hfree (i + n) ltac:(lia)) as Hk.
    destruct (fs w !! path_join2 p (name (i + n))) as [[|c]|] eqn:Hlook; [done|..];
      rewrite IH; try done; simpl; intros k Hnk; specialize (Hfree k Hnk);
      (destruct (decide (path_join2 p (name (i + n)) = path_join2 p (name k))) as [<-|Hne];
       [by rewrite lookup_insert_eq | by rewrite lookup_insert_ne]).
Qed.

Lemma put_cases_other n items : ∀ i m k,
  (∀ j, j < length items → k ≠ path_join2 p (name (i + j + n))) →
  put_cases p name n i items m !! k = m !! k.
Proof.
  induction items as [|x items IH]; intros i m k Hk; simpl; [done|].
  rewrite IH.
  - apply lookup_insert_ne. specialize (Hk 0). rewrite Nat.add_0_r in Hk.
    intros Heq. apply Hk; [simpl; lia|done].
  - intros j Hj. replace (S i + j + n) with (i + S j + n) by lia.
    apply Hk. simpl. lia.
Qed.

Lemma put_cases_stored n items : ∀ i m j x,
  items !! j = Some x →
  put_cases p name n i items m !! path_join2 p (name (i + j + n)) = Some (File x).
Proof.
  induction items as [|y items IH]; intros i m j x Hj; [done|].
  destruct j as [|j]; simpl in *.
  - injection Hj as ->. rewrite put_cases_other.
    + rewrite Nat.add_0_r. apply lookup_insert_eq.
    + intros j Hj Heq. apply path_join2_inj in Heq; [|done..].
      apply name_inj in Heq. lia.
  - replace (i + S j + n) with (S i + j + n) by lia. by apply IH.
Qed.

Lemma put_cases_dir_outputs_other n items :
  (∀ k, Py.endswith ".a" (name k) = false) →
  ∀ i m, dir_outputs (put_cases p name n i items m) p ≡ₚ dir_outputs m p.
Proof.
  intros Hna. induction items as [|x items IH]; intros i m; simpl; [done|].
  rewrite IH. apply dir_outputs_insert_other. intros nm.
  rewrite entry_name_join by done. intros [= <-]. apply Hna.
Qed.

Lemma put_cases_dir_outputs_new n items :
  (∀ k, Py.endswith ".a" (name k) = true) →
  ∀ i m,
    (∀ j, m !! path_join2 p (name (i + j + n)) = None) →
    dir_outputs (put_cases p name n i items m) p
    ≡ₚ dir_outputs m p ++ map name (seq (i + n) (length items)).
Proof.
  intros Ha. induction items as [|x items IH]; intros i m Hfree; simpl.
  - by rewrite app_nil_r.
  - rewrite IH.
    + rewrite dir_outputs_insert_output;
        [|specialize (Hfree 0); by rewrite Nat.add_0_r in Hfree
         |by apply entry_name_join|done].
      simpl. by rewrite Permutation_middle.
    + intros j. rewrite lookup_insert_ne.
      * replace (S i + j + n) with (i + S j + n) by lia. apply Hfree.
      * intros Heq. apply path_join2_inj in Heq; [|done..].
        apply name_inj in Heq. lia.
Qed.

End WriteCases.

(** ** A directory that was just created *)

Lemma strip_prefix_inv pre : ∀ k n, strip_prefix pre k = Some n → k = pre +:+ n.
Proof.
  induction pre as [|x pre IH]; intros [|y k] n; simpl; try done.
  - by intros [= <-].
  - by intros [= <-].
  - destruct (Ascii.eqb x y) eqn:Hxy; [|done]. apply Ascii.eqb_eq in Hxy as ->.
    intros H%IH. by rewrite app_cons, H.
Qed.

(** A path no longer than [p] is no entry of [p]. *)
Lemma entry_name_shorter p k :
  String.length k ≤ String.length p → entry_name p k = None.
Proof.
  intros Hlen. unfold entry_name.
  destruct (strip_prefix (dir_prefix p) k) as [n|] eqn:Hs; [|done].
  apply strip_prefix_inv in Hs. apply (f_equal String.length) in Hs.
  rewrite length_app_s in Hs. unfold dir_prefix in Hs.
  destruct (_ || _).
  - destruct n; [done|]. simpl in Hs. lia.
  - rewrite length_app_s in Hs. simpl in Hs. lia.
Qed.

Lemma parents_go_shorter rest : ∀ pre a,
  a ∈ parents_go pre rest → String.length a < String.length pre + String.length rest.
Proof.
  induction rest as [|c rest IH]; intros pre a; simpl; [by intros ?%elem_of_nil|].
  intros [Hhere|Hlater]%elem_of_app.
  - destruct (_ && _); [|by apply elem_of_nil in Hhere].
    apply list_elem_of_singleton in Hhere as ->. lia.
  - apply IH in Hlater. rewrite length_app_s in Hlater. simpl in Hlater. lia.
Qed.

Lemma parents_shorter p a : a ∈ parents p → String.length a < String.length p.
Proof. intros H%parents_go_shorter. simpl in H. lia. Qed.

Lemma omap_all_none {A B} (f : A → option B) (l : list A) :
  (∀ x, x ∈ l → f x = None) → omap f l = [].
Proof.
  induction l as [|x l IH]; intros Hall; simpl; [done|].
  rewrite (Hall x) by apply list_elem_of_here.
  apply IH. intros y Hy. apply Hall. by apply list_elem_of_further.
Qed.

(** The directory [makedirs] creates holds no case, provided nothing was
    recorded under its name before it existed. *)
Lemma makedirs_holds_cases p w w' :
  makedirs p w = (Ok tt, w') →
  (∀ k, is_Some (fs w !! k) → entry_name p k = None) →
  holds_cases (fs w') p 0.
Proof.
  intros Hmk Hclean. apply makedirs_lookup in Hmk as (Hp & _ & Hframe).
  assert (∀ k, is_Some (fs w' !! k) → entry_name p k = None) as Hnone.
  { intros k Hk. destruct (decide (k = p)) as [->|Hkp].
    - by apply entry_name_shorter.
    - destruct (decide (k ∈ parents p)) as [Hpar|Hpar].
      + apply entry_name_shorter. apply parents_shorter in Hpar. lia.
      + apply Hclean. by rewrite <- (Hframe k Hkp Hpar). }
  assert (∀ name, entry_like name → fs w' !! path_join2 p name = None) as Hfree.
  { intros name Hname.
    destruct (fs w' !! path_join2 p name) as [v|] eqn:Hk; [|done].
    pose proof (Hnone _ (mk_is_Some _ _ Hk)) as Hen.
    by rewrite entry_name_join in Hen. }
  split; [done|]. split; [|split].
  - unfold dir_outputs. rewrite omap_all_none; [done|].
    intros k [[k' v] [-> Hin]]%list_elem_of_fmap.
    apply elem_of_map_to_list in Hin. apply Hnone. by eexists.
  - intros i _. apply Hfree, input_name_like.
  - by rewrite (Hfree _ statement_like).
Qed.

(** ** [store_files] *)
Section Store.
Context (E : Env).

(** What one call of [store_files] leaves behind. *)
Lemma store_files_run site contest problem p n inputs outputs statement w :
  store_files_path E site contest problem = Some p →
  holds_cases (fs w) p n →
  store_files E site contest problem inputs outputs statement w
  = (Ok tt, {| fs := stored_files p n inputs outputs statement (fs w); log := log w |}).
Proof.
  intros Hp Hinv. pose proof Hinv as (Hdir & Hperm & Hin & Hst).
  unfold store_files. rewrite Hp. simpl. unfold bind at 1. unfold ret at 1.
  rewrite (bind_ok _ _ _ _ _ (getTestCasesCount_dir p w Hdir)).
  assert (length (dir_outputs (fs w) p) = n) as ->.
  { by rewrite Hperm, length_map, length_seq. }
  assert (∀ k, n ≤ k → fs w !! path_join2 p (input_name k) ≠ Some Dir) as Hfree.
  { intros k Hk. by rewrite Hin. }
  rewrite (bind_ok _ _ _ _ _ (write_cases_put p input_name n inputs 0 w Hfree)).
  erewrite bind_ok; cycle 1.
  { apply (write_cases_put p output_name). simpl. intros k Hk.
    rewrite (put_cases_other p input_name).
    - by rewrite (holds_cases_output_free _ _ _ _ Hinv Hk).
    - intros j _ Heq. apply path_join2_inj in Heq;
        [|apply output_name_like|apply input_name_like].
      by apply symmetry, input_output_name in Heq. }
  unfold stored_files, put_statement. destruct (Py.truthy statement); [|done].
  unfold write_file. simpl.
  rewrite (put_cases_other p output_name), (put_cases_other p input_name).
  - by destruct (fs w !! path_join2 p "statement.txt") as [[|c]|].
  - intros j _ Heq. apply path_join2_inj in Heq;
      [|apply statement_like|apply input_name_like].
    by apply symmetry, input_name_statement in Heq.
  - intros j _ Heq. apply path_join2_inj in Heq;
      [|apply statement_like|apply output_name_like].
    by apply symmetry, output_name_statement in Heq.
Qed.

(** The files of [stored_files], one kind at a time. *)
Lemma stored_files_lookup p n inputs outputs statement m :
  stored (stored_files p n inputs outputs statement m) p input_name n inputs
  ∧ stored (stored_files p n inputs outputs statement m) p output_name n outputs
  ∧ stored_files p n inputs outputs statement m !! path_join2 p "statement.txt"
    = (if Py.truthy statement then Some (File (default EmptyString statement))
       else m !! path_join2 p "statement.txt")
  ∧ ∀ k, (∀ j, j < length inputs → k ≠ path_join2 p (input_name (n + j))) →
         (∀ j, j < length outputs → k ≠ path_join2 p (output_name (n + j))) →
         (Py.truthy statement = true → k ≠ path_join2 p "statement.txt") →
         stored_files p n inputs outputs statement m !! k = m !! k.
Proof.
  assert (∀ k, (∀ j, j < length inputs → k ≠ path_join2 p (input_name (n + j))) →
               (∀ j, j < length outputs → k ≠ path_join2 p (output_name (n + j))) →
               (Py.truthy statement = true → k ≠ path_join2 p "statement.txt") →
               stored_files p n inputs outputs statement m !! k = m !! k) as Hother.
  { intros k Hi Ho Hs. unfold stored_files, put_statement.
    assert (put_cases p output_name n 0 outputs (put_cases p input_name n 0 inputs m) !! k
            = m !! k) as Hputs.
    { rewrite (put_cases_other p output_name), (put_cases_other p input_name); [done|..].
      - intros j Hj. rewrite Nat.add_0_l, Nat.add_comm. by apply Hi.
      - intros j Hj. rewrite Nat.add_0_l, Nat.add_comm. by apply Ho. }
    destruct (Py.truthy statement); [|done].
    rewrite lookup_insert_ne; [done|]. intros Heq. by apply Hs. }
  assert (∀ m', put_statement p statement m' !! path_join2 p "statement.txt"
                = (if Py.truthy statement then Some (File (default EmptyString statement))
                   else m' !! path_join2 p "statement.txt")) as Hstm.
  { intros m'. unfold put_statement. destruct (Py.truthy statement); [|done].
    apply lookup_insert_eq. }
  assert (∀ (name : nat → string) m' k, entry_like (name k) → name k ≠ "statement.txt" →
            put_statement p statement m' !! path_join2 p (name k)
            = m' !! path_join2 p (name k)) as Hskip.
  { intros name m' k Hlike Hne. unfold put_statement.
    destruct (Py.truthy statement); [|done]. apply lookup_insert_ne.
    intros Heq. apply path_join2_inj in Heq; [|apply statement_like|done]. done. }
  split; [|split; [|split]]; [| | |exact Hother].
  - intros j x Hj. unfold stored_files.
    rewrite (Hskip input_name) by (apply input_name_like || apply input_name_statement).
    rewrite (put_cases_other p output_name).
    + rewrite <- (Nat.add_0_l (n + j)), (Nat.add_comm n j), Nat.add_assoc.
      by apply (put_cases_stored p input_name input_name_like input_name_inj).
    + intros i _ Heq. apply path_join2_inj in Heq;
        [|apply input_name_like|apply output_name_like].
      by apply input_output_name in Heq.
  - intros j x Hj. unfold stored_files.
    rewrite (Hskip output_name) by (apply output_name_like || apply output_name_statement).
    rewrite <- (Nat.add_0_l (n + j)), (Nat.add_comm n j), Nat.add_assoc.
    by apply (put_cases_stored p output_name output_name_like output_name_inj).
  - unfold stored_files. rewrite Hstm.
    destruct (Py.truthy statement); [done|].
    rewrite (put_cases_other p output_name), (put_cases_other p input_name); [done|..].
    + intros j _ Heq. apply path_join2_inj in Heq;
        [|apply statement_like|apply input_name_like].
      by apply symmetry, input_name_statement in Heq.
    + intros j _ Heq. apply path_join2_inj in Heq;
        [|apply statement_like|apply output_name_like].
      by apply symmetry, output_name_statement in Heq.
Qed.

(** Storing as many outputs as inputs keeps the directory well formed, with
    that many cases more. *)
Lemma stored_files_holds_cases p n inputs outputs statement m :
  holds_cases m p n → length inputs = length outputs →
  holds_cases (stored_files p n inputs outputs statement m) p (n + length inputs).
Proof.
  intros Hinv Hlen. pose proof Hinv as (Hdir & Hperm & Hin & Hst).
  destruct (stored_files_lookup p n inputs outputs statement m)
    as (_ & _ & Hstm & Hother).
  split; [|split; [|split]].
  - rewrite Hother; [done|..]; intros; apply not_eq_sym, path_join2_not_dir;
      auto using input_name_like, output_name_like, statement_like.
  - unfold stored_files, put_statement.
    assert (dir_outputs
              (put_cases p output_name n 0 outputs (put_cases p input_name n 0 inputs m)) p
            ≡ₚ map output_name (seq 0 (n + length inputs))) as Hputs.
    { rewrite (put_cases_dir_outputs_new p output_name output_name_like output_name_inj);
        [|apply output_name_a|].
      - rewrite (put_cases_dir_outputs_other p input_name input_name_like);
          [|apply input_name_not_a].
        by rewrite Hperm, Hlen, seq_app, map_app.
      - intros j. rewrite (put_cases_other p input_name).
        + apply (holds_cases_output_free _ _ _ _ Hinv). lia.
        + intros i _ Heq. apply path_join2_inj in Heq;
            [|apply output_name_like|apply input_name_like].
          by apply symmetry, input_output_name in Heq. }
    destruct (Py.truthy statement); [|done].
    rewrite dir_outputs_insert_other; [done|].
    intros nm. rewrite entry_name_join by apply statement_like. by intros [= <-].
  - intros i Hi. rewrite Hother.
    + apply Hin. lia.
    + intros j Hj Heq. apply path_join2_inj in Heq; [|apply input_name_like..].
      apply input_name_inj in Heq. lia.
    + intros j Hj Heq. apply path_join2_inj in Heq;
        [|apply input_name_like|apply output_name_like].
      by apply input_output_name in Heq.
    + intros _ Heq. apply path_join2_inj in Heq;
        [|apply input_name_like|apply statement_like].
      by apply input_name_statement in Heq.
  - rewrite Hstm. by destruct (Py.truthy statement).
Qed.

(** C2: two calls of [store_files] in a row on a directory that holds
    [n] cases, the first with as many outputs as inputs.  The second call
    writes its inputs and outputs at the indices that follow those of the
    first, [n + length inputs1] and up; these names were free before it;
    it writes [statement.txt] when given a non-empty statement and
    leaves it alone otherwise; it touches no other file, so the cases of
    the first call and the older ones are as they were. *)
Theorem store_files_append_only
    (site contest problem : option string) (p : string) (n : nat) (w : World)
    (inputs1 outputs1 inputs2 outputs2 : list string)
    (statement1 statement2 : option string) :
  store_files_path E site contest problem = Some p →
  holds_cases (fs w) p n →
  length inputs1 = length outputs1 →
  ∃ w1 w2,
    store_files E site contest problem inputs1 outputs1 statement1 w = (Ok tt, w1)
    ∧ store_files E site contest problem inputs2 outputs2 statement2 w1 = (Ok tt, w2)
    ∧ stored (fs w2) p input_name (n + length inputs1) inputs2
    ∧ stored (fs w2) p output_name (n + length inputs1) outputs2
    ∧ (∀ j, fs w1 !! path_join2 p (input_name (n + length inputs1 + j)) = None
            ∧ fs w1 !! path_join2 p (output_name (n + length inputs1 + j)) = None)
    ∧ fs w2 !! path_join2 p "statement.txt"
      = (if Py.truthy statement2 then Some (File (default EmptyString statement2))
         else fs w1 !! path_join2 p "statement.txt")
    ∧ (∀ k,
         (∀ j, j < length inputs2 →
               k ≠ path_join2 p (input_name (n + length inputs1 + j))) →
         (∀ j, j < length outputs2 →
               k ≠ path_join2 p (output_name (n + length inputs1 + j))) →
         (Py.truthy statement2 = true → k ≠ path_join2 p "statement.txt") →
         fs w2 !! k = fs w1 !! k)
    ∧ stored (fs w2) p input_name n inputs1
    ∧ stored (fs w2) p output_name n outputs1
    ∧ (∀ i, i < n →
            fs w2 !! path_join2 p (input_name i) = fs w !! path_join2 p (input_name i)
            ∧ fs w2 !! path_join2 p (output_name i) = fs w !! path_join2 p (output_name i)).
Proof.
  intros Hp Hinv Hlen.
  pose proof (stored_files_holds_cases p n inputs1 outputs1 statement1 (fs w) Hinv Hlen)
    as Hinv1.
  set (m1 := stored_files p n inputs1 outputs1 statement1 (fs w)) in *.
  set (n1 := n + length inputs1) in *.
  exists {| fs := m1; log := log w |},
         {| fs := stored_files p n1 inputs2 outputs2 statement2 m1; log := log w |}.
  destruct (stored_files_lookup p n inputs1 outputs1 statement1 (fs w))
    as (Hin1 & Hout1 & _ & Hother1).
  destruct (stored_files_lookup p n1 inputs2 outputs2 statement2 m1)
    as (Hin2 & Hout2 & Hst2 & Hother2).
  fold m1 in Hin1, Hout1, Hother1.
  (* a file of an index below [n1] is not among those of the second call *)
  assert (∀ (name : nat → string) i,
            (name = input_name ∨ name = output_name) → i < n1 →
            stored_files p n1 inputs2 outputs2 statement2 m1 !! path_join2 p (name i)
            = m1 !! path_join2 p (name i)) as Hkeep.
  { intros name i Hname Hi. apply Hother2.
    - intros j _ Heq. destruct Hname as [-> | ->].
      + apply path_join2_inj in Heq; [|apply input_name_like..].
        apply input_name_inj in Heq. lia.
      + apply path_join2_inj in Heq; [|apply output_name_like|apply input_name_like].
        by apply symmetry, input_output_name in Heq.
    - intros j _ Heq. destruct Hname as [-> | ->].
      + apply path_join2_inj in Heq; [|apply input_name_like|apply output_name_like].
        by apply input_output_name in Heq.
      + apply path_join2_inj in Heq; [|apply output_name_like..].
        apply output_name_inj in Heq. lia.
    - intros _ Heq. destruct Hname as [-> | ->].
      + apply path_join2_inj in Heq; [|apply input_name_like|apply statement_like].
        by apply input_name_statement in Heq.
      + apply path_join2_inj in Heq; [|apply output_name_like|apply statement_like].
        by apply output_name_statement in Heq. }
  split; [by apply store_files_run|].
  split; [by apply (store_files_run _ _ _ _ _ _ _ _ {| fs := m1; log := log w |})|].
  simpl. split; [exact Hin2|]. split; [exact Hout2|].
  split.
  { intros j. split.
    - destruct Hinv1 as (_ & _ & Hfree & _). apply Hfree. lia.
    - apply (holds_cases_output_free _ _ _ _ Hinv1). lia. }
  split; [exact Hst2|]. split; [exact Hother2|].
  split.
  { intros j x Hj. rewrite (Hkeep input_name); [by apply Hin1|by left|].
    apply lookup_lt_Some in Hj. unfold n1. lia. }
  split.
  { intros j x Hj. rewrite (Hkeep output_name); [by apply Hout1|by right|].
    apply lookup_lt_Some in Hj. unfold n1. lia. }
  intros i Hi. rewrite (Hkeep input_name), (Hkeep output_name);
    [|by right|unfold n1; lia|by left|unfold n1; lia].
  split; apply Hother1.
  - intros j _ Heq. apply path_join2_inj in Heq; [|apply input_name_like..].
    apply input_name_inj in Heq. lia.
  - intros j _ Heq. apply path_join2_inj in Heq;
      [|apply input_name_like|apply output_name_like].
    by apply input_output_name in Heq.
  - intros _ Heq. apply path_join2_inj in Heq;
      [|apply input_name_like|apply statement_like].
    by apply input_name_statement in Heq.
  - intros j _ Heq. apply path_join2_inj in Heq;
      [|apply output_name_like|apply input_name_like].
    by apply symmetry, input_output_name in Heq.
  - intros j _ Heq. apply path_join2_inj in Heq; [|apply output_name_like..].
    apply output_name_inj in Heq. lia.
  - intros _ Heq. apply path_join2_inj in Heq;
      [|apply output_name_like|apply statement_like].
    by apply output_name_statement in Heq.
Qed.

End Store.

(** ** The model at work *)

Example split_slash : Py.split Py.slash "a/b//c" = ["a"; "b"; ""; "c"].
Proof. reflexivity. Qed.

Example split_empty : Py.split Py.nl EmptyString = [EmptyString].
Proof. reflexivity. Qed.

Example strip_blanks : Py.strip ("  a b " +:+ String Py.nl EmptyString) = "a b".
Proof. reflexivity. Qed.

Example str_decimal : Py.str 0 = "0" ∧ Py.str 120 = "120".
Proof. split; reflexivity. Qed.

Example normalize_lines :
  normalize (" 1 2  " +:+ String Py.nl ("3 " +:+ String Py.nl EmptyString))
  = "1 2" +:+ String Py.nl "3".
Proof. reflexivity. Qed.

Example path_join_absolute :
  path_join "/home/u" [Some "a"; Some "/etc"; Some "b"] = Some "/etc/b".
Proof. reflexivity. Qed.

Example path_join_none : path_join "/home/u" [Some "a"; None] = None.
Proof. reflexivity. Qed.

Example parents_of_a_path : parents "/home/u/x" = ["/home"; "/home/u"].
Proof. reflexivity. Qed.

Example py_int_examples :
  py_int " 42 " = Some 42%Z ∧ py_int "-7" = Some (-7)%Z ∧ py_int "gym" = None.
Proof. repeat split; reflexivity. Qed.

(** The accepted run of the specification's scenario: exit status 0 and
    the output [6] give AC, and the table shows the output. *)
Example run_solution_accepted :
  run_solution (demo_env 0 0 ("6" +:+ String Py.nl EmptyString)) 1 demo_args demo_world
  = (Ok tt,
     {| fs := demo_files;
        log := [ESystem ("clang++ -DONLINE_JUDGE -include /home/igorjan/206round/bits.h"
                         +:+ " -O2 -std=c++17 -o sol '/work/sol.cpp'");
                ESystem ("timeout 2s ./sol < " +:+ demo_dir +:+ "/0 > temp_output0");
                ETable table_header
                  [{| serial := 1;
                      row_input := "3" +:+ String Py.nl "1 2 3";
                      row_expected := "6";
                      row_your := "6";
                      row_result := verdicts AC |}]] |}).
Proof. vm_compute. reflexivity. Qed.

(** A run that ends with status 124 is TLE, and its output is withheld. *)
Example run_solution_timeout :
  (run_solution (demo_env 0 124 EmptyString) 1 demo_args demo_world).1 = Ok tt
  ∧ ETable table_header
      [{| serial := 1;
          row_input := "3" +:+ String Py.nl "1 2 3";
          row_expected := "6";
          row_your := "N/A";
          row_result := verdicts TLE |}]
    ∈ log (run_solution (demo_env 0 124 EmptyString) 1 demo_args demo_world).2.
Proof.
  split; [vm_compute; reflexivity|].
  vm_compute. apply list_elem_of_further, list_elem_of_further, list_elem_of_here.
Qed.

(** Where the pairing of inputs and outputs matters: after a store of two
    inputs with one output the count is 1, and the next store puts its
    input over the second input of the first. *)
Example store_files_unpaired :
  ∃ w1 w2,
    store_files (demo_env 0 0 EmptyString) (Some "codeforces") (Some "1") (Some "A")
      ["first"; "second"] ["out"] None fresh_world = (Ok tt, w1)
    ∧ fs w1 !! (demo_dir +:+ "/1") = Some (File "second")
    ∧ store_files (demo_env 0 0 EmptyString) (Some "codeforces") (Some "1") (Some "A")
        ["third"] ["out3"] None w1 = (Ok tt, w2)
    ∧ fs w2 !! (demo_dir +:+ "/1") = Some (File "third").
Proof.
  eexists _, _. split; [vm_compute; reflexivity|].
  split; [vm_compute; reflexivity|].
  split; vm_compute; reflexivity.
Qed.

(** The whole of [scrape_contest] on the second machine: two waves, the
    second for [B] alone, and nothing said about [B] at the end. *)
Example scrape_contest_two_waves :
  (scrape_contest retry_env retry_self retry_world).1 = Ok tt
  ∧ log (scrape_contest retry_env retry_self retry_world).2
    = [EPrint "Checking problems available for contest 1...";
       EGet "https://codeforces.com/contest/1?locale=ru";
       EPrint "Found 2 problems..";
       EBatch [link_A; link_B];
       EBatch [link_B]].
Proof. split; vm_compute; reflexivity. Qed.

(** ** The theorems at work on the concrete machines *)

(** C1 on the first machine when the solution runs out of time:
    [timeout] ends with exit code 124, [os.system] returns 31744, and the
    case is reported RTE. *)
Lemma run_command_on_one_test_timeout_witness :
  run_command_on_one_test (demo_env 0 31744 EmptyString) demo_dir 0 "./sol" demo_world
  = (Ok ("6", EmptyString, verdicts RTE),
     {| fs := <["temp_output0" := File EmptyString]> demo_files;
        log := [ESystem (case_command demo_dir 0 "./sol")] |})
  ∧ verdicts RTE ≠ verdicts TLE.
Proof.
  destruct (run_command_on_one_test_timeout (demo_env 0 31744 EmptyString)
              demo_dir 0 "./sol" demo_world) as (Hrun & Hne & _).
  - vm_compute. reflexivity.
  - vm_compute. reflexivity.
  - split; [exact Hrun|exact Hne].
Defined.

(** The verdict on the first machine when the solution prints [6] and a
    newline and [os.system] returns 0: the case is accepted. *)
Lemma run_command_on_one_test_verdict_witness :
  run_command_on_one_test (demo_env 0 0 ("6" +:+ String Py.nl EmptyString))
    demo_dir 0 "./sol" demo_world
  = (Ok ("6", "6", verdicts AC),
     {| fs := <["temp_output0" := File ("6" +:+ String Py.nl EmptyString)]> demo_files;
        log := [ESystem (case_command demo_dir 0 "./sol")] |}).
Proof.
  refine (proj1 (run_command_on_one_test_verdict
                   (demo_env 0 0 ("6" +:+ String Py.nl EmptyString))
                   demo_dir 0 "./sol" demo_world _ _)).
  - vm_compute. reflexivity.
  - intros _. vm_compute. reflexivity.
Defined.

(** C2 on a fresh directory: of two stores, the second case lands at
    index 1 and the first is kept. *)
Lemma store_files_append_only_witness :
  ∃ w1 w2,
    store_files (demo_env 0 0 EmptyString) (Some "codeforces") (Some "1") (Some "A")
      ["1 2"] ["3"] (Some "Add.") fresh_world = (Ok tt, w1)
    ∧ store_files (demo_env 0 0 EmptyString) (Some "codeforces") (Some "1") (Some "A")
        ["5 6"] ["11"] None w1 = (Ok tt, w2)
    ∧ fs w2 !! (demo_dir +:+ "/1") = Some (File "5 6")
    ∧ fs w2 !! (demo_dir +:+ "/1.a") = Some (File "11")
    ∧ fs w2 !! (demo_dir +:+ "/0") = Some (File "1 2")
    ∧ fs w2 !! (demo_dir +:+ "/0.a") = Some (File "3").
Proof.
  assert (holds_cases (fs fresh_world) demo_dir 0) as Hinv.
  { split; [reflexivity|]. split; [vm_compute; reflexivity|]. split.
    - intros i _. apply lookup_singleton_ne, not_eq_sym, path_join2_not_dir,
        input_name_like.
    - vm_compute. discriminate. }
  destruct (store_files_append_only (demo_env 0 0 EmptyString)
              (Some "codeforces") (Some "1") (Some "A") demo_dir 0 fresh_world
              ["1 2"] ["3"] ["5 6"] ["11"] (Some "Add.") None
              eq_refl Hinv eq_refl)
    as (w1 & w2 & H1 & H2 & Hin2 & Hout2 & _ & _ & _ & Hin1 & Hout1 & _).
  exists w1, w2. split; [exact H1|]. split; [exact H2|].
  split; [exact (Hin2 0 "5 6" eq_refl)|].
  split; [exact (Hout2 0 "11" eq_refl)|].
  split; [exact (Hin1 0 "1 2" eq_refl)|exact (Hout1 0 "3" eq_refl)].
Defined.

(** C3 on the first machine: the cached problem is a hit; a problem not
    yet cached is a miss that creates its directory. *)
Lemma check_cache_spec_witness :
  check_cache (demo_env 0 0 EmptyString) (Some "codeforces") (Some "1") (Some "A")
    demo_world = (Ok true, demo_world)
  ∧ ∃ w', check_cache (demo_env 0 0 EmptyString) (Some "codeforces") (Some "1")
            (Some "B") demo_world = (Ok false, w')
          ∧ is_dir (fs w') "/home/u/.cache/ACedIt/codeforces/1/B" = true.
Proof.
  pose proof (check_cache_spec (demo_env 0 0 EmptyString) (Some "codeforces") (Some "1")
                demo_world) as [Hset _].
  split.
  - exact (proj1 (proj2 (Hset "A" demo_dir eq_refl)) eq_refl).
  - exact (proj2 (proj2 (Hset "B" "/home/u/.cache/ACedIt/codeforces/1/B" eq_refl))
             eq_refl eq_refl).
Defined.

(** C4 on the second machine: both links are fetched; [B] fails, is
    requested once more, and no third wave follows. *)
Lemma scrape_contest_waves_retry_witness :
  [link_B] = failed_urls (grq_map retry_env [link_A; link_B] retry_world)
  ∧ batches (log (scrape_contest_waves retry_env retry_self [link_A; link_B]
                    retry_world).2)
    = [[link_A; link_B]; [link_B]]
  ∧ (scrape_contest_waves retry_env retry_self [link_A; link_B] retry_world).1 = Ok tt.
Proof.
  destruct (scrape_contest_waves_retry retry_env retry_self
              (set_problem retry_self (Some "A")) [link_A; link_B] [link_B] retry_world
              (handle_batch_requests retry_env retry_self [link_A; link_B] retry_world).2
              ltac:(discriminate) eq_refl)
    as (Hfailed & _ & Hretry).
  split; [exact Hfailed|].
  destruct (Hretry ltac:(discriminate)
              (scrape_contest_waves retry_env retry_self [link_A; link_B] retry_world).1
              (scrape_contest_waves retry_env retry_self [link_A; link_B] retry_world).2)
    as [Hb Hdrop].
  { by destruct (scrape_contest_waves _ _ _ _). }
  split; [exact Hb|].
  exact (proj1 (Hdrop (set_problem retry_self (Some "A")) [link_B] _ eq_refl)).
Defined.

(** C7 on the first machine: the cached problem is found, and nothing
    is fetched. *)
Lemma download_problem_testcases_cache_witness :
  download_problem_testcases (demo_env 0 0 EmptyString) demo_args demo_world
  = (Exit 0, {| fs := demo_files; log := [EPrint "Test cases found in cache..."] |}).
Proof.
  exact (proj1 (download_problem_testcases_cache (demo_env 0 0 EmptyString) demo_args
                  {| cls := Codeforces; p_site := Some "codeforces";
                     p_contest := Some "1"; p_problem := Some "A";
                     force_download := false |}
                  true demo_world demo_world demo_world eq_refl eq_refl)
           eq_refl eq_refl).
Defined.


(** C10 on the first machine, whose network answers nothing: a batch
    whose only response is [None] raises. *)
Lemma handle_batch_requests_null_response_witness :
  handle_batch_requests (demo_env 0 0 EmptyString) retry_self [link_A] retry_world
  = (Raise AttributeError, {| fs := fs retry_world; log := [EBatch [link_A]] |}).
Proof.
  refine (proj1 (handle_batch_requests_null_response (demo_env 0 0 EmptyString)
                   retry_self [link_A] retry_world [] [] _ eq_refl) _ _ eq_refl).
  discriminate.
Defined.

(** C8 on the first machine: on Spoj the case path has no contest
    segment. *)
Lemma spoj_contest_normalized_witness :
  check_cache_path (demo_env 0 0 EmptyString) (Some "spoj") (Some "JUNE17") (Some "TEST")
  = Some "/home/u/.cache/ACedIt/spoj/TEST".
Proof.
  exact (eq_trans
           (proj1 (proj1 (spoj_contest_normalized (demo_env 0 0 EmptyString)
                            (Some "JUNE17") "TEST")))
           eq_refl).
Defined.

(** ** Fetching one page *)
Section GetHtml.
Context (E : Env).

Lemma world_eq (w : World) (m : gmap string node) (l : list event) :
  fs w = m → log w = l → w = {| fs := m; log := l |}.
Proof. destruct w. simpl. by intros -> ->. Qed.

Lemma try_except_ok {A} (m h : M A) w a w' :
  m w = (Ok a, w') → try_except m h w = (Ok a, w').
Proof. unfold try_except. by intros ->. Qed.

Lemma try_except_exit {A} (m h : M A) w c w' :
  m w = (Exit c, w') → try_except m h w = (Exit c, w').
Proof. unfold try_except. by intros ->. Qed.

Lemma try_except_raise {A} (m h : M A) w e w' :
  m w = (Raise e, w') → try_except m h w = h w'.
Proof. unfold try_except. by intros ->. Qed.

Lemma requested_S link j w :
  requested link j {| fs := fs w; log := log w ++ [EGet link] |}
  = requested link (S j) w.
Proof. unfold requested. simpl. by rewrite <- app_assoc. Qed.

Lemma requested_0 link w : requested link 0 w = w.
Proof. unfold requested. simpl. rewrite app_nil_r. by destruct w. Qed.

(** The loop of [get_html]: [k] requests; the answers before the [k]-th
    had another status than 200, and the [k]-th is the one handed on,
    with status 200 unless the tries are used up, or the one that
    raised. *)
Lemma get_html_for_outcome link range : ∀ cur w res w',
  get_html_for E range link cur w = (res, w') →
  ∃ k, k ≤ length range
    ∧ w' = requested link k w
    ∧ (∀ j, j < k - 1 →
         ∃ r, rq_get E link (requested link j w) = Some r ∧ status_code r ≠ 200%Z)
    ∧ match res with
      | Ok x =>
          (k = 0 ∧ range = [] ∧ x = cur)
          ∨ (1 ≤ k ∧ ∃ t r, x = Some (t, r) ∧ range !! (k - 1) = Some t
                     ∧ rq_get E link (requested link (k - 1) w) = Some r
                     ∧ (status_code r = 200%Z ∨ k = length range))
      | Raise _ => 1 ≤ k ∧ rq_get E link (requested link (k - 1) w) = None
      | Exit _ => False
      end.
Proof.
  induction range as [|t range IH]; intros cur w res w' H; simpl in H.
  - injection H as <- <-. exists 0. rewrite requested_0.
    split; [done|]. split; [done|]. split; [intros j Hj; lia|]. by left.
  - unfold bind, requests_get in H. destruct (rq_get E link w) as [r|] eqn:Hget.
    + destruct (status_code r =? 200)%Z eqn:Hst.
      * injection H as <- <-. exists 1. apply Z.eqb_eq in Hst.
        split; [simpl; lia|]. split; [done|]. split; [intros j Hj; lia|].
        right. split; [lia|]. exists t, r. rewrite requested_0. auto.
      * apply Z.eqb_neq in Hst.
        apply IH in H as (k & Hk & -> & Hbefore & Hres). exists (S k).
        split; [simpl; lia|]. split; [apply requested_S|].
        split.
        { intros [|j] Hj.
          - rewrite requested_0. eauto.
          - destruct (Hbefore j) as (r0 & Hr0 & Hs0); [lia|].
            rewrite requested_S in Hr0. eauto. }
        destruct res as [x|c|e]; [|done|].
        -- right. split; [lia|].
           destruct Hres as [(-> & -> & ->)|(Hk1 & t' & r' & -> & Hlook & Hget' & Hlast)].
           ++ exists t, r. cbn [Nat.sub]. rewrite requested_0.
              split; [done|]. split; [done|]. split; [done|]. by right.
           ++ exists t', r'. split; [done|].
              destruct k as [|k]; [lia|]. cbn [Nat.sub] in *.
              rewrite Nat.sub_0_r in *. rewrite requested_S in Hget'.
              split; [done|]. split; [done|].
              destruct Hlast as [?| ->]; [by left|by right].
        -- destruct Hres as [Hk1 Hnone]. split; [lia|].
           destruct k as [|k]; [lia|]. cbn [Nat.sub] in *.
           rewrite Nat.sub_0_r in *. by rewrite requested_S in Hnone.
    + injection H as <- <-. exists 1.
      split; [simpl; lia|]. split; [done|]. split; [intros j Hj; lia|].
      split; [lia|]. by rewrite requested_0.
Qed.

(** X1: [get_html] sends one, two or three requests for the link and
    nothing else.  Every answer before the last had another status than
    200.  When the last request is answered, that answer is what
    [get_html] returns, and it has status 200 unless it is the third; when
    the last request raises, [get_html] prints the connection message and
    leaves with status 0.  It never raises and never prints that the
    content could not be fetched. *)
Theorem get_html_outcome (link : string) (w : World) :
  ∃ k, 1 ≤ k ≤ 3
    ∧ (∀ j, j < k - 1 →
         ∃ r, rq_get E link (requested link j w) = Some r ∧ status_code r ≠ 200%Z)
    ∧ match rq_get E link (requested link (k - 1) w) with
      | Some r =>
          (status_code r = 200%Z ∨ k = 3)
          ∧ get_html E link w = (Ok r, requested link k w)
      | None =>
          get_html E link w
          = (Exit 0,
             {| fs := fs w;
                log := log w ++ replicate k (EGet link)
                       ++ [EPrint "Please check your internet connection and try again."] |})
      end.
Proof.
  destruct (get_html_for E (seq 0 MAX_TRIES) link None w) as [res w1] eqn:Hfor.
  pose proof (get_html_for_outcome _ _ _ _ _ _ Hfor) as (k & Hk & -> & Hbefore & Hres).
  simpl in Hk. unfold get_html.
  destruct res as [x|c|e]; [|done|].
  - destruct Hres as [(_ & [=] & _)|(Hk1 & t & r & -> & Hlook & Hget & Hlast)].
    exists k. split; [lia|]. split; [done|]. rewrite Hget.
      simpl in Hlast. split; [done|].
      assert (t < 3) as Ht.
      { apply lookup_lt_Some in Hlook as Hlen. simpl in Hlen.
        destruct k as [|[|[|[|]]]]; simpl in Hlook; try lia;
          injection Hlook as <-; lia. }
      erewrite try_except_ok; [reflexivity|].
      rewrite (bind_ok _ _ _ _ _ Hfor). unfold bind, need, ret. cbn [fst snd].
      by assert ((MAX_TRIES <=? t) = false) as -> by (apply Nat.leb_gt; exact Ht).
  - destruct Hres as [Hk1 Hnone]. exists k. split; [lia|]. split; [done|].
    rewrite Hnone.
    erewrite try_except_raise; [|apply (bind_raise _ _ _ _ _ Hfor)].
    unfold bind, print, emit, sys_exit, requested. simpl.
    by rewrite <- app_assoc.
Qed.

End GetHtml.

(** ** What the downloads never do *)

Create HintDb keeps discriminated.

Lemma keeps_paths_same {A} (m : M A) :
  (∀ w r w', m w = (r, w') → fs w' = fs w ∧ ∀ c, r = Exit c → c = 0%Z) →
  keeps_paths m.
Proof.
  intros Hm w r w' H. destruct (Hm _ _ _ H) as [Hfs Hc]. rewrite Hfs. auto.
Qed.

Lemma keeps_paths_ret {A} (a : A) : keeps_paths (ret a).
Proof. apply keeps_paths_same. by intros w r w' [= <- <-]. Qed.

Lemma keeps_paths_raise {A} (e : exn) : keeps_paths (@raise A e).
Proof. apply keeps_paths_same. by intros w r w' [= <- <-]. Qed.

Lemma keeps_paths_exit0 {A} : keeps_paths (@sys_exit A 0).
Proof. apply keeps_paths_same. intros w r w' [= <- <-]. split; [done|]. by intros c [= <-]. Qed.

Lemma keeps_paths_bind {A B} (m : M A) (k : A → M B) :
  keeps_paths m → (∀ a, keeps_paths (k a)) → keeps_paths (bind m k).
Proof.
  intros Hm Hk w r w'. unfold bind.
  destruct (m w) as [[a|c|e] w1] eqn:Hmw; apply Hm in Hmw as (Hd & Hs & Hc).
  - intros Hka. apply Hk in Hka as (Hd' & Hs' & Hc').
    split; [|split]; [intros q Hq; by apply Hd', Hd|intros q Hq; by apply Hs', Hs|done].
  - intros [= <- <-]. split; [|split]; [done..|]. intros c' [= <-]. by apply Hc.
  - intros [= <- <-]. by split; [|split].
Qed.

Lemma keeps_paths_if {A} (b : bool) (m1 m2 : M A) :
  keeps_paths m1 → keeps_paths m2 → keeps_paths (if b then m1 else m2).
Proof. by destruct b. Qed.

Lemma keeps_paths_need {A} (e : exn) (o : option A) : keeps_paths (need e o).
Proof. destruct o; [apply keeps_paths_ret | apply keeps_paths_raise]. Qed.

Lemma keeps_paths_emit (e : event) : keeps_paths (emit e).
Proof. apply keeps_paths_same. by intros w r w' [= <- <-]. Qed.

Lemma keeps_paths_print (line : string) : keeps_paths (print line).
Proof. apply keeps_paths_emit. Qed.

Lemma keeps_paths_cat parts : keeps_paths (cat parts).
Proof. apply keeps_paths_need. Qed.

Lemma keeps_paths_os_path_join a p : keeps_paths (os_path_join a p).
Proof. apply keeps_paths_need. Qed.

Lemma keeps_paths_isdir p : keeps_paths (isdir p).
Proof. apply keeps_paths_same. by intros w r w' [= <- <-]. Qed.

Lemma keeps_paths_listdir p : keeps_paths (listdir p).
Proof.
  apply keeps_paths_same. intros w r w'. unfold listdir.
  destruct (fs w !! p) as [[|c]|]; by intros [= <- <-].
Qed.

Lemma foldr_insert_dir (l : list string) (m : gmap string node) (q : string) :
  foldr (λ a m, <[a := Dir]> m) m l !! q = if decide (q ∈ l) then Some Dir else m !! q.
Proof.
  induction l as [|a l IH]; simpl; [done|].
  destruct (decide (a = q)) as [->|Hne].
  - rewrite lookup_insert_eq. rewrite decide_True; [done|]. apply list_elem_of_here.
  - rewrite lookup_insert_ne by done. rewrite IH.
    destruct (decide (q ∈ l)) as [Hin|Hin].
    + rewrite decide_True; [done|]. by apply list_elem_of_further.
    + rewrite decide_False; [done|]. intros [?|?]%elem_of_cons; congruence.
Qed.

(** [makedirs] changes nothing that exists. *)
Lemma makedirs_keeps p w r w' q v :
  makedirs p w = (r, w') → fs w !! q = Some v → fs w' !! q = Some v.
Proof.
  unfold makedirs. destruct (existsb _ _) eqn:Hfiles; [by intros [= <- <-]|].
  destruct (fs w !! p) eqn:Hp; [by intros [= <- <-]|].
  intros [= <- <-] Hq. simpl.
  rewrite lookup_insert_ne by congruence. rewrite foldr_insert_dir.
  destruct (decide (q ∈ parents p)) as [Hin|]; [|done].
  destruct v as [|c]; [done|]. exfalso.
  assert (existsb (is_file (fs w)) (parents p) = true) as Hex; [|congruence].
  apply existsb_exists. exists q. split; [by apply list_elem_of_In|].
  unfold is_file. by rewrite Hq.
Qed.

Lemma makedirs_exit p w c w' : makedirs p w ≠ (Exit c, w').
Proof.
  unfold makedirs. destruct (existsb _ _); [done|]. by destruct (fs w !! p).
Qed.

Lemma keeps_paths_makedirs p : keeps_paths (makedirs p).
Proof.
  intros w r w' H. split; [|split].
  - intros q Hq. by apply (makedirs_keeps _ _ _ _ _ _ H).
  - intros q [v Hv]. exists v. by apply (makedirs_keeps _ _ _ _ _ _ H).
  - intros c ->. by apply makedirs_exit in H.
Qed.

Lemma keeps_paths_write_file p content : keeps_paths (write_file p content).
Proof.
  intros w r w'. unfold write_file.
  destruct (fs w !! p) as [[|c]|] eqn:Hp; intros [= <- <-]; simpl;
    (split; [|split; [|done]]); try done.
  - intros q Hq. rewrite lookup_insert_ne; [done|]. congruence.
  - intros q Hq. rewrite lookup_insert. by case_decide.
  - intros q Hq. rewrite lookup_insert_ne; [done|]. congruence.
  - intros q Hq. rewrite lookup_insert. by case_decide.
Qed.

Lemma keeps_paths_for_each {A S} (body : S → A → M S) (l : list A) :
  (∀ s x, keeps_paths (body s x)) → ∀ s, keeps_paths (for_each body s l).
Proof.
  intros Hbody. induction l as [|x l IH]; intros s; simpl.
  - apply keeps_paths_ret.
  - apply keeps_paths_bind; [apply Hbody | apply IH].
Qed.

Lemma keeps_paths_map_m {A B} (f : A → M B) (l : list A) :
  (∀ x, keeps_paths (f x)) → keeps_paths (map_m f l).
Proof.
  intros Hf. induction l as [|x l IH]; simpl.
  - apply keeps_paths_ret.
  - apply keeps_paths_bind; [apply Hf|]. intros y.
    apply keeps_paths_bind; [apply IH|]. intros ys. apply keeps_paths_ret.
Qed.

Lemma keeps_paths_try_except {A} (m h : M A) :
  keeps_paths m → keeps_paths h → keeps_paths (try_except m h).
Proof.
  intros Hm Hh w r w'. unfold try_except.
  destruct (m w) as [[a|c|e] w1] eqn:Hmw; apply Hm in Hmw as (Hd & Hs & Hc).
  - intros [= <- <-]. by split; [|split].
  - intros [= <- <-]. split; [|split]; [done..|]. intros c' [= <-]. by apply Hc.
  - intros Hhw. apply Hh in Hhw as (Hd' & Hs' & Hc').
    split; [|split]; [intros q Hq; by apply Hd', Hd|intros q Hq; by apply Hs', Hs|done].
Qed.

Global Hint Resolve keeps_paths_ret keeps_paths_raise keeps_paths_exit0
  keeps_paths_need keeps_paths_print keeps_paths_emit keeps_paths_cat
  keeps_paths_os_path_join keeps_paths_isdir keeps_paths_listdir
  keeps_paths_makedirs keeps_paths_write_file keeps_paths_if keeps_paths_bind
  : keeps.

Section Keeps.
Context (E : Env).

Lemma keeps_paths_requests_get link : keeps_paths (requests_get E link).
Proof.
  apply keeps_paths_same. intros w r w'. unfold requests_get.
  destruct (rq_get E link w); by intros [= <- <-].
Qed.

Lemma keeps_paths_grequests_map links : keeps_paths (grequests_map E links).
Proof. apply keeps_paths_same. by intros w r w' [= <- <-]. Qed.

Lemma keeps_paths_get_html link : keeps_paths (get_html E link).
Proof.
  unfold get_html. apply keeps_paths_try_except; [|eauto 10 with keeps].
  apply keeps_paths_bind.
  - generalize (@None (nat * Response)). generalize (seq 0 MAX_TRIES).
    induction l as [|t l IH]; intros cur; simpl; [eauto with keeps|].
    apply keeps_paths_bind; [apply keeps_paths_requests_get|]. intros r.
    apply keeps_paths_if; eauto with keeps.
  - intros x. eauto 10 with keeps.
Qed.

Lemma keeps_paths_check_cache site contest problem :
  keeps_paths (check_cache E site contest problem).
Proof.
  unfold check_cache. destruct problem; eauto 20 with keeps.
Qed.

Lemma keeps_paths_write_cases path name n items : ∀ i,
  keeps_paths (write_cases path name n i items).
Proof.
  induction items as [|x items IH]; intros i; simpl; eauto 10 with keeps.
Qed.

Lemma keeps_paths_store_files site contest problem inputs outputs statement :
  keeps_paths (store_files E site contest problem inputs outputs statement).
Proof.
  pose proof keeps_paths_write_cases.
  unfold store_files, getTestCasesCount. eauto 30 with keeps.
Qed.

Lemma keeps_paths_handle_kbd_interrupt site contest problem :
  keeps_paths (handle_kbd_interrupt site contest problem).
Proof. unfold handle_kbd_interrupt. eauto 10 with keeps. Qed.

Lemma keeps_paths_not_found {A} message self : keeps_paths (@not_found A message self).
Proof.
  pose proof keeps_paths_handle_kbd_interrupt.
  unfold not_found. eauto 10 with keeps.
Qed.

Lemma keeps_paths_codeforces_parse_html self req :
  keeps_paths (codeforces_parse_html E self req).
Proof.
  unfold codeforces_parse_html.
  destruct (codeforces_blocks E req) as [[ins outs] sts].
  apply keeps_paths_if; [apply keeps_paths_not_found|]. eauto 10 with keeps.
Qed.

Lemma keeps_paths_codechef_parse_html self req :
  keeps_paths (codechef_parse_html E self req).
Proof.
  unfold codechef_parse_html.
  destruct (codechef_blocks E req); [apply keeps_paths_ret | apply keeps_paths_not_found].
Qed.

Lemma keeps_paths_spoj_parse_html self req :
  keeps_paths (spoj_parse_html E self req).
Proof.
  unfold spoj_parse_html.
  apply keeps_paths_if; [apply keeps_paths_not_found | apply keeps_paths_ret].
Qed.

Lemma keeps_paths_hackerrank_parse_html self req :
  keeps_paths (hackerrank_parse_html E self req).
Proof.
  unfold hackerrank_parse_html.
  destruct (hackerrank_blocks E req); [apply keeps_paths_ret | apply keeps_paths_not_found].
Qed.

Lemma keeps_paths_codeforces_type contest : keeps_paths (codeforces_type contest).
Proof. unfold codeforces_type. eauto 10 with keeps. Qed.

Lemma keeps_paths_scrape_problem self : keeps_paths (scrape_problem E self).
Proof.
  pose proof keeps_paths_get_html. pose proof keeps_paths_store_files.
  pose proof keeps_paths_codeforces_type.
  unfold scrape_problem. destruct (cls self).
  - unfold codeforces_scrape_problem.
    do 6 (apply keeps_paths_bind; [eauto with keeps|intros ?]).
    apply keeps_paths_bind; [apply keeps_paths_codeforces_parse_html|].
    intros [[ins outs] text]. eauto 10 with keeps.
  - unfold codechef_scrape_problem.
    do 4 (apply keeps_paths_bind; [eauto with keeps|intros ?]).
    apply keeps_paths_bind; [apply keeps_paths_codechef_parse_html|].
    intros parsed. eauto 10 with keeps.
  - unfold spoj_scrape_problem.
    do 4 (apply keeps_paths_bind; [eauto with keeps|intros ?]).
    apply keeps_paths_bind; [apply keeps_paths_spoj_parse_html|].
    intros parsed. eauto 10 with keeps.
  - unfold hackerrank_scrape_problem.
    do 4 (apply keeps_paths_bind; [eauto with keeps|intros ?]).
    apply keeps_paths_bind; [apply keeps_paths_hackerrank_parse_html|].
    intros parsed. eauto 10 with keeps.
Qed.

Lemma keeps_paths_get_platform args : keeps_paths (get_platform args).
Proof.
  unfold get_platform, Codeforces_init, Codechef_init, Spoj_init, Hackerrank_init.
  repeat apply keeps_paths_if; eauto 10 with keeps.
Qed.

Lemma keeps_paths_json_handle_response parse st response :
  (∀ self req, keeps_paths (parse self req)) →
  keeps_paths (json_handle_response E parse st response).
Proof.
  intros Hparse. destruct st as [self failed].
  unfold json_handle_response, response_url. apply keeps_paths_if.
  - apply keeps_paths_bind; [apply keeps_paths_need|]. intros r.
    apply keeps_paths_bind; [apply Hparse|]. intros [ins outs].
    apply keeps_paths_bind; [apply keeps_paths_check_cache|]. intros _.
    apply keeps_paths_bind; [apply keeps_paths_store_files|]. intros _.
    apply keeps_paths_ret.
  - eauto 10 with keeps.
Qed.

Lemma keeps_paths_handle_response c st response :
  keeps_paths (handle_response E c st response).
Proof.
  destruct c; unfold handle_response.
  - destruct st as [self failed]. unfold codeforces_handle_response, response_url.
    apply keeps_paths_if.
    + apply keeps_paths_bind; [apply keeps_paths_need|]. intros r.
      apply keeps_paths_bind; [apply keeps_paths_codeforces_parse_html|].
      intros [[ins outs] text].
      apply keeps_paths_bind; [apply keeps_paths_check_cache|]. intros _.
      apply keeps_paths_bind; [apply keeps_paths_store_files|]. intros _.
      apply keeps_paths_ret.
    + eauto 10 with keeps.
  - apply keeps_paths_json_handle_response, keeps_paths_codechef_parse_html.
  - apply keeps_paths_raise.
  - apply keeps_paths_json_handle_response, keeps_paths_hackerrank_parse_html.
Qed.

Lemma keeps_paths_handle_batch_requests self links :
  keeps_paths (handle_batch_requests E self links).
Proof.
  unfold handle_batch_requests.
  destruct (cls self); try apply keeps_paths_raise;
    (apply keeps_paths_bind; [apply keeps_paths_grequests_map|]; intros rs;
     apply keeps_paths_for_each; intros; apply keeps_paths_handle_response).
Qed.

Lemma keeps_paths_scrape_contest self : keeps_paths (scrape_contest E self).
Proof.
  pose proof keeps_paths_get_html. pose proof @keeps_paths_not_found.
  pose proof keeps_paths_codeforces_type.
  assert (keeps_paths (contest_links E self)) as Hlinks.
  { unfold contest_links, codeforces_get_problem_links, codechef_get_problem_links,
      hackerrank_get_problem_links.
    destruct (cls self); try apply keeps_paths_raise.
    - do 3 (apply keeps_paths_bind; [eauto with keeps|intros ?]).
      destruct (codeforces_hrefs E _); eauto with keeps.
    - do 2 (apply keeps_paths_bind; [eauto with keeps|intros ?]).
      destruct (codechef_hrefs E _); [|eauto with keeps].
      apply keeps_paths_map_m. intros; apply keeps_paths_cat.
    - do 2 (apply keeps_paths_bind; [eauto with keeps|intros ?]).
      destruct (hackerrank_slugs E _); [|eauto with keeps].
      apply keeps_paths_map_m. intros; apply keeps_paths_cat. }
  assert (∀ links, keeps_paths (scrape_contest_waves E self links)) as Hwaves.
  { intros links. unfold scrape_contest_waves.
    apply keeps_paths_bind; [apply keeps_paths_handle_batch_requests|].
    intros [self1 failed]. apply keeps_paths_if; [|apply keeps_paths_ret].
    apply keeps_paths_bind; [apply keeps_paths_handle_batch_requests|].
    intros _. apply keeps_paths_ret. }
  assert (keeps_paths (scrape_contest_links E self)) as Hpre.
  { unfold scrape_contest_links, uncached_links.
    do 4 (apply keeps_paths_bind; [eauto with keeps|intros ?]).
    apply keeps_paths_if; eauto 10 with keeps. }
  unfold scrape_contest.
  destruct (cls self); try apply keeps_paths_raise; by apply keeps_paths_bind.
Qed.

(** X2: the two downloads never remove a path and never turn a directory
    into something else, whatever the network and the parsers answer; and
    whenever they leave through [sys.exit], not found and no connection
    included, the status is 0. *)
Theorem downloads_keep_paths (args : Args) :
  keeps_paths (download_problem_testcases E args)
  ∧ keeps_paths (download_contest_testcases E args).
Proof.
  split.
  - unfold download_problem_testcases.
    apply keeps_paths_bind; [apply keeps_paths_get_platform|]. intros platform.
    apply keeps_paths_bind; [apply keeps_paths_check_cache|]. intros hit.
    apply keeps_paths_if; [eauto 10 with keeps|apply keeps_paths_scrape_problem].
  - unfold download_contest_testcases.
    apply keeps_paths_bind; [apply keeps_paths_get_platform|]. intros platform.
    apply keeps_paths_bind; [apply keeps_paths_check_cache|]. intros hit.
    apply keeps_paths_scrape_contest.
Qed.

End Keeps.

(** ** A download and the cache after it *)
Section AfterDownload.
Context (E : Env).

(** Whenever [check_cache] returns for a set [problem], the case
    directory exists. *)
Lemma check_cache_ensures site contest problem p b w w' :
  check_cache_path E site contest (Some problem) = Some p →
  check_cache E site contest (Some problem) w = (Ok b, w') →
  is_dir (fs w') p = true.
Proof.
  intros Hp. unfold check_cache. rewrite Hp. simpl.
  unfold bind at 1. unfold ret at 1. unfold bind at 1. unfold isdir at 1.
  destruct (is_dir (fs w) p) eqn:Hd.
  - by intros [= <- <-].
  - unfold bind. destruct (makedirs p w) as [[[]|c|e] w1] eqn:Hmk; [|done..].
    intros [= <- <-]. apply is_dir_true. by apply makedirs_lookup in Hmk as [? _].
Qed.

Lemma check_cache_no_exit site contest problem w c w' :
  check_cache E site contest problem w ≠ (Exit c, w').
Proof.
  unfold check_cache, os_path_join. destruct problem.
  - unfold bind at 1. unfold need.
    destruct (check_cache_path _ _ _ _); [|done]. unfold ret at 1.
    unfold bind at 1. unfold isdir at 1. destruct (is_dir _ _); [done|].
    unfold bind. destruct (makedirs s0 w) as [[[]|c'|e] w1] eqn:Hmk; try done.
    by apply makedirs_exit in Hmk.
  - unfold bind at 1. unfold need.
    destruct (path_join _ _); [|done]. unfold ret at 1.
    unfold bind at 1. unfold isdir at 1. destruct (is_dir _ _); [done|]. simpl.
    unfold bind. destruct (makedirs s w) as [[[]|c'|e] w1] eqn:Hmk; try done.
    by apply makedirs_exit in Hmk.
Qed.

Lemma get_platform_pure args platform w w0 :
  get_platform args w = (Ok platform, w0) →
  ∀ force w2,
    get_platform (with_force args force) w2
    = (Ok {| cls := cls platform; p_site := p_site platform;
             p_contest := p_contest platform; p_problem := p_problem platform;
             force_download := force |}, w2).
Proof.
  unfold get_platform, Codeforces_init, Codechef_init, Spoj_init, Hackerrank_init.
  simpl. repeat case_bool_decide; try by intros [= <- <-].
  unfold bind, need. destruct (a_problem args); [|done]. by intros [= <- <-].
Qed.

(** A download that ends without raising leaves the case directory in
    place. *)
Lemma download_problem_testcases_directory args platform problem p w w0 w' r :
  get_platform args w = (Ok platform, w0) →
  p_problem platform = Some problem →
  check_cache_path E (p_site platform) (p_contest platform) (Some problem) = Some p →
  download_problem_testcases E args w = (r, w') →
  (∀ e, r ≠ Raise e) →
  is_dir (fs w') p = true.
Proof.
  intros Hplat Hprob Hp Hdl Hr.
  unfold download_problem_testcases in Hdl.
  rewrite (bind_ok _ _ _ _ _ Hplat) in Hdl. rewrite Hprob in Hdl.
  unfold bind at 1 in Hdl.
  destruct (check_cache E _ _ _ w0) as [[hit|c|e] w1] eqn:Hcc.
  - pose proof (check_cache_ensures _ _ _ _ _ _ _ Hp Hcc) as Hd1.
    apply is_dir_true in Hd1. apply is_dir_true.
    destruct (negb (a_force args) && hit).
    + unfold bind, print, emit, sys_exit in Hdl. by injection Hdl as <- <-.
    + by apply keeps_paths_scrape_problem in Hdl as [Hd _]; apply Hd.
  - by apply check_cache_no_exit in Hcc.
  - injection Hdl as <- <-. by destruct (Hr e).
Qed.

(** X3: when a download of a problem ends without raising, be it with
    [Done.], with a cache hit or with [Problem not found], the case
    directory is in place; so the same download without [force] then
    answers that the cases were found in the cache, and fetches
    nothing. *)
Theorem download_then_cache_hit (args : Args) (platform : Platform) (problem p : string)
    (w w0 w' : World) (r : result unit) :
  get_platform args w = (Ok platform, w0) →
  p_problem platform = Some problem →
  check_cache_path E (p_site platform) (p_contest platform) (Some problem) = Some p →
  download_problem_testcases E args w = (r, w') →
  (∀ e, r ≠ Raise e) →
  is_dir (fs w') p = true
  ∧ download_problem_testcases E (with_force args false) w'
    = (Exit 0, {| fs := fs w'; log := log w' ++ [EPrint "Test cases found in cache..."] |}).
Proof.
  intros Hplat Hprob Hp Hdl Hr.
  pose proof (download_problem_testcases_directory _ _ _ _ _ _ _ _ Hplat Hprob Hp Hdl Hr)
    as Hdir.
  split; [done|]. unfold download_problem_testcases.
  rewrite (bind_ok _ _ _ _ _ (get_platform_pure _ _ _ _ Hplat false w')). simpl.
  rewrite Hprob. unfold check_cache. rewrite Hp. simpl.
  unfold bind, ret, isdir. rewrite Hdir. done.
Qed.

End AfterDownload.

Lemma download_then_cache_hit_witness :
  is_dir (fs (download_problem_testcases retry_env demo_args miss_world).2) demo_dir = true
  ∧ download_problem_testcases retry_env (with_force demo_args false)
      (download_problem_testcases retry_env demo_args miss_world).2
    = (Exit 0,
       {| fs := fs (download_problem_testcases retry_env demo_args miss_world).2;
          log := log (download_problem_testcases retry_env demo_args miss_world).2
                 ++ [EPrint "Test cases found in cache..."] |}).
Proof.
  apply (download_then_cache_hit retry_env demo_args
           {| cls := Codeforces; p_site := Some "codeforces"; p_contest := Some "1";
              p_problem := Some "A"; force_download := false |}
           "A" demo_dir miss_world miss_world
           (download_problem_testcases retry_env demo_args miss_world).2
           (download_problem_testcases retry_env demo_args miss_world).1).
  - reflexivity.
  - reflexivity.
  - vm_compute. reflexivity.
  - apply surjective_pairing.
  - intros e. vm_compute. discriminate.
Defined.

(** ** What a call leaves and what it raises *)

Section Within.
Context (R : World → World → Prop) (X : exn → Prop).
Hypothesis R_refl : ∀ w, R w w.
Hypothesis R_trans : ∀ w1 w2 w3, R w1 w2 → R w2 w3 → R w1 w3.

Lemma within_ret {A} (a : A) : within R X (ret a).
Proof. intros w r w' [= <- <-]. by split. Qed.

Lemma within_raise {A} (e : exn) : X e → within R X (@raise A e).
Proof. intros He w r w' [= <- <-]. split; [done|]. by intros e' [= <-]. Qed.

Lemma within_exit {A} (c : Z) : within R X (@sys_exit A c).
Proof. intros w r w' [= <- <-]. by split. Qed.

Lemma within_bind {A B} (m : M A) (k : A → M B) :
  within R X m → (∀ a, within R X (k a)) → within R X (bind m k).
Proof.
  intros Hm Hk w r w'. unfold bind.
  destruct (m w) as [[a|c|e] w1] eqn:Hmw; apply Hm in Hmw as [HR HX].
  - intros Hka. apply Hk in Hka as [HR' HX']. split; [by eapply R_trans|done].
  - by intros [= <- <-].
  - intros [= <- <-]. split; [done|]. intros e' [= <-]. by apply HX.
Qed.

Lemma within_if {A} (b : bool) (m1 m2 : M A) :
  within R X m1 → within R X m2 → within R X (if b then m1 else m2).
Proof. by destruct b. Qed.

Lemma within_need {A} (e : exn) (o : option A) : X e → within R X (need e o).
Proof. intros He. destruct o; [apply within_ret | by apply within_raise]. Qed.

Lemma within_try_except {A} (m h : M A) :
  within R X m → within R X h → within R X (try_except m h).
Proof.
  intros Hm Hh w r w'. unfold try_except.
  destruct (m w) as [[a|c|e] w1] eqn:Hmw; apply Hm in Hmw as [HR HX].
  - by intros [= <- <-].
  - by intros [= <- <-].
  - intros Hhw. apply Hh in Hhw as [HR' HX']. split; [by eapply R_trans|done].
Qed.

Lemma within_for_each {A S} (body : S → A → M S) (l : list A) :
  (∀ s x, within R X (body s x)) → ∀ s, within R X (for_each body s l).
Proof.
  intros Hbody. induction l as [|x l IH]; intros s; simpl.
  - apply within_ret.
  - apply within_bind; [apply Hbody | apply IH].
Qed.

Lemma within_isdir p : within R X (isdir p).
Proof. intros w r w' [= <- <-]. by split. Qed.

Lemma within_isfile p : within R X (isfile p).
Proof. intros w r w' [= <- <-]. by split. Qed.

Lemma within_listdir p : X OSError → within R X (listdir p).
Proof.
  intros He w r w'. unfold listdir.
  destruct (fs w !! p) as [[|c]|]; intros [= <- <-]; (split; [done|]);
    by intros e [= <-].
Qed.

Lemma within_read_file p : X IOError → within R X (read_file p).
Proof.
  intros He w r w'. unfold read_file.
  destruct (fs w !! p) as [[|c]|]; intros [= <- <-]; (split; [done|]);
    by intros e [= <-].
Qed.

(** The functions of the program, given that its primitive steps stay
    within [R] and [X]. *)
Section Functions.
Context (E : Env).
Hypothesis X_AttributeError : X AttributeError.
Hypothesis X_TypeError : X TypeError.
Hypothesis X_NameError : X NameError.
Hypothesis X_IndexError : X IndexError.
Hypothesis X_KeyError : X KeyError.
Hypothesis X_ValueError : X ValueError.
Hypothesis X_OSError : X OSError.
Hypothesis X_IOError : X IOError.
Hypothesis R_print : ∀ line, within R X (print line).
Hypothesis R_table : ∀ header rows, within R X (emit (ETable header rows)).
Hypothesis R_get : ∀ link, within R X (requests_get E link).
Hypothesis R_write : ∀ p content, within R X (write_file p content).
Hypothesis R_makedirs : ∀ p, within R X (makedirs p).
Hypothesis R_remove : ∀ p, within R X (remove p).
Hypothesis R_system : ∀ cmd, within R X (system E cmd).

Local Hint Resolve within_ret within_exit within_bind within_if within_isdir
  within_isfile : core.

Lemma within_cat parts : within R X (cat parts).
Proof. by apply within_need. Qed.

Lemma within_get_html link : within R X (get_html E link).
Proof.
  unfold get_html. apply within_try_except; [|auto].
  apply within_bind.
  - generalize (@None (nat * Response)). generalize (seq 0 MAX_TRIES).
    induction l as [|t l IH]; intros cur; simpl; [auto|].
    apply within_bind; [apply R_get|]. intros r. auto.
  - intros x. apply within_bind; [by apply within_need|]. intros tr. auto.
Qed.

Lemma within_check_cache site contest problem :
  within R X (check_cache E site contest problem).
Proof.
  unfold check_cache, os_path_join. destruct problem.
  - apply within_bind; [by apply within_need|]. intros p.
    apply within_bind; [auto|]. intros d. auto.
  - apply within_bind; [by apply within_need|]. intros p.
    apply within_bind; [auto|]. intros d. auto.
Qed.

Lemma within_write_cases path name n items : ∀ i,
  within R X (write_cases path name n i items).
Proof. induction items as [|x items IH]; intros i; simpl; auto. Qed.

Lemma within_store_files site contest problem inputs outputs statement :
  within R X (store_files E site contest problem inputs outputs statement).
Proof.
  unfold store_files, getTestCasesCount.
  apply within_bind; [by apply within_need|]. intros p.
  apply within_bind.
  { apply within_bind; [by apply within_listdir|]. auto. }
  intros n.
  apply within_bind; [apply within_write_cases|]. intros _.
  apply within_bind; [apply within_write_cases|]. intros _. auto.
Qed.

Lemma within_not_found {A} message self : within R X (@not_found A message self).
Proof. unfold not_found, handle_kbd_interrupt. auto 10. Qed.

Lemma within_codeforces_type contest : within R X (codeforces_type contest).
Proof. unfold codeforces_type. apply within_bind; [by apply within_need|]. auto. Qed.

Lemma within_codeforces_parse_html self req :
  within R X (codeforces_parse_html E self req).
Proof.
  pose proof @within_not_found. unfold codeforces_parse_html.
  destruct (codeforces_blocks E _) as [[ins outs] sts].
  apply within_if; [auto|].
  apply within_bind; [by apply within_need|]. auto.
Qed.

Lemma within_codechef_parse_html self req :
  within R X (codechef_parse_html E self req).
Proof.
  pose proof @within_not_found. unfold codechef_parse_html.
  destruct (codechef_blocks E _); auto.
Qed.

Lemma within_spoj_parse_html self req : within R X (spoj_parse_html E self req).
Proof. pose proof @within_not_found. unfold spoj_parse_html. auto. Qed.

Lemma within_hackerrank_parse_html self req :
  within R X (hackerrank_parse_html E self req).
Proof.
  pose proof @within_not_found. unfold hackerrank_parse_html.
  destruct (hackerrank_blocks E _); auto.
Qed.

Lemma within_scrape_problem self : within R X (scrape_problem E self).
Proof.
  pose proof within_get_html. pose proof within_store_files.
  pose proof within_cat. pose proof within_codeforces_type.
  unfold scrape_problem. destruct (cls self).
  - unfold codeforces_scrape_problem.
    do 2 (apply within_bind; [auto|intros ?]).
    do 2 (apply within_bind; [by apply within_need|intros ?]).
    do 2 (apply within_bind; [auto|intros ?]).
    apply within_bind; [apply within_codeforces_parse_html|].
    intros [[ins outs] text]. auto.
  - unfold codechef_scrape_problem.
    do 4 (apply within_bind; [auto|intros ?]).
    apply within_bind; [apply within_codechef_parse_html|].
    intros parsed. auto.
  - unfold spoj_scrape_problem.
    do 4 (apply within_bind; [auto|intros ?]).
    apply within_bind; [apply within_spoj_parse_html|].
    intros parsed. auto.
  - unfold hackerrank_scrape_problem.
    do 4 (apply within_bind; [auto|intros ?]).
    apply within_bind; [apply within_hackerrank_parse_html|].
    intros parsed. auto.
Qed.

Lemma within_get_platform args : within R X (get_platform args).
Proof.
  unfold get_platform, Codeforces_init, Codechef_init, Spoj_init, Hackerrank_init.
  repeat apply within_if; auto.
  apply within_bind; [by apply within_need|]. auto.
Qed.

Lemma within_download_problem_testcases args :
  within R X (download_problem_testcases E args).
Proof.
  unfold download_problem_testcases.
  apply within_bind; [apply within_get_platform|]. intros platform.
  apply within_bind; [apply within_check_cache|]. intros hit.
  apply within_if; [auto|apply within_scrape_problem].
Qed.

Lemma within_run_command_on_one_test path i cmd :
  within R X (run_command_on_one_test E path i cmd).
Proof.
  unfold run_command_on_one_test.
  apply within_bind; [apply R_system|]. intros status.
  apply within_bind; [by apply within_read_file|]. intros expected.
  apply within_if; [auto|]. apply within_if; [|auto].
  apply within_bind; [by apply within_read_file|]. intros produced. auto.
Qed.

Lemma within_cleanup n basename extension :
  within R X (cleanup E n basename extension).
Proof.
  unfold cleanup. apply within_bind.
  - apply within_for_each. intros [] i. auto.
  - intros _. auto.
Qed.

Lemma within_run_solution_cached path ppath basename extension :
  within R X (run_solution_cached E path ppath basename extension).
Proof.
  unfold run_solution_cached, getTestCasesCount.
  apply within_bind.
  { apply within_bind; [by apply within_listdir|]. auto. }
  intros n. apply within_bind.
  { apply within_if; [|auto].
    apply within_bind; [by apply within_need|]. intros compiler.
    apply within_bind; [by apply within_need|]. intros cmd.
    apply within_bind; [destruct compiler; auto|]. intros status.
    apply within_if.
    - unfold run_cases. apply within_for_each. intros [[es us] vs] i.
      apply within_bind; [apply within_run_command_on_one_test|].
      intros [[e u] v]. auto.
    - apply within_bind; [by apply within_raise|]. auto. }
  intros [[es us] vs].
  apply within_bind.
  { unfold input_file_to_string. apply within_for_each. intros acc i.
    apply within_bind; [by apply within_read_file|]. auto. }
  intros inputs. apply within_bind; [apply R_table|]. intros _.
  apply within_cleanup.
Qed.

End Functions.
End Within.

(** ** The second pass of [run_solution] *)

Lemma hd_Forall {A} (P : A → Prop) (d : A) (l : list A) :
  l ≠ [] → Forall P l → P (List.hd d l).
Proof. destruct l; [done|]. intros _ H. by inversion H. Qed.

Lemma last_Forall {A} (P : A → Prop) (d : A) (l : list A) :
  l ≠ [] → Forall P l → P (List.last l d).
Proof.
  induction l as [|x [|y l] IH]; [done| |]; intros _ H.
  - by inversion H.
  - inversion_clear H. by apply IH.
Qed.

(** Splitting the rebuilt source name gives the same name and extension. *)
Lemma split_rebuilt_source (source : string) :
  Py.split "." (source_problem source +:+ "." +:+ source_extension source)
  = [source_problem source; source_extension source].
Proof.
  assert (Py.has_char "." (source_problem source) = false) as Hp.
  { apply (hd_Forall (λ l, Py.has_char "." l = false));
      [apply split_nonempty | apply split_lines_nosep]. }
  assert (Py.has_char "." (source_extension source) = false) as He.
  { apply (last_Forall (λ l, Py.has_char "." l = false));
      [apply split_nonempty | apply split_lines_nosep]. }
  rewrite app_cons, app_empty_l.
  rewrite (split_app_sep _ _ _ Hp). by rewrite (split_nosep _ _ He).
Qed.

Lemma source_problem_rebuilt (source : string) :
  source_problem (source_problem source +:+ "." +:+ source_extension source)
  = source_problem source.
Proof. unfold source_problem at 1. by rewrite split_rebuilt_source. Qed.

Lemma source_extension_rebuilt (source : string) :
  source_extension (source_problem source +:+ "." +:+ source_extension source)
  = source_extension source.
Proof. unfold source_extension at 1. by rewrite split_rebuilt_source. Qed.

Lemma problem_code_is_some args source : ∃ code, problem_code args source = Some code.
Proof.
  unfold problem_code. destruct (a_problem args) as [s|]; simpl; [|by eexists].
  destruct (negb _); by eexists.
Qed.

(** The second pass works on the same problem code. *)
Lemma problem_code_second_pass args source :
  problem_code (second_pass args source)
               (source_problem source +:+ "." +:+ source_extension source)
  = problem_code args source.
Proof.
  unfold problem_code at 1. cbn [second_pass a_problem].
  rewrite source_problem_rebuilt.
  destruct (Py.truthy (problem_code args source)) eqn:Ht; [done|].
  unfold problem_code in *.
  destruct (Py.truthy (a_problem args)) eqn:Ha; [congruence|done].
Qed.

Lemma bind_ext {A B} (m : M A) (k1 k2 : A → M B) w :
  (∀ a w1, m w = (Ok a, w1) → k1 a w1 = k2 a w1) → bind m k1 w = bind m k2 w.
Proof. intros H. unfold bind. destruct (m w) as [[a|c|e] w1]; auto. Qed.

Lemma no_overflow_within {A} (m : M A) :
  within (λ _ _, True) (λ e, e ≠ RuntimeError) m → no_overflow m.
Proof. intros Hm w w' H. apply Hm in H as [_ H]. by apply (H RuntimeError). Qed.

Section SecondPass.
Context (E : Env).

Lemma run_solution_unfold fuel args w :
  run_solution E (S fuel) args w
  = match a_source args with
    | None => (Raise AttributeError, w)
    | Some source =>
        let problem_path := path_join2 (cwd E) (source_problem source) in
        if is_file (fs w) (problem_path +:+ "." +:+ source_extension source) then
          match run_solution_path E (a_site args) (a_contest args)
                  (problem_code args source) with
          | None => (Raise AttributeError, w)
          | Some p =>
              if is_dir (fs w) p
              then run_solution_cached E p problem_path
                     (Py.last_item (Py.split Py.slash (source_problem source)))
                     (source_extension source) w
              else (download_problem_testcases E (second_pass args source) ;;
                    print "Running your solution against sample cases..." ;;
                    run_solution E fuel (second_pass args source))
                     {| fs := fs w;
                        log := log w ++ [EPrint "Test cases not found locally..."] |}
          end
        else (Exit 0, {| fs := fs w; log := log w ++ [EPrint "ERROR : No such file"] |})
    end.
Proof.
  cbn [run_solution]. destruct (a_source args) as [source|]; [|done].
  unfold need at 1. unfold bind at 1. unfold ret at 1.
  unfold bind at 1. unfold isfile at 1. cbv zeta.
  fold (source_problem source). fold (source_extension source).
  destruct (is_file _ _); [|done]. cbn [negb].
  fold (problem_code args source).
  destruct (run_solution_path _ _ _ _) as [p|]; [|done].
  unfold need at 1. unfold bind at 1. unfold ret at 1.
  unfold bind at 1. unfold isdir at 1.
  by destruct (is_dir (fs w) p).
Qed.

Lemma download_no_overflow args : no_overflow (download_problem_testcases E args).
Proof.
  apply no_overflow_within. apply within_download_problem_testcases; try done.
  - intros line w r w' [= <- <-]. by split.
  - intros link w r w'. unfold requests_get.
    destruct (rq_get E link w); intros [= <- <-]; (split; [done|]); by intros e [= <-].
  - intros p c w r w'. unfold write_file.
    destruct (fs w !! p) as [[|?]|]; intros [= <- <-]; (split; [done|]);
      by intros e [= <-].
  - intros p w r w'. unfold makedirs. destruct (existsb _ _).
    + intros [= <- <-]. split; [done|]. by intros e [= <-].
    + destruct (fs w !! p); intros [= <- <-]; (split; [done|]); by intros e [= <-].
Qed.

Lemma run_solution_cached_no_overflow path ppath basename extension :
  no_overflow (run_solution_cached E path ppath basename extension).
Proof.
  apply no_overflow_within. apply within_run_solution_cached; try done.
  - intros line w r w' [= <- <-]. by split.
  - intros header rows w r w' [= <- <-]. by split.
  - intros p w r w'. unfold remove.
    destruct (fs w !! p) as [[|?]|]; intros [= <- <-]; (split; [done|]);
      by intros e [= <-].
  - intros cmd w r w'. unfold system. destruct (os_system E cmd w).
    intros [= <- <-]. by split.
Qed.

(** The pass that finds its cases: it runs them whatever the depth left,
    and does not reach the bottom. *)
Lemma run_solution_cached_pass fuel args w :
  (∀ source p, a_source args = Some source →
     run_solution_path E (a_site args) (a_contest args) (problem_code args source) = Some p →
     is_dir (fs w) p = true) →
  run_solution E (S fuel) args w = run_solution E 1 args w
  ∧ ∀ w', run_solution E 1 args w ≠ (Raise RuntimeError, w').
Proof.
  intros Hdir. rewrite !run_solution_unfold.
  destruct (a_source args) as [source|]; [|done]. cbv zeta.
  destruct (is_file _ _); [|done].
  destruct (run_solution_path _ _ _ _) as [p|] eqn:Hp; [|done].
  rewrite (Hdir _ _ eq_refl Hp). split; [done|].
  intros w'. apply run_solution_cached_no_overflow.
Qed.

(** After a download that returns, the second pass finds its cases. *)
Lemma second_pass_cached args source w r w' platform w0 :
  get_platform (second_pass args source) w = (Ok platform, w0) →
  p_site platform = a_site args → p_contest platform = a_contest args →
  p_problem platform = problem_code args source →
  download_problem_testcases E (second_pass args source) w = (r, w') →
  (∀ e, r ≠ Raise e) →
  ∀ source' p, a_source (second_pass args source) = Some source' →
    run_solution_path E (a_site (second_pass args source))
      (a_contest (second_pass args source))
      (problem_code (second_pass args source) source') = Some p →
    is_dir (fs w') p = true.
Proof.
  intros Hplat Hsite Hcontest Hproblem Hdl Hr source' p [= <-].
  rewrite problem_code_second_pass. cbn [second_pass a_site a_contest]. intros Hp.
  destruct (problem_code_is_some args source) as [code Hcode].
  rewrite Hcode in Hproblem, Hp.
  eapply (download_problem_testcases_directory E); [exact Hplat|exact Hproblem| |exact Hdl|exact Hr].
  by rewrite Hsite, Hcontest.
Qed.

(** X4: on Codeforces and Codechef [run_solution] calls itself at most
    once: the pass after the download finds the directory the download
    left, so the outcome is the same for every depth of two and more, and
    the depth limit is never what ends the run. *)
Theorem run_solution_second_pass (args : Args) (n : nat) (w : World) :
  a_site args = Some "codeforces" ∨ a_site args = Some "codechef" →
  run_solution E (S (S n)) args w = run_solution E 2 args w
  ∧ ∀ w', run_solution E (S (S n)) args w ≠ (Raise RuntimeError, w').
Proof.
  intros Hsite.
  assert (∀ source w1 r w2,
    download_problem_testcases E (second_pass args source) w1 = (r, w2) →
    (∀ e, r ≠ Raise e) →
    ∀ source' p, a_source (second_pass args source) = Some source' →
      run_solution_path E (a_site (second_pass args source))
        (a_contest (second_pass args source))
        (problem_code (second_pass args source) source') = Some p →
      is_dir (fs w2) p = true) as Hcached.
  { intros source w1 r w2 Hdl Hr.
    destruct Hsite as [Hs|Hs].
    - eapply (second_pass_cached _ _ w1 r w2
                {| cls := Codeforces; p_site := a_site args; p_contest := a_contest args;
                   p_problem := problem_code args source; force_download := true |} w1);
        [|reflexivity..|exact Hdl|exact Hr].
      unfold get_platform. cbn [second_pass a_site].
      by rewrite (bool_decide_eq_true_2 _ Hs).
    - eapply (second_pass_cached _ _ w1 r w2
                {| cls := Codechef; p_site := a_site args; p_contest := a_contest args;
                   p_problem := problem_code args source; force_download := true |} w1);
        [|reflexivity..|exact Hdl|exact Hr].
      unfold get_platform. cbn [second_pass a_site].
      rewrite bool_decide_eq_false_2 by (by rewrite Hs).
      by rewrite (bool_decide_eq_true_2 _ Hs). }
  assert (∀ k, run_solution E (S (S k)) args w = run_solution E 2 args w
               ∧ ∀ w', run_solution E 2 args w ≠ (Raise RuntimeError, w')) as H.
  { intros k. rewrite !(run_solution_unfold (S _)).
    destruct (a_source args) as [source|]; [|done]. cbv zeta.
    destruct (is_file _ _); [|done].
    destruct (run_solution_path _ _ _ _) as [p|] eqn:Hp; [|done].
    destruct (is_dir (fs w) p).
    { split; [done|]. intros w'. apply run_solution_cached_no_overflow. }
    set (w1 := {| fs := fs w; log := _ |}).
    split.
    - apply bind_ext. intros [] w2 Hdl.
      apply bind_ext. intros [] w3 [= <-].
      apply run_solution_cached_pass. intros source' p' Hs' Hp'.
      exact (Hcached _ _ _ _ Hdl ltac:(done) _ _ Hs' Hp').
    - intros w'. unfold bind at 1.
      destruct (download_problem_testcases E _ w1) as [[[]|c|e] w2] eqn:Hdl; [|done|].
      + unfold bind at 1. unfold print at 1, emit at 1.
        apply (run_solution_cached_pass 0). intros source' p' Hs' Hp'.
        exact (Hcached _ _ _ _ Hdl ltac:(done) _ _ Hs' Hp').
      + intros [= -> <-]. by apply download_no_overflow in Hdl. }
  split; [apply H|]. intros w'. destruct (H n) as [-> Hno]. apply Hno.
Qed.

End SecondPass.

Lemma run_solution_second_pass_witness :
  run_solution retry_env 3 demo_args miss_world = run_solution retry_env 2 demo_args miss_world
  ∧ ∀ w', run_solution retry_env 3 demo_args miss_world ≠ (Raise RuntimeError, w').
Proof.
  apply (run_solution_second_pass retry_env demo_args 1 miss_world).
  left. reflexivity.
Defined.

(** ** Spoj problem codes and the case of their letters *)

Lemma upper_length s : String.length (Py.upper s) = String.length s.
Proof. unfold Py.upper. induction s as [|c s IH]; simpl; [done|]. by rewrite IH. Qed.

Lemma upper_char_slash c : Ascii.eqb (Py.upper_char c) "/" = Ascii.eqb c "/".
Proof. destruct c as [[] [] [] [] [] [] [] []]; reflexivity. Qed.

Lemma upper_startswith_slash s : Py.startswith "/" (Py.upper s) = Py.startswith "/" s.
Proof.
  destruct s as [|c s]; [done|]. cbn [Py.upper Py.smap Py.startswith].
  rewrite !(Ascii.eqb_sym "/"). by rewrite upper_char_slash.
Qed.

(** Two components of the same length under one directory give paths of
    the same length, equal only when the components are. *)
Lemma path_join2_length base a b :
  Py.startswith "/" a = Py.startswith "/" b → String.length a = String.length b →
  String.length (path_join2 base a) = String.length (path_join2 base b).
Proof.
  intros Hs Hl. unfold path_join2. rewrite Hs.
  destruct (Py.startswith "/" b); [done|].
  destruct (_ || _); rewrite !length_app_s; simpl; lia.
Qed.

Lemma path_join2_inj_r base a b :
  Py.startswith "/" a = Py.startswith "/" b →
  path_join2 base a = path_join2 base b → a = b.
Proof.
  intros Hs. unfold path_join2. rewrite Hs.
  destruct (Py.startswith "/" b); [done|].
  destruct (_ || _).
  - apply String.app_inj.
  - rewrite <- !app_assoc_s. apply String.app_inj.
Qed.

Lemma leaves_missing_refl p w : leaves_missing p w w.
Proof. by split. Qed.

Lemma leaves_missing_trans p w1 w2 w3 :
  leaves_missing p w1 w2 → leaves_missing p w2 w3 → leaves_missing p w1 w3.
Proof. intros [H1 L1] [H2 L2]. split; auto. Qed.

Lemma leaves_missing_emit p e w :
  (∀ cmd, e ≠ ESystem cmd) →
  leaves_missing p w {| fs := fs w; log := log w ++ [e] |}.
Proof.
  intros He. split; [done|]. simpl. intros cmd [H|H]%elem_of_app; [done|].
  apply list_elem_of_singleton in H. by destruct (He cmd).
Qed.

Lemma leaves_missing_makedirs p q w r w' :
  q ≠ p → p ∉ parents q → makedirs q w = (r, w') → leaves_missing p w w'.
Proof.
  intros Hne Hpar. unfold makedirs.
  destruct (existsb _ _); [intros [= <- <-]; apply leaves_missing_refl|].
  destruct (fs w !! q); intros [= <- <-]; [apply leaves_missing_refl|].
  split; [|done]. simpl. unfold is_dir. rewrite !bool_decide_eq_false.
  rewrite lookup_insert_ne by done. rewrite foldr_insert_dir.
  by rewrite decide_False.
Qed.

Section SpojCase.
Context (E : Env).

Lemma leaves_missing_scrape_problem p self :
  within (leaves_missing p) (λ _, True) (scrape_problem E self).
Proof.
  apply within_scrape_problem; try done.
  - apply leaves_missing_trans.
  - intros line w r w' [= <- <-]. split; [|done]. by apply leaves_missing_emit.
  - intros link w r w'. unfold requests_get.
    destruct (rq_get E link w); intros [= <- <-];
      (split; [|done]); by apply leaves_missing_emit.
  - intros q c w r w'. unfold write_file.
    destruct (fs w !! q) as [[|?]|] eqn:Hq; intros [= <- <-];
      (split; [|done]); try apply leaves_missing_refl;
      (split; [|done]); simpl; unfold is_dir; rewrite !bool_decide_eq_false;
      intros Hp; rewrite lookup_insert; case_decide; congruence.
Qed.

(** A forced download of the Spoj problem [code] creates no directory
    at the path spelled with [code] itself when that differs from its
    upper-case form. *)
Lemma spoj_download_leaves_missing args code p w r w' :
  a_site args = Some "spoj" →
  a_problem args = Some code →
  Py.upper code ≠ code →
  run_solution_path E (a_site args) (a_contest args) (Some code) = Some p →
  download_problem_testcases E args w = (r, w') →
  leaves_missing p w w'.
Proof.
  intros Hsite Hproblem Hcase Hp Hrun.
  assert (get_platform args w
          = (Ok {| cls := Spoj; p_site := a_site args; p_contest := a_contest args;
                   p_problem := Some (Py.upper code);
                   force_download := a_force args |}, w)) as Hplat.
  { unfold get_platform, Spoj_init.
    rewrite !bool_decide_eq_false_2 by (by rewrite Hsite).
    rewrite (bool_decide_eq_true_2 _ Hsite). by rewrite Hproblem. }
  unfold download_problem_testcases in Hrun.
  rewrite (bind_ok _ _ _ _ _ Hplat) in Hrun.
  cbn [p_site p_contest p_problem] in Hrun.
  rewrite Hsite in Hp, Hrun. unfold run_solution_path in Hp.
  assert (is_spoj (Some "spoj") = true) as Hspoj by done.
  rewrite Hspoj in Hp. simpl in Hp. injection Hp as <-.
  set (base := path_join2 (path_join2 (cache_dir E) "spoj") "") in *.
  assert (path_join2 base (Py.upper code) ≠ path_join2 base code) as Hne.
  { intros H%path_join2_inj_r; [done|]. apply upper_startswith_slash. }
  assert (path_join2 base code ∉ parents (path_join2 base (Py.upper code))) as Hpar.
  { intros H%parents_shorter.
    rewrite (path_join2_length base (Py.upper code) code) in H; [lia|..].
    - apply upper_startswith_slash.
    - apply upper_length. }
  revert Hrun. unfold bind at 1.
  destruct (check_cache E _ _ _ w) as [[hit|c|e] w1] eqn:Hcc.
  - assert (leaves_missing (path_join2 base code) w w1) as H1.
    { revert Hcc. unfold check_cache, check_cache_path. rewrite Hspoj. simpl path_join.
      fold base. simpl need.
      unfold bind at 1. unfold ret at 1. unfold bind at 1. unfold isdir at 1.
      destruct (is_dir (fs w) _).
      - intros [= <- <-]. apply leaves_missing_refl.
      - unfold bind. destruct (makedirs _ w) as [[[]|c|e] w2] eqn:Hmk;
          intros [= <- <-]; by eapply leaves_missing_makedirs. }
    destruct (negb (a_force args) && hit).
    + unfold bind, print, emit, sys_exit. intros [= <- <-].
      eapply leaves_missing_trans; [exact H1|]. by apply leaves_missing_emit.
    + intros [H2 _]%(leaves_missing_scrape_problem (path_join2 base code)).
      by eapply leaves_missing_trans.
  - by apply check_cache_no_exit in Hcc.
  - intros [= <- <-]. revert Hcc.
    unfold check_cache, check_cache_path. rewrite Hspoj. simpl path_join.
    fold base. simpl need.
    unfold bind at 1. unfold ret at 1. unfold bind at 1. unfold isdir at 1.
    destruct (is_dir (fs w) _); [done|].
    unfold bind. destruct (makedirs _ w) as [[[]|c|e'] w2] eqn:Hmk;
      intros [= <- <-]; by eapply leaves_missing_makedirs.
Qed.

(** X5: for Spoj the download stores the cases under the upper-case
    problem code while [run_solution] looks them up under the code as
    given.  With a code that has a lower-case letter and no directory of
    that spelling, [run_solution] never returns normally and never
    compiles or runs the solution, whatever the depth allowed and whatever
    the network answers: every pass misses and downloads again. *)
Theorem run_solution_spoj_lower_case (args : Args) (code p : string) (n : nat)
    (w w' : World) (r : result unit) :
  a_site args = Some "spoj" →
  a_problem args = Some code →
  Py.upper code ≠ code →
  run_solution_path E (a_site args) (a_contest args) (Some code) = Some p →
  is_dir (fs w) p = false →
  run_solution E n args w = (r, w') →
  r ≠ Ok tt
  ∧ is_dir (fs w') p = false
  ∧ ∀ cmd, ESystem cmd ∈ log w' → ESystem cmd ∈ log w.
Proof.
  intros Hsite Hproblem Hcase Hp.
  assert (Py.truthy (Some code) = true) as Htruthy.
  { destruct code; [by destruct Hcase|done]. }
  assert (∀ source, problem_code args source = Some code) as Hcode.
  { intros source. unfold problem_code. by rewrite Hproblem, Htruthy. }
  revert args w Hsite Hproblem Hp Hcode.
  induction n as [|n IH]; intros args w Hsite Hproblem Hp Hcode Hdir.
  { intros [= <- <-]. by split. }
  rewrite run_solution_unfold.
  destruct (a_source args) as [source|]; [|by intros [= <- <-]]. cbv zeta.
  destruct (is_file _ _); [|intros [= <- <-]; split; [done|]; split; [done|]].
  2: { simpl. intros cmd [H|H]%elem_of_app; [done|].
       by apply list_elem_of_singleton in H. }
  rewrite Hcode, Hp, Hdir.
  set (w1 := {| fs := fs w; log := _ |}).
  assert (leaves_missing p w w1) as H1 by by apply leaves_missing_emit.
  unfold bind at 1.
  destruct (download_problem_testcases E _ w1) as [[[]|c|e] w2] eqn:Hdl.
  - apply (spoj_download_leaves_missing _ code p) in Hdl as H2;
      [|done|by apply Hcode|done|done].
    unfold bind at 1. unfold print at 1, emit at 1.
    set (w3 := {| fs := fs w2; log := _ |}).
    assert (leaves_missing p w2 w3) as H3 by by apply leaves_missing_emit.
    pose proof (leaves_missing_trans _ _ _ _ H1
                  (leaves_missing_trans _ _ _ _ H2 H3)) as [Hd Hl].
    intros Hrun. apply IH in Hrun as (Hr & Hd' & Hl'); try done.
    + split; [done|]. split; [done|]. auto.
    + by apply Hcode.
    + intros source'. unfold problem_code. cbn [second_pass a_problem].
      by rewrite Hcode, Htruthy.
    + by apply Hd.
  - apply (spoj_download_leaves_missing _ code p) in Hdl as H2;
      [|done|by apply Hcode|done|done].
    pose proof (leaves_missing_trans _ _ _ _ H1 H2) as [Hd Hl].
    intros [= <- <-]. split; [done|]. split; auto.
  - apply (spoj_download_leaves_missing _ code p) in Hdl as H2;
      [|done|by apply Hcode|done|done].
    pose proof (leaves_missing_trans _ _ _ _ H1 H2) as [Hd Hl].
    intros [= <- <-]. split; [done|]. split; auto.
Qed.

End SpojCase.

Lemma run_solution_spoj_lower_case_witness :
  (run_solution spoj_env 3 spoj_args miss_world).1 ≠ Ok tt
  ∧ is_dir (fs (run_solution spoj_env 3 spoj_args miss_world).2)
      "/home/u/.cache/ACedIt/spoj/test" = false
  ∧ ∀ cmd, ESystem cmd ∈ log (run_solution spoj_env 3 spoj_args miss_world).2 →
           ESystem cmd ∈ log miss_world.
Proof.
  apply (run_solution_spoj_lower_case spoj_env spoj_args "test"
           "/home/u/.cache/ACedIt/spoj/test" 3 miss_world).
  - reflexivity.
  - reflexivity.
  - vm_compute. discriminate.
  - vm_compute. reflexivity.
  - vm_compute. reflexivity.
  - apply surjective_pairing.
Defined.

(** ** The cache filter of a contest download *)

(** Text without the separator appended to a string goes to its last
    piece. *)
Lemma split_app_nosep sep s t :
  Py.has_char sep t = false →
  ∃ init l, Py.split sep s = init ++ [l] ∧ Py.split sep (s +:+ t) = init ++ [l +:+ t].
Proof.
  intros Ht. induction s as [|c s (init & l & Hs & Hst)].
  - exists [], EmptyString. split; [done|]. rewrite !app_empty_l. by apply split_nosep.
  - rewrite app_cons. cbn [Py.split]. rewrite Hs, Hst.
    destruct (Ascii.eqb c sep).
    + by exists (EmptyString :: init), l.
    + destruct init as [|i init]; simpl.
      * exists [], (String c l). by rewrite app_cons.
      * by exists (String c i :: init), l.
Qed.

Lemma last_item_split_app sep s t :
  Py.has_char sep t = false →
  Py.last_item (Py.split sep (s +:+ t)) = Py.last_item (Py.split sep s) +:+ t.
Proof.
  intros Ht. destruct (split_app_nosep sep s t Ht) as (init & l & -> & ->).
  unfold Py.last_item. by rewrite !last_last.
Qed.

Section CacheFilter.
Context (E : Env).

(** X6: the links [Codeforces.get_problem_links] builds end in
    [?locale=ru], and the filter of [scrape_contest] compares the last
    segment of a link, query included, with the names in the contest
    directory.  When no name there has a [?], the filter drops nothing:
    a download without force fetches every problem of the contest again,
    cached or not. *)
Theorem codeforces_cache_filter_keeps_all (self : Platform) (req : Response)
    (links : list string) (p : string) (w w1 : World) :
  codeforces_get_problem_links E self req w = (Ok links, w1) →
  force_download self = false →
  path_join (cache_dir E) [p_site self; p_contest self] = Some p →
  fs w1 !! p = Some Dir →
  forallb (λ name, negb (Py.has_char "?" name)) (dir_entries (fs w1) p) = true →
  uncached_links E self links w1 = (Ok links, w1).
Proof.
  intros Hlinks Hforce Hp Hdir Hnames.
  unfold uncached_links, os_path_join. rewrite Hforce, Hp. cbn [negb need].
  unfold bind at 1. unfold ret at 1. unfold bind, listdir. rewrite Hdir.
  fold (dir_entries (fs w1) p). unfold ret. f_equal. f_equal.
  unfold codeforces_get_problem_links in Hlinks.
  destruct (codeforces_hrefs E req) as [hrefs|]; cycle 1.
  { unfold not_found, handle_kbd_interrupt, bind, print, emit, sys_exit in Hlinks.
    discriminate. }
  injection Hlinks as <- <-.
  induction hrefs as [|href hrefs IH]; [done|].
  cbn [map]. rewrite filter_cons_True; [by rewrite IH|].
  intros Hin.
  rewrite forallb_forall in Hnames. apply list_elem_of_In, Hnames in Hin.
  apply negb_true_iff in Hin.
  rewrite <- app_assoc_s in Hin.
  rewrite last_item_split_app in Hin by reflexivity.
  rewrite has_char_app in Hin. apply orb_false_iff in Hin as [_ Hin].
  discriminate.
Qed.

End CacheFilter.

Lemma codeforces_cache_filter_keeps_all_witness :
  uncached_links retry_env retry_self [link_A; link_B] cached_world
  = (Ok [link_A; link_B], cached_world).
Proof.
  apply (codeforces_cache_filter_keeps_all retry_env retry_self
           {| url := EmptyString; status_code := 200; text := EmptyString |}
           [link_A; link_B] "/home/u/.cache/ACedIt/codeforces/1"
           cached_world cached_world).
  - reflexivity.
  - reflexivity.
  - vm_compute. reflexivity.
  - vm_compute. reflexivity.
  - vm_compute. reflexivity.
Defined.

(** ** Text typed in by hand *)

Lemma blank_pair_app_l a b : blank_pair (a ++ b) = false → blank_pair a = false.
Proof.
  induction a as [|x [|y a] IH]; [done..|].
  change ((x :: y :: a) ++ b) with (x :: y :: (a ++ b)).
  cbn [blank_pair]. intros [Hxy Hrest]%orb_false_iff.
  rewrite Hxy. by apply IH.
Qed.

Lemma blank_pair_last a x y :
  blank_pair (a ++ [x; y]) = false → (x =? "")%string && (y =? "")%string = false.
Proof.
  induction a as [|z [|z' a] IH].
  - simpl. by intros [H _]%orb_false_iff.
  - simpl. intros [_ H]%orb_false_iff. by apply orb_false_iff in H as [H _].
  - change ((z :: z' :: a) ++ [x; y]) with (z :: (z' :: a) ++ [x; y]).
    cbn [blank_pair app]. intros [_ H]%orb_false_iff. by apply IH.
Qed.

(** A line that does not complete a pair of empty lines is collected. *)
Lemma get_long_input_loop_collects body : ∀ lines tail,
  blank_pair (lines ++ body) = false →
  get_long_input_loop lines (body ++ tail) = get_long_input_loop (lines ++ body) tail.
Proof.
  induction body as [|b body IH]; intros lines tail Hpairs.
  - by rewrite app_nil_r.
  - cbn [app get_long_input_loop].
    assert ((b =? "")%string && (0 <? length lines)
            && (Py.last_item lines =? "")%string = false) as ->.
    { destruct lines as [|l lines _] using rev_ind; [by rewrite andb_false_r|].
      unfold Py.last_item. rewrite last_last.
      assert ((lines ++ [l]) ++ b :: body = (lines ++ [l; b]) ++ body) as Heq
        by (by rewrite <- !app_assoc).
      rewrite Heq in Hpairs.
      apply blank_pair_app_l, blank_pair_last in Hpairs.
      destruct (b =? "")%string, (l =? "")%string; try done.
      by rewrite andb_false_r. }
    rewrite (IH (lines ++ [b])); [by rewrite <- app_assoc|].
    by rewrite <- app_assoc.
Qed.

Lemma get_long_input_loop_stops lines rest :
  blank_pair (lines ++ [EmptyString]) = false →
  get_long_input_loop lines (EmptyString :: EmptyString :: rest)
  = (lines ++ [EmptyString], rest).
Proof.
  intros Hpairs. cbn [get_long_input_loop]. rewrite !String.eqb_refl. cbn [andb].
  assert ((0 <? length lines) && (Py.last_item lines =? "")%string = false) as ->.
  { destruct lines as [|l lines _] using rev_ind; [done|].
    unfold Py.last_item. rewrite last_last.
    rewrite <- app_assoc in Hpairs. apply blank_pair_last in Hpairs.
    rewrite andb_true_r in Hpairs. by rewrite Hpairs, andb_false_r. }
  rewrite length_app, Nat.add_comm. cbn [length Nat.add Nat.ltb Nat.leb andb].
  unfold Py.last_item. by rewrite last_last.
Qed.

(** The loop on a text that is ended by two empty lines, and on one
    ended by the end of the input. *)
Lemma get_long_input_loop_text (body rest : list string) :
  blank_pair (body ++ [EmptyString]) = false →
  get_long_input_loop [] (body ++ [EmptyString; EmptyString] ++ rest)
  = (body ++ [EmptyString], rest)
  ∧ get_long_input_loop [] body = (body ++ [EmptyString], []).
Proof.
  intros Hpairs.
  assert (blank_pair ([] ++ body) = false) as Hbody by by apply blank_pair_app_l in Hpairs.
  split.
  - rewrite (get_long_input_loop_collects body [] _ Hbody). cbn [app].
    by rewrite get_long_input_loop_stops.
  - pose proof (get_long_input_loop_collects body [] [] Hbody) as H.
    rewrite app_nil_r in H. by rewrite H.
Qed.

Lemma get_long_input_run (message : string) (stdin : list string) (w : World) :
  get_long_input message stdin w
  = (Ok (Py.join (String Py.nl EmptyString) (get_long_input_loop [] stdin).1,
         (get_long_input_loop [] stdin).2),
     {| fs := fs w; log := log w ++ [EPrint message] |}).
Proof.
  unfold get_long_input, bind, print, emit, ret.
  by destruct (get_long_input_loop [] stdin).
Qed.

(** X7: [get_long_input] prints its message and reads up to two empty
    lines in a row or up to the end of the input; both ends give the same
    text, the lines typed before them joined by newlines with one newline
    after the last.  A single empty line is part of the text. *)
Theorem get_long_input_text (message : string) (body rest : list string) (w : World) :
  blank_pair (body ++ [EmptyString]) = false →
  get_long_input message (body ++ [EmptyString; EmptyString] ++ rest) w
  = (Ok (Py.join (String Py.nl EmptyString) (body ++ [EmptyString]), rest),
     {| fs := fs w; log := log w ++ [EPrint message] |})
  ∧ get_long_input message body w
    = (Ok (Py.join (String Py.nl EmptyString) (body ++ [EmptyString]), []),
       {| fs := fs w; log := log w ++ [EPrint message] |}).
Proof.
  intros Hpairs. destruct (get_long_input_loop_text body rest Hpairs) as [H1 H2].
  rewrite !get_long_input_run. by rewrite H1, H2.
Qed.

Lemma get_long_input_text_witness :
  get_long_input "Specify" (["1 2"; ""; "3"] ++ [""; ""] ++ ["left"]) demo_world
  = (Ok (Py.join (String Py.nl "") (["1 2"; ""; "3"] ++ [""]), ["left"]),
     {| fs := fs demo_world; log := log demo_world ++ [EPrint "Specify"] |})
  ∧ get_long_input "Specify" ["1 2"; ""; "3"] demo_world
    = (Ok (Py.join (String Py.nl "") (["1 2"; ""; "3"] ++ [""]), []),
       {| fs := fs demo_world; log := log demo_world ++ [EPrint "Specify"] |}).
Proof.
  apply (get_long_input_text "Specify" ["1 2"; ""; "3"] ["left"] demo_world).
  reflexivity.
Defined.

Section AddTest.
Context (E : Env).

Lemma check_cache_found site contest problem p w :
  check_cache_path E site contest (Some problem) = Some p →
  fs w !! p = Some Dir →
  check_cache E site contest (Some problem) w = (Ok true, w).
Proof.
  intros Hp Hdir. unfold check_cache. rewrite Hp. simpl need.
  unfold bind at 1. unfold ret at 1. unfold bind, isdir.
  apply is_dir_true in Hdir. by rewrite Hdir.
Qed.

(** X8: [add_test] on a problem whose directory holds [n] cases reads
    the input text and the output text, stores them as case [n] (the files
    [n] and [n.a]), after which the directory holds [n + 1] cases; no other
    path changes, and the input left is what follows the two texts. *)
Theorem add_test_appends_case (args : Args) (problem p : string) (n : nat)
    (input output rest : list string) (w : World) :
  a_problem args = Some problem →
  check_cache_path E (a_site args) (a_contest args) (Some problem) = Some p →
  holds_cases (fs w) p n →
  blank_pair (input ++ [EmptyString]) = false →
  blank_pair (output ++ [EmptyString]) = false →
  ∃ w',
    add_test E args (input ++ [EmptyString; EmptyString]
                     ++ output ++ [EmptyString; EmptyString] ++ rest) w
    = (Ok rest, w')
    ∧ fs w' !! path_join2 p (input_name n)
      = Some (File (Py.join (String Py.nl EmptyString) (input ++ [EmptyString])))
    ∧ fs w' !! path_join2 p (output_name n)
      = Some (File (Py.join (String Py.nl EmptyString) (output ++ [EmptyString])))
    ∧ holds_cases (fs w') p (S n)
    ∧ (∀ k, k ≠ path_join2 p (input_name n) → k ≠ path_join2 p (output_name n) →
            fs w' !! k = fs w !! k)
    ∧ log w'
      = log w
        ++ [EPrint ("Adding new test to " +:+ percent_s (a_site args)
                    +:+ " (contest: " +:+ percent_s (a_contest args)
                    +:+ ", problem: " +:+ problem +:+ ")");
            EPrint "Specify input (^D or two consecutive empty lines to stop):";
            EPrint "Specify output (^D or two consecutive empty lines to stop):";
            EPrint "Test is successfully added"].
Proof.
  intros Hproblem Hp Hcases Hin Hout.
  set (text_in := Py.join (String Py.nl EmptyString) (input ++ [EmptyString])).
  set (text_out := Py.join (String Py.nl EmptyString) (output ++ [EmptyString])).
  eexists. split.
  - unfold add_test. rewrite Hproblem.
    unfold bind at 1. unfold print at 1, emit at 1.
    destruct (get_long_input_loop_text input
                (output ++ [EmptyString; EmptyString] ++ rest) Hin) as [H1 _].
    destruct (get_long_input_loop_text output rest Hout) as [H2 _].
    rewrite (bind_ok _ _ _ _ _ (get_long_input_run _ _ _)). rewrite H1. cbn [fst snd].
    rewrite (bind_ok _ _ _ _ _ (get_long_input_run _ _ _)). rewrite H2. cbn [fst snd].
    erewrite bind_ok; cycle 1.
    { apply (check_cache_found _ _ _ p); [done|]. apply Hcases. }
    erewrite bind_ok; cycle 1.
    { by apply (store_files_run E _ _ _ p n). }
    unfold bind, print, emit, ret. reflexivity.
  - cbn [fs log].
    destruct (stored_files_lookup p n [text_in] [text_out] None (fs w))
      as (Hi & Ho & _ & Hother).
    split; [|split; [|split; [|split]]].
    + pose proof (Hi 0 text_in eq_refl) as H. by rewrite Nat.add_0_r in H.
    + pose proof (Ho 0 text_out eq_refl) as H. by rewrite Nat.add_0_r in H.
    + replace (S n) with (n + length [text_in]) by (simpl; lia).
      by apply stored_files_holds_cases.
    + intros k Hki Hko. apply Hother; [| |done].
      * intros j Hj. simpl in Hj. replace j with 0 by lia. by rewrite Nat.add_0_r.
      * intros j Hj. simpl in Hj. replace j with 0 by lia. by rewrite Nat.add_0_r.
    + by rewrite <- !app_assoc.
Qed.

End AddTest.

Lemma fresh_world_holds_cases : holds_cases (fs fresh_world) demo_dir 0.
Proof.
  split; [reflexivity|]. split; [vm_compute; reflexivity|]. split.
  - intros i _. apply lookup_singleton_ne, not_eq_sym, path_join2_not_dir,
      input_name_like.
  - vm_compute. discriminate.
Qed.

Lemma add_test_appends_case_witness :
  ∃ w',
    add_test (demo_env 0 0 EmptyString) demo_args
      (["1 2"] ++ [""; ""] ++ ["3"] ++ [""; ""] ++ []) fresh_world = (Ok [], w')
    ∧ fs w' !! (demo_dir +:+ "/0") = Some (File ("1 2" +:+ String Py.nl ""))
    ∧ fs w' !! (demo_dir +:+ "/0.a") = Some (File ("3" +:+ String Py.nl ""))
    ∧ holds_cases (fs w') demo_dir 1.
Proof.
  destruct (add_test_appends_case (demo_env 0 0 EmptyString) demo_args "A" demo_dir 0
              ["1 2"] ["3"] [] fresh_world eq_refl eq_refl fresh_world_holds_cases
              eq_refl eq_refl)
    as (w' & Hrun & Hin & Hout & Hcases & _).
  exists w'. split; [exact Hrun|]. split; [exact Hin|]. split; [exact Hout|exact Hcases].
Defined.

(** ** Clearing the cache of a site *)

Lemma below_longer p k : below p k = true → k ≠ p → String.length p < String.length k.
Proof.
  unfold below. destruct (strip_prefix (dir_prefix p) k) as [n|] eqn:Hs; [|done].
  intros _ Hne. apply strip_prefix_inv in Hs. subst k.
  unfold dir_prefix in *. destruct (_ || _).
  - rewrite length_app_s. destruct n; [by rewrite app_empty_r in Hne|]. simpl. lia.
  - rewrite !length_app_s. simpl. lia.
Qed.

Lemma entry_name_below p k name : entry_name p k = Some name → below p k = true.
Proof.
  unfold entry_name, below. by destruct (strip_prefix (dir_prefix p) k).
Qed.

Lemma rmtree_lookup p w k :
  fs w !! p = Some Dir →
  ∃ w', rmtree p w = (Ok tt, w') ∧ log w' = log w
    ∧ fs w' !! k = if String.eqb k p || below p k then None else fs w !! k.
Proof.
  intros Hp. unfold rmtree. rewrite Hp. eexists. split; [done|]. split; [done|].
  simpl. destruct (_ || _) eqn:Hk.
  - apply map_lookup_filter_None. right. intros v _. simpl. by rewrite Hk.
  - destruct (fs w !! k) as [v|] eqn:Hv.
    + apply map_lookup_filter_Some. split; [done|]. simpl. by rewrite Hk.
    + apply map_lookup_filter_None. by left.
Qed.

Section ClearCache.
Context (E : Env).

(** X9: [clear_cache] does nothing unless the answer is [y].  With [y]
    and the directory of the site in place, it leaves that directory
    empty, changes nothing outside it and prints [Done.]; when the
    directory is missing it prints that some error occurred and creates
    nothing. *)
Theorem clear_cache_outcome (site confirm p : string) (w : World) :
  path_join (cache_dir E) [Some site] = Some p →
  forallb (is_dir (fs w)) (parents p) = true →
  (confirm ≠ "y" → clear_cache E (Some site) confirm w = (Ok tt, w))
  ∧ (confirm = "y" → fs w !! p ≠ Some Dir →
     clear_cache E (Some site) confirm w
     = (Ok tt, {| fs := fs w; log := log w ++ [EPrint "Some error occured. Try again."] |}))
  ∧ (confirm = "y" → fs w !! p = Some Dir →
     ∃ w', clear_cache E (Some site) confirm w = (Ok tt, w')
       ∧ log w' = log w ++ [EPrint "Done."]
       ∧ fs w' !! p = Some Dir
       ∧ dir_entries (fs w') p = []
       ∧ (∀ k, k ≠ p → below p k = true → fs w' !! k = None)
       ∧ (∀ k, below p k = false → fs w' !! k = fs w !! k)).
Proof.
  intros Hp Hparents. unfold clear_cache, os_path_join. rewrite Hp. simpl need.
  split; [|split].
  - intros Hc. apply String.eqb_neq in Hc. by rewrite Hc.
  - intros -> Hdir. rewrite String.eqb_refl.
    rewrite (bind_ok _ _ _ false
               {| fs := fs w; log := log w ++ [EPrint "Some error occured. Try again."] |});
      [done|].
    unfold try_except, bind, need, ret, rmtree, print, emit.
    destruct (fs w !! p) as [[|c]|] eqn:Hv; [by destruct Hdir|done..].
  - intros -> Hdir. rewrite String.eqb_refl.
    assert (∀ k, ∃ w1, rmtree p w = (Ok tt, w1) ∧ log w1 = log w
              ∧ fs w1 !! k = if String.eqb k p || below p k then None else fs w !! k)
      as Hrm by (intros k; by apply rmtree_lookup).
    destruct (Hrm p) as (w1 & Hrun & Hlog & _).
    assert (∀ k, fs w1 !! k = if String.eqb k p || below p k then None else fs w !! k)
      as Hw1.
    { intros k. destruct (Hrm k) as (w1' & Hrun' & _ & Hk). congruence. }
    assert (existsb (is_file (fs w1)) (parents p) = false) as Hfiles.
    { apply not_true_is_false. intros (a & Ha & Hfile)%existsb_exists.
      rewrite forallb_forall in Hparents. specialize (Hparents a Ha).
      apply is_dir_true in Hparents. unfold is_file in Hfile. rewrite Hw1 in Hfile.
      destruct (_ || _); [done|]. by rewrite Hparents in Hfile. }
    assert (fs w1 !! p = None) as Hgone by (by rewrite Hw1, String.eqb_refl).
    assert (∀ a, a ∈ parents p → fs w1 !! a = Some Dir) as Hups.
    { intros a Ha. rewrite Hw1.
      rewrite forallb_forall in Hparents.
      pose proof (Hparents a (proj1 (list_elem_of_In _ _) Ha)) as Hd.
      apply is_dir_true in Hd. apply parents_shorter in Ha.
      destruct (String.eqb a p) eqn:Hap.
      { apply String.eqb_eq in Hap. subst a. lia. }
      destruct (below p a) eqn:Hb; [|done].
      apply below_longer in Hb; [lia|]. intros ->. lia. }
    set (w2 := {| fs := <[p := Dir]> (foldr (λ a m, <[a := Dir]> m) (fs w1) (parents p));
                  log := log w1 |}).
    assert (makedirs p w1 = (Ok tt, w2)) as Hmk.
    { unfold makedirs. by rewrite Hfiles, Hgone. }
    assert (∀ k, k ≠ p → fs w2 !! k = fs w1 !! k) as Hw2.
    { intros k Hk. simpl. rewrite lookup_insert_ne by done. rewrite foldr_insert_dir.
      destruct (decide (k ∈ parents p)) as [Hin|]; [|done]. by rewrite Hups. }
    exists {| fs := fs w2; log := log w2 ++ [EPrint "Done."] |}.
    split; [|split; [|split; [|split; [|split]]]].
    + erewrite bind_ok; cycle 1.
      { unfold try_except, bind, need, ret. by rewrite Hrun. }
      cbn [need]. unfold bind at 1. unfold ret at 1.
      by rewrite (bind_ok _ _ _ _ _ Hmk).
    + simpl. by rewrite Hlog.
    + simpl. apply lookup_insert_eq.
    + unfold dir_entries. apply omap_all_none.
      intros k [[k' v] [-> Hin]]%list_elem_of_fmap.
      apply elem_of_map_to_list in Hin. cbn [fst fs] in *.
      destruct (decide (k' = p)) as [->|Hne]; [by apply entry_name_shorter|].
      destruct (entry_name p k') as [name|] eqn:Hname; [|done]. exfalso.
      apply entry_name_below in Hname.
      rewrite (Hw2 k' Hne), Hw1, Hname, orb_true_r in Hin. done.
    + intros k Hne Hb. cbn [fs]. by rewrite (Hw2 k Hne), Hw1, Hb, orb_true_r.
    + intros k Hb. cbn [fs]. destruct (decide (k = p)) as [->|Hne].
      * rewrite Hdir. apply lookup_insert_eq.
      * rewrite (Hw2 k Hne), Hw1, Hb. apply String.eqb_neq in Hne. by rewrite Hne.
Qed.

End ClearCache.

Lemma clear_cache_outcome_witness :
  ∃ w',
    clear_cache retry_env (Some "codeforces") "y" stocked_world = (Ok tt, w')
    ∧ fs w' !! "/home/u/.cache/ACedIt/codeforces" = Some Dir
    ∧ dir_entries (fs w') "/home/u/.cache/ACedIt/codeforces" = []
    ∧ fs w' !! "/work/sol.cpp" = fs stocked_world !! "/work/sol.cpp".
Proof.
  assert (path_join (cache_dir retry_env) [Some "codeforces"]
          = Some "/home/u/.cache/ACedIt/codeforces") as Hp by (vm_compute; reflexivity).
  assert (forallb (is_dir (fs stocked_world)) (parents "/home/u/.cache/ACedIt/codeforces")
          = true) as Hparents by (vm_compute; reflexivity).
  destruct (clear_cache_outcome retry_env "codeforces" "y"
              "/home/u/.cache/ACedIt/codeforces" stocked_world Hp Hparents)
    as (_ & _ & Hyes).
  destruct Hyes as (w' & Hrun & _ & Hdir & Hempty & _ & Hout).
  - reflexivity.
  - vm_compute. reflexivity.
  - exists w'. split; [exact Hrun|]. split; [exact Hdir|]. split; [exact Hempty|].
    apply Hout. vm_compute. reflexivity.
Defined.

(** ** Cleaning up after a run *)

Lemma cleanup_loop n : ∀ a w,
  ∃ w1,
    for_each (λ (_ : unit) i,
                f <- isfile ("temp_output" +:+ Py.str i) ;;
                if f then remove ("temp_output" +:+ Py.str i) else ret tt)
             tt (seq a n) w = (Ok tt, w1)
    ∧ log w1 = log w
    ∧ ∀ k, fs w1 !! k
           = if existsb (λ i, String.eqb k (temp_output i)) (seq a n) && is_file (fs w) k
             then None else fs w !! k.
Proof.
  induction n as [|n IH]; intros a w.
  { exists w. by split. }
  cbn [seq for_each existsb]. fold (temp_output a).
  unfold bind at 1. unfold bind at 1. unfold isfile at 1.
  destruct (is_file (fs w) (temp_output a)) eqn:Hfile.
  - assert (remove (temp_output a) w
            = (Ok tt, {| fs := delete (temp_output a) (fs w); log := log w |})) as ->.
    { unfold remove. unfold is_file in Hfile.
      by destruct (fs w !! temp_output a) as [[|c]|]. }
    destruct (IH (S a) {| fs := delete (temp_output a) (fs w); log := log w |})
      as (w1 & Hrun & Hlog & Hfs).
    exists w1. split; [exact Hrun|]. split; [exact Hlog|].
    intros k. rewrite Hfs. cbn [fs].
    destruct (String.eqb k (temp_output a)) eqn:Hk.
    + apply String.eqb_eq in Hk. subst k.
      unfold is_file at 1. rewrite lookup_delete_eq, andb_false_r, Hfile.
      done.
    + apply String.eqb_neq in Hk. unfold is_file.
      by rewrite lookup_delete_ne.
  - unfold ret at 1.
    destruct (IH (S a) w) as (w1 & Hrun & Hlog & Hfs).
    exists w1. split; [exact Hrun|]. split; [exact Hlog|].
    intros k. rewrite Hfs.
    destruct (String.eqb k (temp_output a)) eqn:Hk; [|done].
    apply String.eqb_eq in Hk. subst k. by rewrite Hfile, !andb_false_r.
Qed.

Section Cleanup.
Context (E : Env).

(** X10: [cleanup] never fails.  It removes the files [temp_output0] to
    [temp_output(n-1)] that exist as regular files, leaves every other
    path as it is, and prints nothing; for a [java] solution it then
    hands [rm basename*.class] to the shell, and for any other extension
    it runs no command. *)
Theorem cleanup_outcome (n : nat) (basename extension : string) (w : World) :
  ∃ w1,
    log w1 = log w
    ∧ (∀ k, fs w1 !! k
            = if existsb (λ i, String.eqb k (temp_output i)) (seq 0 n) && is_file (fs w) k
              then None else fs w !! k)
    ∧ cleanup E n basename extension w
      = if String.eqb extension "java"
        then (Ok tt, {| fs := (os_system E ("rm " +:+ basename +:+ "*.class") w1).2;
                        log := log w1 ++ [ESystem ("rm " +:+ basename +:+ "*.class")] |})
        else (Ok tt, w1).
Proof.
  destruct (cleanup_loop n 0 w) as (w1 & Hrun & Hlog & Hfs).
  exists w1. split; [exact Hlog|]. split; [exact Hfs|].
  unfold cleanup. rewrite (bind_ok _ _ _ _ _ Hrun).
  destruct (String.eqb extension "java"); [|done].
  unfold bind, system, ret. by destruct (os_system E _ w1).
Qed.

End Cleanup.

(** ** Reading the stored inputs back *)

(** Reading the inputs [a], [a+1], ... that hold [items]. *)
Lemma read_inputs_from p items : ∀ a acc w,
  stored (fs w) p input_name a items →
  for_each (λ inputs i,
              content <- read_file (path_join2 p (Py.str i)) ;;
              ret (inputs ++ [content]))
           acc (seq a (length items)) w
  = (Ok (acc ++ items), w).
Proof.
  induction items as [|x items IH]; intros a acc w Hst.
  { simpl. by rewrite app_nil_r. }
  cbn [length seq for_each].
  pose proof (Hst 0 x eq_refl) as Hx. rewrite Nat.add_0_r in Hx.
  unfold bind at 1. unfold bind at 1. unfold read_file at 1.
  unfold input_name in Hx. rewrite Hx. unfold ret at 1.
  rewrite IH; [by rewrite <- app_assoc|].
  intros j y Hj. replace (S a + j) with (a + S j) by lia. by apply Hst.
Qed.

Section ReadBack.
Context (E : Env).

(** X11: what [store_files] stores is what a run reads back.  On a
    directory that holds [n] cases with their input files, after storing
    as many outputs as inputs the count of cases is [n] plus their number,
    and [input_file_to_string] for that count returns the [n] earlier
    inputs followed by the stored ones, in order. *)
Theorem store_files_read_back (site contest problem : option string) (p : string)
    (n : nat) (old inputs outputs : list string) (statement : option string) (w : World) :
  store_files_path E site contest problem = Some p →
  holds_cases (fs w) p n →
  length old = n →
  stored (fs w) p input_name 0 old →
  length inputs = length outputs →
  ∃ w1,
    store_files E site contest problem inputs outputs statement w = (Ok tt, w1)
    ∧ getTestCasesCount p w1 = (Ok (n + length inputs), w1)
    ∧ input_file_to_string p (n + length inputs) w1 = (Ok (old ++ inputs), w1).
Proof.
  intros Hp Hcases Hold Hstored Hlen. subst n.
  exists {| fs := stored_files p (length old) inputs outputs statement (fs w);
            log := log w |}.
  split; [by apply store_files_run|].
  pose proof (stored_files_holds_cases p _ inputs outputs statement (fs w) Hcases Hlen)
    as Hcases1.
  destruct (stored_files_lookup p (length old) inputs outputs statement (fs w))
    as (Hin & _ & _ & Hother).
  split.
  - rewrite getTestCasesCount_dir by apply Hcases1. cbn [fs].
    destruct Hcases1 as (_ & Hperm & _). by rewrite Hperm, length_map, length_seq.
  - unfold input_file_to_string. rewrite seq_app, for_each_app.
    erewrite bind_ok; cycle 1.
    { apply (read_inputs_from p old 0 []).
      intros j x Hj. cbn [fs Nat.add]. rewrite Hother; [by apply (Hstored j x)|..].
      - intros i Hi Heq. apply path_join2_inj in Heq;
          [|apply input_name_like|apply input_name_like].
        apply input_name_inj in Heq. apply lookup_lt_Some in Hj. lia.
      - intros i Hi Heq. apply path_join2_inj in Heq;
          [|apply input_name_like|apply output_name_like].
        by apply input_output_name in Heq.
      - intros _ Heq. apply path_join2_inj in Heq;
          [|apply input_name_like|apply statement_like].
        by apply input_name_statement in Heq. }
    cbn [app Nat.add]. by apply read_inputs_from.
Qed.

End ReadBack.

Lemma store_files_read_back_witness :
  ∃ w1,
    store_files (demo_env 0 0 EmptyString) (Some "codeforces") (Some "1") (Some "A")
      ["1 2"; "5 6"] ["3"; "11"] None fresh_world = (Ok tt, w1)
    ∧ getTestCasesCount demo_dir w1 = (Ok 2, w1)
    ∧ input_file_to_string demo_dir 2 w1 = (Ok ["1 2"; "5 6"], w1).
Proof.
  apply (store_files_read_back (demo_env 0 0 EmptyString)
           (Some "codeforces") (Some "1") (Some "A") demo_dir 0 []
           ["1 2"; "5 6"] ["3"; "11"] None fresh_world).
  - reflexivity.
  - apply fresh_world_holds_cases.
  - reflexivity.
  - intros j x Hj. discriminate.
  - reflexivity.
Defined.

(** ** A contest download on Spoj *)

Section SpojContest.
Context (E : Env).

Lemma check_cache_silent site contest problem :
  within (λ w w', log w' = log w) (λ e, e = AttributeError ∨ e = OSError)
    (check_cache E site contest problem).
Proof.
  apply within_check_cache; [done|congruence|by left|].
  intros p w r w'. unfold makedirs. destruct (existsb _ _).
  - intros [= <- <-]. split; [done|]. intros e [= <-]. by right.
  - destruct (fs w !! p); intros [= <- <-]; (split; [done|]); [|done].
    intros e [= <-]. by right.
Qed.

(** X12: class [Spoj] has no [scrape_contest], so a contest download
    for Spoj always ends in an exception, [AttributeError] or the
    [OSError] of a directory that cannot be made, and before that it
    prints nothing and sends no request. *)
Theorem download_contest_testcases_spoj (args : Args) (w : World) :
  a_site args = Some "spoj" →
  ∃ e w', download_contest_testcases E args w = (Raise e, w')
    ∧ (e = AttributeError ∨ e = OSError)
    ∧ log w' = log w.
Proof.
  intros Hsite. unfold download_contest_testcases, get_platform.
  rewrite !bool_decide_eq_false_2 by (by rewrite Hsite).
  rewrite (bool_decide_eq_true_2 _ Hsite). unfold Spoj_init.
  destruct (a_problem args) as [problem|]; cycle 1.
  { exists AttributeError, w. split; [done|]. split; [by left|done]. }
  cbn [need]. unfold bind at 1. unfold bind at 1. unfold ret at 1. unfold ret at 1.
  cbn [p_site p_contest p_problem]. unfold bind at 1.
  destruct (check_cache E _ _ _ w) as [[hit|c|e] w1] eqn:Hcc.
  - apply check_cache_silent in Hcc as [Hlog _].
    exists AttributeError, w1. split; [done|]. split; [by left|done].
  - by apply check_cache_no_exit in Hcc.
  - apply check_cache_silent in Hcc as [Hlog He].
    exists e, w1. split; [done|]. split; [by apply He|done].
Qed.

End SpojContest.

Lemma download_contest_testcases_spoj_witness :
  ∃ e w', download_contest_testcases spoj_env spoj_args miss_world = (Raise e, w')
    ∧ (e = AttributeError ∨ e = OSError)
    ∧ log w' = log miss_world.
Proof.
  apply (download_contest_testcases_spoj spoj_env spoj_args miss_world).
  reflexivity.
Defined.

(** ** Problem codes the platform leaves as they are *)

Lemma get_platform_problem args code w :
  a_problem args = Some code →
  ∃ platform, get_platform args w = (Ok platform, w)
    ∧ p_site platform = a_site args ∧ p_contest platform = a_contest args
    ∧ p_problem platform = Some (platform_problem (a_site args) code).
Proof.
  intros Hproblem.
  unfold get_platform, platform_problem, Codeforces_init, Codechef_init, Spoj_init,
    Hackerrank_init.
  rewrite Hproblem. repeat case_bool_decide; by eexists.
Qed.

Section NormalForm.
Context (E : Env).

(** X13: with a problem code that the class of the site leaves as it
    is (any code on Codeforces and Codechef, an upper-case one on Spoj, a
    lower-case one without blanks on Hackerrank), the pass of
    [run_solution] after the download finds the cases: the outcome is the
    same for every depth of two and more, and the depth limit is never
    what ends the run. *)
Theorem run_solution_second_pass_normal (args : Args) (code : string) (n : nat)
    (w : World) :
  a_problem args = Some code →
  code ≠ EmptyString →
  platform_problem (a_site args) code = code →
  run_solution E (S (S n)) args w = run_solution E 2 args w
  ∧ ∀ w', run_solution E (S (S n)) args w ≠ (Raise RuntimeError, w').
Proof.
  intros Hproblem Hcode Hnormal.
  assert (∀ source, problem_code args source = Some code) as Hpc.
  { intros source. unfold problem_code. rewrite Hproblem. simpl.
    apply String.eqb_neq in Hcode. by rewrite Hcode. }
  assert (∀ source w1 r w2,
    download_problem_testcases E (second_pass args source) w1 = (r, w2) →
    (∀ e, r ≠ Raise e) →
    ∀ source' p, a_source (second_pass args source) = Some source' →
      run_solution_path E (a_site (second_pass args source))
        (a_contest (second_pass args source))
        (problem_code (second_pass args source) source') = Some p →
      is_dir (fs w2) p = true) as Hcached.
  { intros source w1 r w2 Hdl Hr.
    destruct (get_platform_problem (second_pass args source) code w1)
      as (platform & Hplat & Hs & Hc & Hp).
    { cbn [second_pass a_problem]. apply Hpc. }
    cbn [second_pass a_site a_contest] in Hs, Hc, Hp. rewrite Hnormal in Hp.
    eapply (second_pass_cached E _ _ w1 r w2 platform w1); try done.
    by rewrite Hpc. }
  assert (∀ k, run_solution E (S (S k)) args w = run_solution E 2 args w
               ∧ ∀ w', run_solution E 2 args w ≠ (Raise RuntimeError, w')) as H.
  { intros k. rewrite !(run_solution_unfold E (S _)).
    destruct (a_source args) as [source|]; [|done]. cbv zeta.
    destruct (is_file _ _); [|done].
    destruct (run_solution_path _ _ _ _) as [p|] eqn:Hp; [|done].
    destruct (is_dir (fs w) p).
    { split; [done|]. intros w'. apply run_solution_cached_no_overflow. }
    set (w1 := {| fs := fs w; log := _ |}).
    split.
    - apply bind_ext. intros [] w2 Hdl.
      apply bind_ext. intros [] w3 [= <-].
      apply run_solution_cached_pass. intros source' p' Hs' Hp'.
      exact (Hcached _ _ _ _ Hdl ltac:(done) _ _ Hs' Hp').
    - intros w'. unfold bind at 1.
      destruct (download_problem_testcases E _ w1) as [[[]|c|e] w2] eqn:Hdl; [|done|].
      + unfold bind at 1. unfold print at 1, emit at 1.
        apply (run_solution_cached_pass E 0). intros source' p' Hs' Hp'.
        exact (Hcached _ _ _ _ Hdl ltac:(done) _ _ Hs' Hp').
      + intros [= -> <-]. by apply download_no_overflow in Hdl. }
  split; [apply H|]. intros w'. destruct (H n) as [-> Hno]. apply Hno.
Qed.

End NormalForm.

Lemma run_solution_second_pass_normal_witness :
  run_solution spoj_env 5 spoj_upper_args miss_world
  = run_solution spoj_env 2 spoj_upper_args miss_world
  ∧ ∀ w', run_solution spoj_env 5 spoj_upper_args miss_world ≠ (Raise RuntimeError, w').
Proof.
  apply (run_solution_second_pass_normal spoj_env spoj_upper_args "TEST" 3 miss_world).
  - reflexivity.
  - discriminate.
  - vm_compute. reflexivity.
Defined.

(** ** What the comparison of outputs ignores *)

Lemma strip_cons_space c l : Py.isspace c = true → Py.strip (String c l) = Py.strip l.
Proof. intros Hc. unfold Py.strip. simpl. by rewrite Hc. Qed.

Lemma strip_cons_nonspace c l :
  Py.isspace c = false → Py.strip (String c l) = Py.rstrip (String c l).
Proof. intros Hc. unfold Py.strip. simpl Py.lstrip. by rewrite Hc. Qed.

Lemma rstrip_cons_nonspace c l :
  Py.isspace c = false → Py.rstrip (String c l) = String c (Py.rstrip l).
Proof. intros Hc. by rewrite rstrip_cons, Hc. Qed.

Lemma split_cons_nl s : Py.split Py.nl (String Py.nl s) = EmptyString :: Py.split Py.nl s.
Proof. done. Qed.

Lemma split_cons_other c s :
  Ascii.eqb c Py.nl = false →
  ∃ l ls, Py.split Py.nl s = l :: ls ∧ Py.split Py.nl (String c s) = String c l :: ls.
Proof.
  intros Hc. cbn [Py.split]. rewrite Hc.
  destruct (Py.split Py.nl s) as [|l ls] eqn:Hs; [by apply split_nonempty in Hs|].
  by exists l, ls.
Qed.

Lemma split_singleton s y : Py.split Py.nl s = [y] → s = y.
Proof.
  revert y. induction s as [|c s IH]; intros y.
  - by intros [= <-].
  - destruct (Ascii.eqb c Py.nl) eqn:Hc.
    + apply Ascii.eqb_eq in Hc. subst c. rewrite split_cons_nl.
      intros [= _ H]. by apply split_nonempty in H.
    + destruct (split_cons_other c s Hc) as (l & ls & Hs & ->).
      intros [= <- ->]. by rewrite (IH l Hs).
Qed.

Lemma nonspace_not_nl c : Py.isspace c = false → Ascii.eqb c Py.nl = false.
Proof.
  intros Hc. apply Ascii.eqb_neq. by intros ->.
Qed.

(** The blanks at the beginning of a text: the empty lines they leave
    at the beginning go. *)
Lemma lstrip_lines s :
  map Py.strip (Py.split Py.nl (Py.lstrip s))
  = drop_blank_head (map Py.strip (Py.split Py.nl s)).
Proof.
  induction s as [|c s IH]; [done|].
  cbn [Py.lstrip]. destruct (Py.isspace c) eqn:Hsp.
  - rewrite IH. destruct (Ascii.eqb c Py.nl) eqn:Hc.
    + apply Ascii.eqb_eq in Hc. subst c. rewrite split_cons_nl.
      destruct (Py.split Py.nl s) as [|l ls] eqn:Hs; [by apply split_nonempty in Hs|].
      done.
    + destruct (split_cons_other c s Hc) as (l & ls & -> & ->).
      cbn [map]. by rewrite (strip_cons_space c l Hsp).
  - destruct (split_cons_other c s (nonspace_not_nl c Hsp)) as (l & ls & _ & ->).
    cbn [map]. rewrite (strip_cons_nonspace c l Hsp), (rstrip_cons_nonspace c l Hsp).
    by destruct (map Py.strip ls).
Qed.

Lemma rstrip_cons_empty c s :
  String.eqb (Py.rstrip (String c s)) EmptyString
  = Py.isspace c && String.eqb (Py.rstrip s) EmptyString.
Proof.
  rewrite rstrip_cons. destruct (Py.isspace c); cbn [andb]; [|done].
  case_bool_decide as Hr; [by rewrite Hr|].
  by apply String.eqb_neq in Hr as ->.
Qed.

Lemma rstrip_empty_lines s :
  String.eqb (Py.rstrip s) EmptyString
  = forallb (λ l, String.eqb (Py.rstrip l) EmptyString) (Py.split Py.nl s).
Proof.
  induction s as [|c s IH]; [done|].
  rewrite rstrip_cons_empty.
  destruct (Ascii.eqb c Py.nl) eqn:Hc.
  - apply Ascii.eqb_eq in Hc. subst c. rewrite split_cons_nl. cbn [forallb].
    by rewrite <- IH.
  - destruct (split_cons_other c s Hc) as (l & ls & Hs & ->).
    rewrite Hs in IH. cbn [forallb] in *.
    by rewrite rstrip_cons_empty, IH, andb_assoc.
Qed.

Lemma rstrip_lines_nil ls : rstrip_lines ls = [] → ls = [].
Proof. destruct ls as [|x rest]; [done|]. simpl. by destruct (forallb _ rest). Qed.

(** The blanks at the end of a text, line by line. *)
Lemma rstrip_split s :
  Py.split Py.nl (Py.rstrip s) = rstrip_lines (Py.split Py.nl s).
Proof.
  induction s as [|c s IH]; [done|].
  destruct (Ascii.eqb c Py.nl) eqn:Hc.
  - apply Ascii.eqb_eq in Hc. subst c. rewrite split_cons_nl. cbn [rstrip_lines].
    rewrite <- rstrip_empty_lines, rstrip_cons. cbn [Py.isspace Py.nl andb].
    case_bool_decide as Hr.
    + by rewrite Hr.
    + apply String.eqb_neq in Hr as ->. by rewrite split_cons_nl, IH.
  - destruct (split_cons_other c s Hc) as (l & ls & Hs & ->).
    rewrite Hs in IH. cbn [rstrip_lines] in *.
    assert (Py.has_char Py.nl (String c l) = false) as Hline.
    { pose proof (split_lines_nosep Py.nl s) as Hall. rewrite Hs in Hall.
      inversion_clear Hall as [|?? Hl _]. simpl. by rewrite Hc, Hl. }
    destruct (forallb _ ls) eqn:Hblank.
    + apply split_singleton in IH.
      assert (Py.rstrip (String c s) = Py.rstrip (String c l)) as ->
        by by rewrite !rstrip_cons, IH.
      apply split_nosep. by apply has_char_rstrip.
    + rewrite rstrip_cons.
      assert (Py.rstrip s ≠ EmptyString) as Hne.
      { intros Hr. rewrite Hr in IH. injection IH as _ IH.
        apply symmetry, rstrip_lines_nil in IH. by subst ls. }
      rewrite bool_decide_eq_false_2, andb_false_r by done.
      destruct (split_cons_other c (Py.rstrip s) Hc) as (l' & ls' & Hs' & ->).
      rewrite Hs' in IH. by injection IH as -> ->.
Qed.

Lemma strip_empty l :
  String.eqb (Py.strip l) EmptyString = String.eqb (Py.rstrip l) EmptyString.
Proof.
  induction l as [|c l IH]; [done|].
  destruct (Py.isspace c) eqn:Hsp.
  - by rewrite (strip_cons_space c l Hsp), IH, rstrip_cons_empty, Hsp.
  - by rewrite (strip_cons_nonspace c l Hsp).
Qed.

Lemma strip_rstrip l : Py.strip (Py.rstrip l) = Py.strip l.
Proof.
  induction l as [|c l IH]; [done|].
  rewrite rstrip_cons. destruct (Py.isspace c) eqn:Hsp; cbn [andb].
  - case_bool_decide as Hr.
    + rewrite (strip_cons_space c l Hsp).
      pose proof (strip_empty l) as He. rewrite Hr in He. cbn in He.
      by apply String.eqb_eq in He as ->.
    + by rewrite !(strip_cons_space c _ Hsp).
  - rewrite !(strip_cons_nonspace c _ Hsp), !(rstrip_cons_nonspace c _ Hsp).
    by rewrite rstrip_idem.
Qed.

Lemma rstrip_lines_strip ls :
  map Py.strip (rstrip_lines ls) = drop_blank_tail (map Py.strip ls).
Proof.
  induction ls as [|x rest IH]; [done|].
  cbn [rstrip_lines map drop_blank_tail].
  assert (forallb (λ l, String.eqb l EmptyString) (map Py.strip rest)
          = forallb (λ l, String.eqb (Py.rstrip l) EmptyString) rest) as ->.
  { clear. induction rest as [|y rest IH]; [done|].
    cbn [map forallb]. by rewrite IH, strip_empty. }
  destruct (forallb _ rest).
  - cbn [map]. by rewrite strip_rstrip.
  - cbn [map]. by rewrite IH.
Qed.

(** X14: [normalize] strips the blanks at both ends of every line and
    drops the empty lines that are left at the beginning and at the end;
    nothing else: blanks inside a line and empty lines between others stay.
    Two outputs are compared as equal exactly when these lines agree. *)
Theorem normalize_lines_trimmed (text : string) :
  normalize text
  = Py.join (String Py.nl EmptyString)
      (drop_blank_tail (drop_blank_head (map Py.strip (Py.split Py.nl text)))).
Proof.
  unfold normalize, Py.strip at 2.
  by rewrite rstrip_split, rstrip_lines_strip, lstrip_lines.
Qed.

(** ** Downloading a problem that is stored already *)

Lemma same_files_refl w : same_files w w.
Proof. done. Qed.

Lemma same_files_trans w1 w2 w3 : same_files w1 w2 → same_files w2 w3 → same_files w1 w3.
Proof. unfold same_files. congruence. Qed.

Lemma same_files_print line : within same_files (λ _, True) (print line).
Proof. by intros w r w' [= <- <-]. Qed.

Lemma need_ok {A} (e : exn) (o : option A) w a w' :
  need e o w = (Ok a, w') → w' = w.
Proof. destruct o; [|done]. by intros [= _ <-]. Qed.

Lemma not_found_not_ok {A} message self w (a : A) w' :
  not_found message self w ≠ (Ok a, w').
Proof. by unfold not_found, handle_kbd_interrupt, bind, print, emit, sys_exit. Qed.

Section Appends.
Context (E : Env).

Lemma same_files_get line : within same_files (λ _, True) (requests_get E line).
Proof.
  intros w r w'. unfold requests_get. by destruct (rq_get E line w); intros [= <- <-].
Qed.

Lemma get_html_files link w r w' : get_html E link w = (r, w') → fs w' = fs w.
Proof.
  intros H.
  apply (within_get_html same_files (λ _, True) same_files_refl same_files_trans E)
    in H as [H _]; [done|done|apply same_files_print|apply same_files_get].
Qed.

(** A parser that returns has printed nothing. *)
Lemma codeforces_parse_html_ok self req w parsed w' :
  codeforces_parse_html E self req w = (Ok parsed, w') → w' = w.
Proof.
  unfold codeforces_parse_html. destruct (codeforces_blocks E req) as [[ins outs] sts].
  destruct (_ || _); [intros H; by apply not_found_not_ok in H|].
  intros H. apply bind_inv_ok in H as (st & w1 & Hneed & Hret).
  apply need_ok in Hneed as ->. by injection Hret as _ <-.
Qed.

Lemma codechef_parse_html_ok self req w parsed w' :
  codechef_parse_html E self req w = (Ok parsed, w') → w' = w.
Proof.
  unfold codechef_parse_html. destruct (codechef_blocks E req).
  - by intros [= _ <-].
  - intros H. by apply not_found_not_ok in H.
Qed.

Lemma spoj_parse_html_ok self req w parsed w' :
  spoj_parse_html E self req w = (Ok parsed, w') → w' = w.
Proof.
  unfold spoj_parse_html. destruct (_ =? _).
  - intros H. by apply not_found_not_ok in H.
  - by intros [= _ <-].
Qed.

Lemma hackerrank_parse_html_ok self req w parsed w' :
  hackerrank_parse_html E self req w = (Ok parsed, w') → w' = w.
Proof.
  unfold hackerrank_parse_html. destruct (hackerrank_blocks E req).
  - by intros [= _ <-].
  - intros H. by apply not_found_not_ok in H.
Qed.

(** A [scrape_problem] that returns: one line printed, one page fetched
    and parsed, what the parser gave stored, and [Done.] printed. *)
Lemma scrape_problem_stores self w w' :
  scrape_problem E self w = (Ok tt, w') →
  ∃ line link req w2 w3 inputs outputs statement,
    get_html E link {| fs := fs w; log := log w ++ [EPrint line] |} = (Ok req, w2)
    ∧ parse_problem E self req w2 = (Ok (inputs, outputs, statement), w2)
    ∧ store_files E (p_site self) (p_contest self) (p_problem self)
        inputs outputs statement w2 = (Ok tt, w3)
    ∧ w' = {| fs := fs w3; log := log w3 ++ [EPrint "Done."] |}.
Proof.
  unfold scrape_problem, parse_problem. destruct (cls self); intros H.
  - unfold codeforces_scrape_problem in H.
    apply bind_inv_ok in H as (line & wa & Hline & H). apply need_ok in Hline as ->.
    apply bind_inv_ok in H as ([] & wb & Hprint & H). injection Hprint as <-.
    apply bind_inv_ok in H as (contest & wc & Hc & H). apply need_ok in Hc as ->.
    apply bind_inv_ok in H as (problem & wd & Hp & H). apply need_ok in Hp as ->.
    apply bind_inv_ok in H as (type & we & Ht & H).
    assert (we = {| fs := fs w; log := log w ++ [EPrint line] |}) as ->.
    { unfold codeforces_type in Ht. apply bind_inv_ok in Ht as (n & wn & Hn & Hret).
      apply need_ok in Hn as ->. by injection Hret as _ <-. }
    apply bind_inv_ok in H as (req & wf & Hget & H).
    apply bind_inv_ok in H as ([[ins outs] text] & wg & Hparse & H).
    pose proof (codeforces_parse_html_ok _ _ _ _ _ Hparse) as ->.
    apply bind_inv_ok in H as ([] & w3 & Hstore & Hdone). injection Hdone as <-.
    eexists line, _, req, wf, w3, ins, outs, (Some text).
    split; [exact Hget|]. split; [by rewrite (bind_ok _ _ _ _ _ Hparse)|]. done.
  - unfold codechef_scrape_problem in H.
    apply bind_inv_ok in H as (line & wa & Hline & H). apply need_ok in Hline as ->.
    apply bind_inv_ok in H as ([] & wb & Hprint & H). injection Hprint as <-.
    apply bind_inv_ok in H as (link & wc & Hlink & H). apply need_ok in Hlink as ->.
    apply bind_inv_ok in H as (req & wf & Hget & H).
    apply bind_inv_ok in H as (parsed & wg & Hparse & H).
    pose proof (codechef_parse_html_ok _ _ _ _ _ Hparse) as ->.
    apply bind_inv_ok in H as ([] & w3 & Hstore & Hdone). injection Hdone as <-.
    exists line, link, req, wf, w3, parsed.1, parsed.2, None.
    split; [exact Hget|]. split; [by rewrite (bind_ok _ _ _ _ _ Hparse)|]. done.
  - unfold spoj_scrape_problem in H.
    apply bind_inv_ok in H as (line & wa & Hline & H). apply need_ok in Hline as ->.
    apply bind_inv_ok in H as ([] & wb & Hprint & H). injection Hprint as <-.
    apply bind_inv_ok in H as (link & wc & Hlink & H). apply need_ok in Hlink as ->.
    apply bind_inv_ok in H as (req & wf & Hget & H).
    apply bind_inv_ok in H as (parsed & wg & Hparse & H).
    pose proof (spoj_parse_html_ok _ _ _ _ _ Hparse) as ->.
    apply bind_inv_ok in H as ([] & w3 & Hstore & Hdone). injection Hdone as <-.
    exists line, link, req, wf, w3, parsed.1, parsed.2, None.
    split; [exact Hget|]. split; [by rewrite (bind_ok _ _ _ _ _ Hparse)|]. done.
  - unfold hackerrank_scrape_problem in H.
    apply bind_inv_ok in H as (line & wa & Hline & H). apply need_ok in Hline as ->.
    apply bind_inv_ok in H as ([] & wb & Hprint & H). injection Hprint as <-.
    apply bind_inv_ok in H as (link & wc & Hlink & H). apply need_ok in Hlink as ->.
    apply bind_inv_ok in H as (req & wf & Hget & H).
    apply bind_inv_ok in H as (parsed & wg & Hparse & H).
    pose proof (hackerrank_parse_html_ok _ _ _ _ _ Hparse) as ->.
    apply bind_inv_ok in H as ([] & w3 & Hstore & Hdone). injection Hdone as <-.
    exists line, link, req, wf, w3, parsed.1, parsed.2, None.
    split; [exact Hget|]. split; [by rewrite (bind_ok _ _ _ _ _ Hparse)|]. done.
Qed.

(** X15: a download of a problem whose directory holds [n] cases, when
    it returns, has fetched one page with [get_html] and stored the inputs
    and outputs that [parse_html] of the platform found on that page as
    the cases [n] and up, with nothing else changed in the files; the
    cases stored before, those added by hand included, are as they were.
    Cases are appended, never replaced. *)
Theorem download_appends_cases (args : Args) (platform : Platform) (problem p : string)
    (n : nat) (w w0 w' : World) :
  get_platform args w = (Ok platform, w0) →
  p_problem platform = Some problem →
  check_cache_path E (p_site platform) (p_contest platform) (Some problem) = Some p →
  holds_cases (fs w) p n →
  download_problem_testcases E args w = (Ok tt, w') →
  ∃ line link req w2 inputs outputs statement,
    get_html E link {| fs := fs w; log := log w ++ [EPrint line] |} = (Ok req, w2)
    ∧ parse_problem E platform req w2 = (Ok (inputs, outputs, statement), w2)
    ∧ w' = {| fs := stored_files p n inputs outputs statement (fs w);
              log := log w2 ++ [EPrint "Done."] |}
    ∧ stored (fs w') p input_name n inputs
    ∧ stored (fs w') p output_name n outputs
    ∧ (length inputs = length outputs → holds_cases (fs w') p (n + length inputs))
    ∧ ∀ i, i < n →
        fs w' !! path_join2 p (input_name i) = fs w !! path_join2 p (input_name i)
        ∧ fs w' !! path_join2 p (output_name i) = fs w !! path_join2 p (output_name i).
Proof.
  intros Hplat Hproblem Hp Hcases Hrun.
  pose proof (get_platform_world _ _ _ _ Hplat) as ->.
  unfold download_problem_testcases in Hrun.
  rewrite (bind_ok _ _ _ _ _ Hplat), Hproblem in Hrun.
  rewrite (bind_ok _ _ _ _ _ (check_cache_found E _ _ _ p w Hp (proj1 Hcases))) in Hrun.
  destruct (negb (a_force args) && true); [done|].
  apply scrape_problem_stores in Hrun
    as (line & link & req & w2 & w3 & inputs & outputs & statement
        & Hget & Hparse & Hstore & ->).
  pose proof (get_html_files _ _ _ _ Hget) as Hfs. cbn [fs] in Hfs.
  rewrite Hproblem in Hstore. rewrite <- Hfs in Hcases.
  rewrite (store_files_run E _ _ _ p n inputs outputs statement w2 Hp Hcases) in Hstore.
  injection Hstore as <-. cbn [fs log]. rewrite Hfs.
  destruct (stored_files_lookup p n inputs outputs statement (fs w))
    as (Hin & Hout & _ & Hother).
  exists line, link, req, w2, inputs, outputs, statement.
  split; [done|]. split; [done|]. split; [done|]. split; [done|]. split; [done|]. split.
  - intros Hlen. apply stored_files_holds_cases; [|done]. by rewrite <- Hfs.
  - intros i Hi. split; apply Hother.
    + intros j _ Heq. apply path_join2_inj in Heq;
        [|apply input_name_like|apply input_name_like].
      apply input_name_inj in Heq. lia.
    + intros j _ Heq. apply path_join2_inj in Heq;
        [|apply input_name_like|apply output_name_like].
      by apply input_output_name in Heq.
    + intros _ Heq. apply path_join2_inj in Heq;
        [|apply input_name_like|apply statement_like].
      by apply input_name_statement in Heq.
    + intros j _ Heq. apply path_join2_inj in Heq;
        [|apply output_name_like|apply input_name_like].
      by apply symmetry, input_output_name in Heq.
    + intros j _ Heq. apply path_join2_inj in Heq;
        [|apply output_name_like|apply output_name_like].
      apply output_name_inj in Heq. lia.
    + intros _ Heq. apply path_join2_inj in Heq;
        [|apply output_name_like|apply statement_like].
      by apply output_name_statement in Heq.
Qed.

End Appends.

Lemma download_appends_cases_witness :
  stored (fs (download_problem_testcases retry_env (with_force demo_args true)
                fresh_world).2) demo_dir input_name 0 ["1 2"]
  ∧ stored (fs (download_problem_testcases retry_env (with_force demo_args true)
                  fresh_world).2) demo_dir output_name 0 ["3"]
  ∧ holds_cases (fs (download_problem_testcases retry_env (with_force demo_args true)
                       fresh_world).2) demo_dir 1.
Proof.
  destruct (download_appends_cases retry_env (with_force demo_args true)
              {| cls := Codeforces; p_site := Some "codeforces"; p_contest := Some "1";
                 p_problem := Some "A"; force_download := true |}
              "A" demo_dir 0 fresh_world fresh_world
              (download_problem_testcases retry_env (with_force demo_args true)
                 fresh_world).2)
    as (line & link & req & w2 & inputs & outputs & statement
        & _ & Hparse & _ & Hin & Hout & Hcases & _).
  - reflexivity.
  - reflexivity.
  - vm_compute. reflexivity.
  - apply fresh_world_holds_cases.
  - vm_compute. reflexivity.
  - injection Hparse as <- <- _.
    split; [exact Hin|]. split; [exact Hout|]. exact (Hcases eq_refl).
Defined.

(** ** The commands of a run *)

Lemma read_file_world p w r w' : read_file p w = (r, w') → w' = w.
Proof. unfold read_file. by destruct (fs w !! p) as [[|c]|]; intros [= _ <-]. Qed.

Section Commands.
Context (E : Env).

(** One case is one command, whatever comes of it. *)
Lemma run_command_on_one_test_log path i cmd w r w' :
  run_command_on_one_test E path i cmd w = (r, w') →
  log w' = log w ++ [ESystem (case_command path i cmd)].
Proof.
  unfold run_command_on_one_test. fold (case_command path i cmd).
  unfold bind at 1. unfold system at 1.
  destruct (os_system E (case_command path i cmd) w) as [status files].
  set (w1 := {| fs := files; log := _ |}).
  unfold bind at 1.
  destruct (read_file _ w1) as [[expected|c|e] w2] eqn:Hexp;
    apply read_file_world in Hexp as ->; [|by intros [= _ <-]..].
  destruct (status =? 124)%Z; [by intros [= _ <-]|].
  destruct (status =? 0)%Z; [|by intros [= _ <-]].
  unfold bind.
  destruct (read_file _ w1) as [[produced|c|e] w2] eqn:Hprod;
    apply read_file_world in Hprod as ->; [|by intros [= _ <-]..].
  by destruct (String.eqb _ _); intros [= _ <-].
Qed.

Lemma run_cases_log path cmd k : ∀ a acc w acc' w',
  for_each (λ (acc : outcomes) i,
              let '(expected_outputs, user_outputs, results) := acc in
              r <- run_command_on_one_test E path i cmd ;;
              let '(e, u, v) := r in
              ret (<[i := e]> expected_outputs, <[i := u]> user_outputs,
                   <[i := v]> results))
           acc (seq a k) w = (Ok acc', w') →
  log w' = log w ++ map (λ i, ESystem (case_command path i cmd)) (seq a k).
Proof.
  induction k as [|k IH]; intros a acc w acc' w' H.
  - injection H as _ <-. by rewrite app_nil_r.
  - cbn [seq for_each map] in *.
    apply bind_inv_ok in H as (acc1 & w1 & Hbody & Hrest).
    destruct acc as [[eo uo] rs].
    apply bind_inv_ok in Hbody as ([[e u] v] & w0 & Hrun & Hret).
    injection Hret as _ <-.
    apply run_command_on_one_test_log in Hrun.
    apply IH in Hrest. rewrite Hrest, Hrun. by rewrite <- app_assoc.
Qed.

Lemma input_file_to_string_world path n w r w' :
  input_file_to_string path n w = (r, w') → w' = w.
Proof.
  unfold input_file_to_string.
  assert (∀ l acc w,
            for_each (λ inputs i,
                        content <- read_file (path_join2 path (Py.str i)) ;;
                        ret (inputs ++ [content]))
                     acc l w = (r, w') → w' = w) as Hloop; [|apply Hloop].
  clear. intros l. induction l as [|i l IH]; intros acc w; cbn [for_each].
  - by intros [= _ <-].
  - unfold bind at 1. unfold bind at 1.
    destruct (read_file _ w) as [[c|c|e] w1] eqn:Hread;
      apply read_file_world in Hread as ->; [|by intros [= _ <-]..].
    unfold ret at 1. apply IH.
Qed.

Lemma cleanup_log n basename extension w r w' :
  cleanup E n basename extension w = (r, w') →
  log w' = log w ++ (if String.eqb extension "java"
                     then [ESystem ("rm " +:+ basename +:+ "*.class")] else []).
Proof.
  destruct (cleanup_loop n 0 w) as (w1 & Hrun & Hlog & _).
  unfold cleanup. rewrite (bind_ok _ _ _ _ _ Hrun).
  destruct (String.eqb extension "java").
  - unfold bind, system, ret. destruct (os_system E _ w1).
    intros [= _ <-]. simpl. by rewrite Hlog.
  - intros [= _ <-]. by rewrite Hlog, app_nil_r.
Qed.

(** X16: a run on a stored problem that comes to its end has handed
    these commands to the shell, in this order and no others: the compile
    command if the language has one, then one command for each case
    [0 .. n-1], each under [timeout 2s] with the case's input and writing
    [temp_output i], and after the table the removal of the class files
    for [java].  [n] is the number of [.a] files counted at the start. *)
Theorem run_solution_cached_commands (path ppath basename extension : string)
    (w w' : World) :
  run_solution_cached E path ppath basename extension w = (Ok tt, w') →
  ∃ compiler cmd rows,
    dict_get (compiler_table basename) extension = Some compiler
    ∧ dict_get (execute_table basename extension) extension = Some cmd
    ∧ log w'
      = log w
        ++ match compiler with
           | Some c => [ESystem (c +:+ " '" +:+ ppath +:+ "." +:+ extension +:+ "'")]
           | None => []
           end
        ++ map (λ i, ESystem (case_command path i cmd))
             (seq 0 (length (dir_outputs (fs w) path)))
        ++ [ETable table_header rows]
        ++ (if String.eqb extension "java"
            then [ESystem ("rm " +:+ basename +:+ "*.class")] else []).
Proof.
  unfold run_solution_cached. intros H.
  apply bind_inv_ok in H as (n & wa & Hcount & H).
  assert (wa = w ∧ n = length (dir_outputs (fs w) path)) as [-> ->].
  { unfold getTestCasesCount, bind, listdir in Hcount.
    destruct (fs w !! path) as [[|c]|]; [|done..]. by injection Hcount as <- <-. }
  apply bind_inv_ok in H as ([[eo uo] rs] & wb & Hran & H).
  apply bind_inv_ok in H as (inputs & wc & Hinputs & H).
  apply input_file_to_string_world in Hinputs as ->.
  apply bind_inv_ok in H as ([] & wd & Hemit & Hclean).
  injection Hemit as <-. apply cleanup_log in Hclean. cbn [log] in Hclean.
  destruct (bool_decide _); [|done].
  apply bind_inv_ok in Hran as (compiler & w2 & Hcompiler & Hran).
  apply bind_inv_ok in Hran as (cmd & w3 & Hcmd & Hran).
  destruct (dict_get (compiler_table basename) extension) as [compiler'|] eqn:Hc; [|done].
  injection Hcompiler as <- <-.
  destruct (dict_get (execute_table basename extension) extension) as [cmd'|] eqn:He;
    [|done].
  injection Hcmd as <- <-.
  apply bind_inv_ok in Hran as (status & w4 & Hcompile & Hran).
  destruct (status =? 0)%Z; cycle 1.
  { by apply bind_inv_ok in Hran as (? & ? & ? & _). }
  apply run_cases_log in Hran.
  exists compiler', cmd', (report_rows inputs eo uo rs (length (dir_outputs (fs w) path))).
  split; [done|]. split; [done|].
  assert (log w4 = log w ++ match compiler' with
                            | Some c => [ESystem (c +:+ " '" +:+ ppath +:+ "."
                                                  +:+ extension +:+ "'")]
                            | None => []
                            end) as Hcomp.
  { destruct compiler' as [c|].
    - unfold system in Hcompile. destruct (os_system E _ w).
      by injection Hcompile as _ <-.
    - injection Hcompile as _ <-. by rewrite app_nil_r. }
  rewrite Hclean, Hran, Hcomp. by rewrite <- ?app_assoc.
Qed.

End Commands.

Lemma run_solution_cached_commands_witness :
  ∃ compiler cmd rows,
    dict_get (compiler_table "sol") "cpp" = Some compiler
    ∧ dict_get (execute_table "sol" "cpp") "cpp" = Some cmd
    ∧ log (run_solution_cached (demo_env 0 0 ("6" +:+ String Py.nl EmptyString))
             demo_dir "/work/sol" "sol" "cpp" demo_world).2
      = log demo_world
        ++ match compiler with
           | Some c => [ESystem (c +:+ " '" +:+ "/work/sol" +:+ "." +:+ "cpp" +:+ "'")]
           | None => []
           end
        ++ map (λ i, ESystem (case_command demo_dir i cmd))
             (seq 0 (length (dir_outputs (fs demo_world) demo_dir)))
        ++ [ETable table_header rows]
        ++ (if String.eqb "cpp" "java"
            then [ESystem ("rm " +:+ "sol" +:+ "*.class")] else []).
Proof.
  apply (run_solution_cached_commands (demo_env 0 0 ("6" +:+ String Py.nl EmptyString))
           demo_dir "/work/sol" "sol" "cpp" demo_world).
  vm_compute. reflexivity.
Defined.
